(** * pdfcrop: content detection, margin statistics and uniform-canvas cropping

    A shallow embedding of [crop.py].  Python floats are read as exact
    rationals ([Q]); pixel indices are machine integers ([Z]); an operation
    that can raise in Python ([IndexError], [ZeroDivisionError]) returns
    [option], with [None] standing for the raised exception. *)

From Stdlib Require Import List ZArith QArith Qround Bool Lia Lqa.
From Stdlib Require Import Permutation Sorted.
From Stdlib Require String.
Import ListNotations.

Local Open Scope Q_scope.

(** ** A small error monad for the fallible steps *)

Definition bind {A B : Type} (m : option A) (k : A -> option B) : option B :=
  match m with
  | Some a => k a
  | None => None
  end.

Notation "x <- m ;; k" := (bind m (fun x => k))
  (at level 61, m at next level, right associativity).

(** Python's [a / b] on floats: raises [ZeroDivisionError] on a zero divisor. *)
Definition pydiv (a b : Q) : option Q :=
  if Qeq_bool b 0 then None else Some (a / b).

(** Python's [int(x)] on a float: truncation toward zero. *)
Definition py_int (x : Q) : Z := Z.quot (Qnum x) (Zpos (Qden x)).

(** Python's [max(a, b)] and [min(a, b)] on two numbers: the first argument
    is kept unless the second is strictly larger (resp. smaller). *)
Definition py_max (a b : Q) : Q := if Qlt_le_dec a b then b else a.
Definition py_min (a b : Q) : Q := if Qlt_le_dec b a then b else a.

(** ** Geometry: [fitz.Rect] *)

Record Rect : Type := mkRect { x0 : Q; y0 : Q; x1 : Q; y1 : Q }.

(** [Rect.width] and [Rect.height] of PyMuPDF: [max(0, x1 - x0)] and
    [max(0, y1 - y0)]. *)
Definition width (r : Rect) : Q := py_max 0 (x1 r - x0 r).
Definition height (r : Rect) : Q := py_max 0 (y1 r - y0 r).

(** ** Rendered pages *)

(** The grayscale array [img_array] of shape [(shape0, shape1)] obtained from
    the 2x pixmap of a page; [pixel r c] is the intensity at row [r],
    column [c]. *)
Record GrayImage : Type := mkGray {
  shape0 : nat;
  shape1 : nat;
  pixel : nat -> nat -> Z
}.

(** A page as the detector sees it: [page.rect] and the grayscale rendering
    produced by [page.get_pixmap(matrix=fitz.Matrix(2, 2))]. *)
Record Page : Type := mkPage {
  rect : Rect;
  img_array : GrayImage
}.

(** ** numpy helpers used by the detector *)

(** [img_array < (255 * threshold)], one pixel. *)
Definition content_mask (img : GrayImage) (threshold : Q) (r c : nat) : bool :=
  if Qlt_le_dec (inject_Z (pixel img r c)) (255 * threshold) then true else false.

(** [np.any(content_mask, axis=1)] and [np.any(content_mask, axis=0)]. *)
Definition any_axis1 (img : GrayImage) (threshold : Q) : list bool :=
  map (fun r => existsb (fun c => content_mask img threshold r c) (seq 0 (shape1 img)))
      (seq 0 (shape0 img)).

Definition any_axis0 (img : GrayImage) (threshold : Q) : list bool :=
  map (fun c => existsb (fun r => content_mask img threshold r c) (seq 0 (shape0 img)))
      (seq 0 (shape1 img)).

(** [np.any(v)] on a boolean vector. *)
Definition np_any (v : list bool) : bool := existsb (fun b => b) v.

(** [np.where(v)[0]]: the indices of the true entries, in increasing order;
    [where_from k v] numbers the entries of [v] from [k]. *)
Fixpoint where_from (k : Z) (v : list bool) : list Z :=
  match v with
  | [] => []
  | b :: v' => if b then k :: where_from (k + 1) v' else where_from (k + 1) v'
  end.

Definition np_where (v : list bool) : list Z := where_from 0%Z v.

(** [a[[0, -1]]]: first and last entry; [IndexError] on an empty array. *)
Definition first_last (a : list Z) : option (Z * Z) :=
  match a with
  | [] => None
  | f :: _ => Some (f, last a f)
  end.

(** [v[start:]] with Python's treatment of a negative [start]. *)
Definition slice_from {A : Type} (start : Z) (v : list A) : list A :=
  if (start <? 0)%Z
  then skipn (Z.to_nat (Z.max 0 (Z.of_nat (length v) + start))) v
  else skipn (Z.to_nat start) v.

(** ** [get_content_bbox] *)

(** [footer_start = int(page_height * (1 - footer_height_ratio))]. *)
Definition footer_start (page_height : nat) (footer_height_ratio : Q) : Z :=
  py_int (inject_Z (Z.of_nat page_height) * (1 - footer_height_ratio)).

(** [gap_threshold = int(page_height * 0.02)]. *)
Definition gap_threshold (page_height : nat) : Z :=
  py_int (inject_Z (Z.of_nat page_height) * (2 # 100)).

(** The loop [for i in range(len(content_rows) - 1, 0, -1)], entered at
    index [i]: the result is [main_content_end] after the loop. *)
Fixpoint scan_gaps (content_rows : list Z) (gap_thr fstart : Z)
         (i : nat) (main_content_end : Z) : option Z :=
  match i with
  | O => Some main_content_end
  | S i' =>
      cur <- nth_error content_rows i ;;
      prev <- nth_error content_rows i' ;;
      let gap_size := (cur - prev)%Z in
      if (gap_size >? gap_thr)%Z && (cur >? fstart)%Z
      then Some prev
      else scan_gaps content_rows gap_thr fstart i' main_content_end
  end.

(** The footer block of [get_content_bbox]: the value of [y_max] after it. *)
Definition footer_isolation (rows : list bool) (footer_height_ratio : Q)
           (y_min y_max : Z) : option Z :=
  let page_height := length rows in
  let fstart := footer_start page_height footer_height_ratio in
  let footer_rows := slice_from fstart rows in
  if np_any footer_rows then
    let gap_thr := gap_threshold page_height in
    let content_rows := np_where rows in
    main_content_end <-
      scan_gaps content_rows gap_thr fstart (length content_rows - 1) y_max ;;
    if (main_content_end <? y_max)%Z && (main_content_end >? y_min)%Z
    then Some main_content_end
    else Some y_max
  else Some y_max.

(** Pixel index to PDF coordinate at 2x zoom: [origin + (px / 2)]. *)
Definition to_pdf (origin : Q) (px : Z) : Q := origin + inject_Z px / 2.

Definition get_content_bbox (page : Page) (threshold footer_height_ratio : Q)
  : option Rect :=
  let img := img_array page in
  let rows := any_axis1 img threshold in
  let cols := any_axis0 img threshold in
  if negb (np_any rows) || negb (np_any cols) then Some (rect page)
  else
    ys <- first_last (np_where rows) ;;
    xs <- first_last (np_where cols) ;;
    let '(y_min, y_max) := ys in
    let '(x_min, x_max) := xs in
    y_max' <- footer_isolation rows footer_height_ratio y_min y_max ;;
    let page_rect := rect page in
    Some (mkRect (to_pdf (x0 page_rect) x_min) (to_pdf (y0 page_rect) y_min)
                 (to_pdf (x0 page_rect) x_max) (to_pdf (y0 page_rect) y_max')).

(** ** [analyze_pdf_margins] *)

(** [np.percentile(a, q)] with numpy's default linear interpolation:
    the sorted data is read at the virtual index [(n - 1) * q / 100].  An
    empty array has no percentile: the result is [None]. *)
Fixpoint insert_sorted (x : Q) (l : list Q) : list Q :=
  match l with
  | [] => [x]
  | y :: l' => if Qle_bool x y then x :: l else y :: insert_sorted x l'
  end.

Definition np_sort (a : list Q) : list Q := fold_right insert_sorted [] a.

Definition np_percentile (a : list Q) (q : Q) : option Q :=
  let n := Z.of_nat (length a) in
  let arr := np_sort a in
  let virtual_index := inject_Z (n - 1) * (q / 100) in
  let previous_index := Qfloor virtual_index in
  let next_index := Z.min (previous_index + 1) (n - 1) in
  let gamma := virtual_index - inject_Z previous_index in
  if (previous_index <? 0)%Z then None
  else
    lo <- nth_error arr (Z.to_nat previous_index) ;;
    hi <- nth_error arr (Z.to_nat next_index) ;;
    Some (lo + (hi - lo) * gamma).

(** The four lists [left_margins], [top_margins], [right_margins],
    [bottom_margins]. *)
Record MarginLists : Type := mkLists {
  left_margins : list Q;
  top_margins : list Q;
  right_margins : list Q;
  bottom_margins : list Q
}.

(** The loop [for content_box, page_rect in zip(content_boxes, page_sizes)]. *)
Fixpoint margin_loop (pairs : list (Rect * Rect)) (acc : MarginLists)
  : option MarginLists :=
  match pairs with
  | [] => Some acc
  | (content_box, page_rect) :: rest =>
      left_margin <- pydiv (x0 content_box - x0 page_rect) (width page_rect) ;;
      top_margin <- pydiv (y0 content_box - y0 page_rect) (height page_rect) ;;
      right_margin <- pydiv (x1 page_rect - x1 content_box) (width page_rect) ;;
      bottom_margin <- pydiv (y1 page_rect - y1 content_box) (height page_rect) ;;
      margin_loop rest
        (mkLists (left_margins acc ++ [py_max 0 left_margin])
                 (top_margins acc ++ [py_max 0 top_margin])
                 (right_margins acc ++ [py_max 0 right_margin])
                 (bottom_margins acc ++ [py_max 0 bottom_margin]))
  end.

(** The margin set [(left, top, right, bottom)]. *)
Record MarginSet : Type := mkMargins {
  m_left : Q;
  m_top : Q;
  m_right : Q;
  m_bottom : Q
}.

(** Lines 120-144 of [analyze_pdf_margins]: from the detected boxes and the
    page rectangles to the suggested margins. *)
Definition aggregate_margins (content_boxes page_sizes : list Rect) (buffer : Q)
  : option MarginSet :=
  lists <- margin_loop (combine content_boxes page_sizes) (mkLists [] [] [] []) ;;
  p_left <- np_percentile (left_margins lists) 25 ;;
  let suggested_left := py_max 0 (p_left - buffer) in
  p_top <- np_percentile (top_margins lists) 25 ;;
  let suggested_top := py_max 0 (p_top - buffer) in
  p_right <- np_percentile (right_margins lists) 25 ;;
  let suggested_right := py_max 0 (p_right - buffer) in
  p_bottom <- np_percentile (bottom_margins lists) 25 ;;
  let suggested_bottom := py_max 0 (p_bottom - buffer) in
  Some (mkMargins suggested_left suggested_top suggested_right suggested_bottom).

(** [range(0, page_count, step)]. *)
Definition range_step (page_count step : nat) : list nat :=
  map (fun k => (k * step)%nat) (seq 0 ((page_count + step - 1) / step)).

(** The sampled page indices; [page_count // sample_pages] raises on a zero
    divisor, [range] raises on a zero step, and a range with a negative step
    is empty. *)
Definition sample_indices (page_count : nat) (sample_pages : Z) : option (list nat) :=
  if (Z.of_nat page_count <=? sample_pages)%Z then Some (seq 0 page_count)
  else if (sample_pages =? 0)%Z then None
  else
    let step := (Z.of_nat page_count / sample_pages)%Z in
    if (step =? 0)%Z then None
    else if (step <? 0)%Z then Some []
    else Some (firstn (Z.to_nat sample_pages)
                      (range_step page_count (Z.to_nat step))).

(** The loop [for i in sample_indices] collecting [content_boxes] and
    [page_sizes]; the detector runs with its default threshold 0.95. *)
Fixpoint sample_loop (doc : list Page) (indices : list nat)
         (footer_height_ratio : Q) (content_boxes page_sizes : list Rect)
  : option (list Rect * list Rect) :=
  match indices with
  | [] => Some (content_boxes, page_sizes)
  | i :: rest =>
      page <- nth_error doc i ;;
      let page_rect := rect page in
      content_bbox <- get_content_bbox page (95 # 100) footer_height_ratio ;;
      sample_loop doc rest footer_height_ratio
                  (content_boxes ++ [content_bbox]) (page_sizes ++ [page_rect])
  end.

Definition analyze_pdf_margins (doc : list Page) (sample_pages : Z)
           (buffer footer_height_ratio : Q) : option MarginSet :=
  let page_count := length doc in
  indices <- sample_indices page_count sample_pages ;;
  boxes <- sample_loop doc indices footer_height_ratio [] [] ;;
  aggregate_margins (fst boxes) (snd boxes) buffer.

(** The aggregator as the specification words it: per edge, the 25th
    percentile of the clamped raw fractions, minus the buffer, clamped. *)
Definition PageSample : Type := (Rect * Rect)%type.

Definition raw_left (s : PageSample) : Q := (x0 (fst s) - x0 (snd s)) / width (snd s).
Definition raw_top (s : PageSample) : Q := (y0 (fst s) - y0 (snd s)) / height (snd s).
Definition raw_right (s : PageSample) : Q := (x1 (snd s) - x1 (fst s)) / width (snd s).
Definition raw_bottom (s : PageSample) : Q := (y1 (snd s) - y1 (fst s)) / height (snd s).

Definition spec_edge (raw : PageSample -> Q) (samples : list PageSample) (buffer : Q)
  : option Q :=
  p25 <- np_percentile (map (fun s => py_max 0 (raw s)) samples) 25 ;;
  Some (py_max 0 (p25 - buffer)).

(** ** The output document *)

(** What [show_pdf_page(target_rect, doc, page_num, clip=crop_rect)] puts on
    a page. *)
Record Paste : Type := mkPaste {
  paste_target : Rect;
  paste_source : nat;
  paste_clip : Rect
}.

(** A page of the output document: created empty by [new_page] and filled by
    [show_pdf_page], or copied from the source by [insert_pdf]. *)
Inductive OutPage : Type :=
| NewPage (page_width page_height : Q) (shown : list Paste)
| CopiedPage (source : nat) (source_rect : Rect).

(** [output_doc.new_page(width=w, height=h)]: appends a page and returns
    its position. *)
Definition new_page (output_doc : list OutPage) (w h : Q) : list OutPage * nat :=
  (output_doc ++ [NewPage w h []], length output_doc).

(** [new_page.show_pdf_page(...)] on the page at position [pos]. *)
Fixpoint show_pdf_page (output_doc : list OutPage) (pos : nat) (p : Paste)
  : list OutPage :=
  match output_doc, pos with
  | [], _ => []
  | NewPage w h shown :: rest, O => NewPage w h (shown ++ [p]) :: rest
  | pg :: rest, O => pg :: rest
  | pg :: rest, S pos' => pg :: show_pdf_page rest pos' p
  end.

(** ** [crop_pdf]: the uniform canvas *)

(** [crop_left], [crop_top], [crop_right], [crop_bottom] of one page. *)
Definition crop_box (page_rect : Rect) (m : MarginSet) : Rect :=
  mkRect (x0 page_rect + width page_rect * m_left m)
         (y0 page_rect + height page_rect * m_top m)
         (x1 page_rect - width page_rect * m_right m)
         (y1 page_rect - height page_rect * m_bottom m).

(** [cropped_width = crop_right - crop_left] and
    [cropped_height = crop_bottom - crop_top] of the first pass. *)
Definition cropped_width (page_rect : Rect) (m : MarginSet) : Q :=
  x1 (crop_box page_rect m) - x0 (crop_box page_rect m).

Definition cropped_height (page_rect : Rect) (m : MarginSet) : Q :=
  y1 (crop_box page_rect m) - y0 (crop_box page_rect m).

(** First pass: [max_width] and [max_height], both started at 0. *)
Fixpoint first_pass (doc : list Page) (m : MarginSet) (max_width max_height : Q)
  : Q * Q :=
  match doc with
  | [] => (max_width, max_height)
  | page :: rest =>
      first_pass rest m (py_max max_width (cropped_width (rect page) m))
                        (py_max max_height (cropped_height (rect page) m))
  end.

(** [scale_x = max_width / cropped_width if cropped_width > 0 else 1]. *)
Definition scale_along (max_dim cropped_dim : Q) : option Q :=
  if Qlt_le_dec 0 cropped_dim then pydiv max_dim cropped_dim else Some 1.

Record PageTransform : Type := mkTransform {
  scale_x : Q;
  scale_y : Q;
  scale : Q;
  offset_x : Q;
  offset_y : Q;
  crop_rect : Rect;
  target_rect : Rect
}.

(** Lines 195-225: the transform of one page into the canvas. *)
Definition page_transform (page_rect : Rect) (m : MarginSet)
           (max_width max_height : Q) : option PageTransform :=
  let crop := crop_box page_rect m in
  let cropped_width := width crop in
  let cropped_height := height crop in
  sx <- scale_along max_width cropped_width ;;
  sy <- scale_along max_height cropped_height ;;
  let s := py_min sx sy in
  let scaled_width := cropped_width * s in
  let scaled_height := cropped_height * s in
  ox <- pydiv (max_width - scaled_width) 2 ;;
  oy <- pydiv (max_height - scaled_height) 2 ;;
  Some (mkTransform sx sy s ox oy crop
          (mkRect ox oy (ox + scaled_width) (oy + scaled_height))).

(** Second pass: the loop over [range(len(doc))], from page [page_num] on. *)
Fixpoint second_pass (pages : list Page) (page_num : nat) (m : MarginSet)
         (max_width max_height : Q) (output_doc : list OutPage)
  : option (list OutPage) :=
  match pages with
  | [] => Some output_doc
  | page :: rest =>
      let '(output_doc1, pos) := new_page output_doc max_width max_height in
      t <- page_transform (rect page) m max_width max_height ;;
      let output_doc2 :=
        show_pdf_page output_doc1 pos
                      (mkPaste (target_rect t) page_num (crop_rect t)) in
      second_pass rest (S page_num) m max_width max_height output_doc2
  end.

(** What [crop_pdf] reports and writes. *)
Record CropReport : Type := mkReport {
  canvas_width : Q;
  canvas_height : Q;
  output_doc : list OutPage;
  original_page_count : nat;
  output_page_count : nat
}.

(** An argument left at [None] is replaced by the analysed margin. *)
Definition or_auto (given : option Q) (auto : Q) : Q :=
  match given with
  | Some v => v
  | None => auto
  end.

Definition is_none (given : option Q) : bool :=
  match given with
  | Some _ => false
  | None => true
  end.

Definition crop_pdf (doc : list Page) (left top right bottom : option Q)
           (buffer footer_height_ratio : Q) : option CropReport :=
  m <- (if is_none left || is_none top || is_none right || is_none bottom
        then
          auto <- analyze_pdf_margins doc 99999999%Z buffer footer_height_ratio ;;
          Some (mkMargins (or_auto left (m_left auto)) (or_auto top (m_top auto))
                          (or_auto right (m_right auto))
                          (or_auto bottom (m_bottom auto)))
        else
          Some (mkMargins (or_auto left 0) (or_auto top 0)
                          (or_auto right 0) (or_auto bottom 0))) ;;
  let '(max_width, max_height) := first_pass doc m 0 0 in
  out <- second_pass doc 0 m max_width max_height [] ;;
  Some (mkReport max_width max_height out (length doc) (length out)).

(** ** Sample documents and margins *)

(** A one-page 600 x 800 document, a two-page document with a smaller second
    page, and margin sets: 10% on every side, 60% left and right, and 50%
    left and right. *)
Definition letter_page : Page :=
  mkPage (mkRect 0 0 600 800) (mkGray 0 0 (fun _ _ => 255%Z)).

Definition small_page : Page :=
  mkPage (mkRect 0 0 400 600) (mkGray 0 0 (fun _ _ => 255%Z)).

Definition one_page_doc : list Page := [letter_page].
Definition mixed_doc : list Page := [letter_page; small_page].

Definition tenth_margins : MarginSet := mkMargins (1 # 10) (1 # 10) (1 # 10) (1 # 10).
Definition wide_margins : MarginSet := mkMargins (6 # 10) 0 (6 # 10) 0.

(** ** [PDFCropGUI.crop_pdf]: the explicit-rectangle mode *)

Module PDFCropGUI.

(** A [QRectF] selection in scene coordinates. *)
Record QRectF : Type := mkQRectF { qx : Q; qy : Q; qwidth : Q; qheight : Q }.

(** The truth value PyQt gives a [QRectF]: [isValid()]. *)
Definition qrect_bool (r : QRectF) : bool :=
  (if Qlt_le_dec 0 (qwidth r) then true else false)
  && (if Qlt_le_dec 0 (qheight r) then true else false).

(** The fields of the window that [crop_pdf] reads. *)
Record Gui : Type := mkGui {
  doc : list Page;
  min_page : Z;
  max_page : Z;
  view_crop_rect : option QRectF;
  render_scale_factor : Q;
  page_rect : Rect
}.

(** Python's [round(x)] on a float: to the nearest integer, ties to even. *)
Definition py_round (x : Q) : Z :=
  let f := Qfloor x in
  match Qcompare (x - inject_Z f) (1 # 2) with
  | Lt => f
  | Gt => (f + 1)%Z
  | Eq => if Z.even f then f else (f + 1)%Z
  end.

Definition Size : Type := (Z * Z)%type.

Definition size_eqb (a b : Size) : bool :=
  (fst a =? fst b)%Z && (snd a =? snd b)%Z.

(** [(round(page.rect.width), round(page.rect.height))]. *)
Definition rounded_size (page : Page) : Size :=
  (py_round (width (rect page)), py_round (height (rect page))).

(** [collections.Counter]: keys in order of first insertion. *)
Fixpoint counter_add (k : Size) (c : list (Size * nat)) : list (Size * nat) :=
  match c with
  | [] => [(k, 1%nat)]
  | (k', n) :: c' =>
      if size_eqb k k' then (k', S n) :: c' else (k', n) :: counter_add k c'
  end.

Definition Counter (keys : list Size) : list (Size * nat) :=
  fold_left (fun c k => counter_add k c) keys [].

(** [max(items, key=itemgetter(1))]: the first item of maximal count. *)
Fixpoint first_max (items : list (Size * nat)) (best : Size * nat) : Size * nat :=
  match items with
  | [] => best
  | it :: rest =>
      if (snd best <? snd it)%nat then first_max rest it else first_max rest best
  end.

(** [size_counts.most_common(1)]. *)
Definition most_common_1 (c : list (Size * nat)) : list (Size * nat) :=
  match c with
  | [] => []
  | it :: rest => [first_max rest it]
  end.

(** The loop of lines 609-630, from page [page_num] on, with the output
    document and the two counters as state. *)
Fixpoint crop_loop (pages : list Page) (page_num : nat) (lo hi : Z)
         (most_common_size : Size) (crop : Rect)
         (out : list OutPage) (cropped_pages unchanged_pages : nat)
  : list OutPage * nat * nat :=
  match pages with
  | [] => (out, cropped_pages, unchanged_pages)
  | page :: rest =>
      let page_size := rounded_size page in
      let current_page_num := (Z.of_nat page_num + 1)%Z in
      if (lo <=? current_page_num)%Z && (current_page_num <=? hi)%Z
         && size_eqb page_size most_common_size
      then
        let cropped_width := width crop in
        let cropped_height := height crop in
        let '(out1, pos) := new_page out cropped_width cropped_height in
        let target := mkRect 0 0 cropped_width cropped_height in
        let out2 := show_pdf_page out1 pos (mkPaste target page_num crop) in
        crop_loop rest (S page_num) lo hi most_common_size crop
                  out2 (S cropped_pages) unchanged_pages
      else
        let out1 := out ++ [CopiedPage page_num (rect page)] in
        crop_loop rest (S page_num) lo hi most_common_size crop
                  out1 cropped_pages (S unchanged_pages)
  end.

Inductive Outcome : Type :=
| NoSelection
| Cancelled
| Failed
| Saved (out : list OutPage) (cropped_pages unchanged_pages : nat)
        (most_common_size : Size) (most_common_count : nat).

(** Lines 551-566: the selection in PDF coordinates, clamped to the
    current page. *)
Definition pdf_crop_rect (self : Gui) (view_rect : QRectF) : option Rect :=
  pdf_x1 <- pydiv (qx view_rect) (render_scale_factor self) ;;
  pdf_y1 <- pydiv (qy view_rect) (render_scale_factor self) ;;
  pdf_x2 <- pydiv (qx view_rect + qwidth view_rect) (render_scale_factor self) ;;
  pdf_y2 <- pydiv (qy view_rect + qheight view_rect) (render_scale_factor self) ;;
  let pdf_x1 := py_max 0 (py_min pdf_x1 (width (page_rect self))) in
  let pdf_y1 := py_max 0 (py_min pdf_y1 (height (page_rect self))) in
  let pdf_x2 := py_max 0 (py_min pdf_x2 (width (page_rect self))) in
  let pdf_y2 := py_max 0 (py_min pdf_y2 (height (page_rect self))) in
  Some (mkRect pdf_x1 pdf_y1 pdf_x2 pdf_y2).

(** The divisions of the log lines 581-602; their values are only printed. *)
Definition log_lines (self : Gui) (crop : Rect)
           (most_common_count total_pages : nat) : option unit :=
  most_common_fraction <-
    pydiv (inject_Z (Z.of_nat most_common_count)) (inject_Z (Z.of_nat total_pages)) ;;
  let original_width := width (page_rect self) in
  let original_height := height (page_rect self) in
  let left_cropped := x0 crop in
  let top_cropped := y0 crop in
  let right_cropped := original_width - x1 crop in
  let bottom_cropped := original_height - y1 crop in
  log_left <- pydiv left_cropped original_width ;;
  log_top <- pydiv top_cropped original_height ;;
  log_right <- pydiv right_cropped original_width ;;
  log_bottom <- pydiv bottom_cropped original_height ;;
  Some tt.

(** The body of the [try] block; [None] is an exception caught by
    [except Exception]. *)
Definition crop_body (self : Gui) (view_rect : QRectF)
  : option (list OutPage * nat * nat * Size * nat) :=
  crop <- pdf_crop_rect self view_rect ;;
  let page_sizes := map rounded_size (doc self) in
  let size_counts := Counter page_sizes in
  top1 <- nth_error (most_common_1 size_counts) 0 ;;
  let '(most_common_size, most_common_count) := top1 in
  let total_pages := length (doc self) in
  logged <- log_lines self crop most_common_count total_pages ;;
  let '(out, cropped_pages, unchanged_pages) :=
    crop_loop (doc self) 0 (min_page self) (max_page self)
              most_common_size crop [] 0 0 in
  Some (out, cropped_pages, unchanged_pages, most_common_size, most_common_count).

(** [output_path] is what the save dialog returned. *)
Definition crop_pdf (self : Gui) (output_path : String.string) : Outcome :=
  match view_crop_rect self with
  | None => NoSelection
  | Some view_rect =>
      if negb (qrect_bool view_rect) then NoSelection
      else
        match output_path with
        | String.EmptyString => Cancelled
        | _ =>
            match crop_body self view_rect with
            | Some (out, c, u, sz, n) => Saved out c u sz n
            | None => Failed
            end
        end
  end.

(** *** Vocabulary of the gate's properties *)

(** How often a rounded size occurs among the pages. *)
Definition times_seen (k : Size) (sizes : list Size) : nat :=
  length (filter (size_eqb k) sizes).

(** The count a [Counter] holds for a key (0 when absent). *)
Fixpoint counter_get (k : Size) (c : list (Size * nat)) : nat :=
  match c with
  | [] => 0%nat
  | (k', n) :: c' => if size_eqb k k' then n else counter_get k c'
  end.

(** The gate of the loop for the page at 0-based index [page_num]. *)
Definition eligible (lo hi : Z) (most_common_size : Size)
           (page_num : nat) (page : Page) : bool :=
  (lo <=? Z.of_nat page_num + 1)%Z && (Z.of_nat page_num + 1 <=? hi)%Z
  && size_eqb (rounded_size page) most_common_size.

(** The number of pages, numbered from [page_num], that pass the gate. *)
Fixpoint count_eligible (lo hi : Z) (most_common_size : Size)
         (pages : list Page) (page_num : nat) : nat :=
  match pages with
  | [] => 0%nat
  | page :: rest =>
      ((if eligible lo hi most_common_size page_num page then 1 else 0)
       + count_eligible lo hi most_common_size rest (S page_num))%nat
  end.

(** The output page of a cropped page and of a page carried through. *)
Definition cropped_page (crop : Rect) (page_num : nat) : OutPage :=
  NewPage (width crop) (height crop)
          [mkPaste (mkRect 0 0 (width crop) (height crop)) page_num crop].

Definition carried_page (page_num : nat) (page : Page) : OutPage :=
  CopiedPage page_num (rect page).

(** *** Sample window: ten pages, five 600 x 800 then five 400 x 600, the
    selection (50,50)-(550,750) drawn at 2x, and a page range. *)
Definition ten_pages : list Page :=
  repeat letter_page 5 ++ repeat small_page 5.

(** The file name "o" returned by the save dialog. *)
Definition sample_path : String.string :=
  String.String (Ascii.Ascii true true true true false true true false)
                String.EmptyString.

Definition sample_gui (lo hi : Z) : Gui :=
  mkGui ten_pages lo hi (Some (mkQRectF 100 100 1000 1400)) 2 (mkRect 0 0 600 800).

End PDFCropGUI.

(** ** Vocabulary of the detector's properties *)

(** The 2x pixmap of a rendered page does not reach past the page: its last
    pixel column and its last pixel row start inside [page.rect]. *)
Definition rendered_at_2x (page : Page) : Prop :=
  inject_Z (Z.of_nat (shape1 (img_array page)))
    <= 2 * (x1 (rect page) - x0 (rect page)) + 1
  /\ inject_Z (Z.of_nat (shape0 (img_array page)))
    <= 2 * (y1 (rect page) - y0 (rect page)) + 1.

(** No pixel of the page is a content pixel. *)
Definition blank (page : Page) (threshold : Q) : Prop :=
  forall r c, (r < shape0 (img_array page))%nat -> (c < shape1 (img_array page))%nat ->
              ~ inject_Z (pixel (img_array page) r c) < 255 * threshold.

(** The test of the gap loop at index [i] of [content_rows]. *)
Definition footer_gap (content_rows : list Z) (gap_thr fstart : Z) (i : nat) : bool :=
  match nth_error content_rows i, nth_error content_rows (i - 1) with
  | Some cur, Some prev => (cur - prev >? gap_thr)%Z && (cur >? fstart)%Z
  | _, _ => false
  end.



(** ** Vocabulary of the aggregator's properties *)

(** The clamped raw fractions of one edge, sample by sample. *)
Definition clamped (raw : PageSample -> Q) (samples : list PageSample) : list Q :=
  map (fun s => py_max 0 (raw s)) samples.

(** The page rectangle of the sample has a width and a height to divide by. *)
Definition usable_page (s : PageSample) : Prop :=
  ~ width (snd s) == 0 /\ ~ height (snd s) == 0.

(** The content box of the sample is a valid rectangle inside a page
    rectangle of positive width and height. *)
Definition box_within_page (s : PageSample) : Prop :=
  let box := fst s in
  let page := snd s in
  x0 page < x1 page /\ y0 page < y1 page
  /\ x0 page <= x0 box /\ x0 box <= x1 box /\ x1 box <= x1 page
  /\ y0 page <= y0 box /\ y0 box <= y1 box /\ y1 box <= y1 page.

(** ** Sample pages *)

(** A grid that is black (0) where [content r c] holds and white elsewhere. *)
Definition mask_image (h w : nat) (content : nat -> nat -> bool) : GrayImage :=
  mkGray h w (fun r c => if content r c then 0%Z else 255%Z).

(** Content on the listed rows, in columns 2 to 5. *)
Definition ink_rows (l : list nat) (r c : nat) : bool :=
  existsb (Nat.eqb r) l && (2 <=? c)%nat && (c <=? 5)%nat.

(** A 10 x 12 page without ink. *)
Definition blank_page : Page :=
  mkPage (mkRect 0 0 10 12) (mkGray 24 20 (fun _ _ => 255%Z)).

(** A 4 x 25 page (8 x 50 pixels): body on rows 10-12, footer mark on row 48. *)
Definition body_footer_page : Page :=
  mkPage (mkRect 0 0 4 25) (mask_image 50 8 (ink_rows [10; 11; 12; 48]%nat)).


(** The same page with the footer mark on row 45, the first row of the band. *)
Definition band_edge_page : Page :=
  mkPage (mkRect 0 0 4 25) (mask_image 50 8 (ink_rows [10; 11; 12; 45]%nat)).

(** Scenario B of the specification: a 1000-row grid with body rows 100-700
    and a footer mark on row 950. *)
Definition scenario_b_page : Page :=
  mkPage (mkRect 0 0 2 500)
         (mask_image 1000 4
            (fun r c => ((100 <=? r)%nat && (r <=? 700)%nat) || (r =? 950)%nat)).

(** ** Sample documents *)

(** Two samples on a 10 x 12 page: margins 1 and 2 on every side. *)
Definition two_samples : list PageSample :=
  [ (mkRect 1 1 9 11, mkRect 0 0 10 12); (mkRect 2 2 8 10, mkRect 0 0 10 12) ].


(** ** Vocabulary of the detector's further properties *)

(** The pixel at row [r], column [c] of the page's grid is a content pixel. *)
Definition content_pixel (page : Page) (threshold : Q) (r c : nat) : Prop :=
  (r < shape0 (img_array page))%nat /\ (c < shape1 (img_array page))%nat
  /\ content_mask (img_array page) threshold r c = true.

(** The PDF position of a pixel index of the page, along x and along y. *)
Definition pdf_x (page : Page) (c : nat) : Q := to_pdf (x0 (rect page)) (Z.of_nat c).
Definition pdf_y (page : Page) (r : nat) : Q := to_pdf (y0 (rect page)) (Z.of_nat r).

(** ** Vocabulary of the aggregator's further properties *)

(** [below p x]: the value [x] is strictly less than [p]. *)
Definition below (p x : Q) : bool := negb (Qle_bool p x).

(** [at_most p x]: the value [x] is at most [p]. *)
Definition at_most (p x : Q) : bool := Qle_bool x p.

(** The number of samples whose clamped raw fraction on an edge is strictly
    less than the margin [m]: the pages whose content the margin cuts into. *)
Definition pages_cut (raw : PageSample -> Q) (m : Q) (samples : list PageSample)
  : nat :=
  length (filter (fun s => below m (py_max 0 (raw s))) samples).

(** The interpolation weight of the 25th percentile of [n] values: the
    fractional part of the virtual index (n - 1) / 4. *)
Definition quartile_weight (n : nat) : Q :=
  inject_Z (Z.of_nat n - 1) * (25 / 100) - inject_Z ((Z.of_nat n - 1) / 4).

(** The two samples in the other order. *)
Definition two_samples_swapped : list PageSample :=
  [ (mkRect 2 2 8 10, mkRect 0 0 10 12); (mkRect 1 1 9 11, mkRect 0 0 10 12) ].

(** Ten samples with the same box on the same page. *)
Definition uniform_samples : list PageSample :=
  repeat (mkRect 1 2 9 10, mkRect 0 0 10 12) 10.

(** A document of two pages of the same size. *)
Definition uniform_doc : list Page := [letter_page; letter_page].

(** ** Vocabulary and samples of the explicit-rectangle mode *)

(** A page of 599.6 x 800.4 points, and a window on an empty document. *)
Definition jittered_page : Page :=
  mkPage (mkRect 0 0 (5996 # 10) (8004 # 10)) (mkGray 0 0 (fun _ _ => 255%Z)).

Definition empty_gui : PDFCropGUI.Gui :=
  PDFCropGUI.mkGui [] 1 0 (Some (PDFCropGUI.mkQRectF 100 100 1000 1400)) 2
                   (mkRect 0 0 600 800).

(** ** [PDFCropGUI]: page navigation, preview mode and page range *)

Module Navigation.

(** The fields of the window that navigation reads and writes;
    [view_crop_rect] is [pdf_view.crop_rect], the two spin boxes hold the
    values shown in the range controls, and the last three fields are what
    [load_page] shows: the label (whether the page will be cropped) and the
    state of the two navigation buttons. *)
Record Window : Type := mkWindow {
  doc : list Page;
  current_page : Z;
  min_page : Z;
  max_page : Z;
  preview_crop_range_only : bool;
  persistent_crop_rect : option PDFCropGUI.QRectF;
  view_crop_rect : option PDFCropGUI.QRectF;
  min_page_spinbox : Z;
  max_page_spinbox : Z;
  page_rect : Rect;
  will_be_cropped : bool;
  prev_enabled : bool;
  next_enabled : bool
}.

(** [self.doc[i]]: PyMuPDF accepts every page number below the page count
    and counts a negative one from the end. *)
Definition doc_getitem (pages : list Page) (i : Z) : option Page :=
  if (i <? Z.of_nat (length pages))%Z
  then nth_error pages (Z.to_nat (i mod Z.of_nat (length pages)))
  else None.

(** [self.min_page <= n <= self.max_page]. *)
Definition in_crop_range (lo hi n : Z) : bool := (lo <=? n)%Z && (n <=? hi)%Z.

(** The first page [p] among n-1, n-2, ..., 0 whose number [p + 1] is in the
    crop range: the downward loops of [load_page] and [prev_page]. *)
Fixpoint find_down (lo hi : Z) (n : nat) : option Z :=
  match n with
  | O => None
  | S k => if in_crop_range lo hi (Z.of_nat k + 1) then Some (Z.of_nat k)
           else find_down lo hi k
  end.

(** The first page among start, start+1, ..., start+count-1 whose number is
    in the crop range: the upward loops of [load_page] and [next_page]. *)
Fixpoint find_up (lo hi : Z) (start : Z) (count : nat) : option Z :=
  match count with
  | O => None
  | S k => if in_crop_range lo hi (start + 1) then Some start
           else find_up lo hi (start + 1)%Z k
  end.

Definition is_some {A : Type} (o : option A) : bool :=
  match o with
  | Some _ => true
  | None => false
  end.

(** The truth value of [self.persistent_crop_rect] and of
    [self.pdf_view.crop_rect]: [None] is false, a [QRectF] is true when
    valid. *)
Definition selection_bool (r : option PDFCropGUI.QRectF) : bool :=
  match r with
  | Some q => PDFCropGUI.qrect_bool q
  | None => false
  end.

Definition with_current_page (self : Window) (p : Z) : Window :=
  mkWindow (doc self) p (min_page self) (max_page self)
           (preview_crop_range_only self) (persistent_crop_rect self)
           (view_crop_rect self) (min_page_spinbox self) (max_page_spinbox self)
           (page_rect self) (will_be_cropped self)
           (prev_enabled self) (next_enabled self).

(** [load_page]: the page to show is fetched, the label and the buttons are
    set, and a persistent selection is restored; rendering is left out. *)
Definition load_page (self : Window) : option Window :=
  page <- doc_getitem (doc self) (current_page self) ;;
  let current_page_num := (current_page self + 1)%Z in
  let in_range := in_crop_range (min_page self) (max_page self) current_page_num in
  let page_count := Z.of_nat (length (doc self)) in
  let prev_e :=
    if preview_crop_range_only self
    then is_some (find_down (min_page self) (max_page self)
                            (Z.to_nat (current_page self)))
    else (0 <? current_page self)%Z in
  let next_e :=
    if preview_crop_range_only self
    then is_some (find_up (min_page self) (max_page self)
                          (current_page self + 1)
                          (Z.to_nat (page_count - (current_page self + 1))))
    else (current_page self <? page_count - 1)%Z in
  let restored :=
    if selection_bool (persistent_crop_rect self)
    then persistent_crop_rect self else view_crop_rect self in
  Some (mkWindow (doc self) (current_page self) (min_page self) (max_page self)
                 (preview_crop_range_only self) (persistent_crop_rect self)
                 restored (min_page_spinbox self) (max_page_spinbox self)
                 (rect page) in_range prev_e next_e).

(** [update_persistent_crop]. *)
Definition update_persistent_crop (self : Window) : Window :=
  if selection_bool (view_crop_rect self)
  then mkWindow (doc self) (current_page self) (min_page self) (max_page self)
                (preview_crop_range_only self) (view_crop_rect self)
                (view_crop_rect self) (min_page_spinbox self)
                (max_page_spinbox self) (page_rect self) (will_be_cropped self)
                (prev_enabled self) (next_enabled self)
  else self.

Definition prev_page (self : Window) : option Window :=
  let self := update_persistent_crop self in
  let moved :=
    if preview_crop_range_only self then
      if (0 <? current_page self)%Z then
        match find_down (min_page self) (max_page self)
                        (Z.to_nat (current_page self)) with
        | Some new_page => with_current_page self new_page
        | None => self
        end
      else self
    else
      if (0 <? current_page self)%Z
      then with_current_page self (current_page self - 1)
      else self in
  load_page moved.

Definition next_page (self : Window) : option Window :=
  let self := update_persistent_crop self in
  let page_count := Z.of_nat (length (doc self)) in
  let moved :=
    if preview_crop_range_only self then
      if (current_page self <? page_count - 1)%Z then
        match find_up (min_page self) (max_page self) (current_page self + 1)
                      (Z.to_nat (page_count - (current_page self + 1))) with
        | Some new_page => with_current_page self new_page
        | None => self
        end
      else self
    else
      if (current_page self <? page_count - 1)%Z
      then with_current_page self (current_page self + 1)
      else self in
  load_page moved.

Definition toggle_preview_mode (self : Window) : option Window :=
  let flag := negb (preview_crop_range_only self) in
  let current_page_num := (current_page self + 1)%Z in
  let target :=
    if flag then
      if negb (in_crop_range (min_page self) (max_page self) current_page_num)
      then (min_page self - 1)%Z else current_page self
    else current_page self in
  load_page (mkWindow (doc self) target (min_page self) (max_page self) flag
                      (persistent_crop_rect self) (view_crop_rect self)
                      (min_page_spinbox self) (max_page_spinbox self)
                      (page_rect self) (will_be_cropped self)
                      (prev_enabled self) (next_enabled self)).

(** Which spin box emitted [valueChanged]. *)
Inductive Sender : Type := MinSpin | MaxSpin.

(** [QSpinBox.setValue] on a spin box with range 1 .. len(doc). *)
Definition set_value (pages : list Page) (v : Z) : Z :=
  Z.max 1 (Z.min (Z.of_nat (length pages)) v).

(** [update_page_range]; the signal that [setValue] emits runs the same
    method once more on the values set here, and so leaves them as they
    are. *)
Definition update_page_range (self : Window) (sender : Sender) : option Window :=
  let lo := min_page_spinbox self in
  let hi := max_page_spinbox self in
  let '(lo', hi', lo_spin, hi_spin) :=
    if (hi <? lo)%Z then
      match sender with
      | MinSpin => (lo, lo, lo, set_value (doc self) lo)
      | MaxSpin => (hi, hi, set_value (doc self) hi, hi)
      end
    else (lo, hi, lo, hi) in
  load_page (mkWindow (doc self) (current_page self) lo' hi'
                      (preview_crop_range_only self) (persistent_crop_rect self)
                      (view_crop_rect self) lo_spin hi_spin
                      (page_rect self) (will_be_cropped self)
                      (prev_enabled self) (next_enabled self)).

(** *** Vocabulary and a sample window *)

(** The current page is a page of the document. *)
Definition on_a_page (self : Window) : Prop :=
  (0 <= current_page self < Z.of_nat (length (doc self)))%Z.

(** Ten pages, page 3 shown, crop range 5-7, preview mode on. *)
Definition sample_window : Window :=
  mkWindow PDFCropGUI.ten_pages 2 5 7 true None
           (Some (PDFCropGUI.mkQRectF 100 100 1000 1400)) 5 7
           (mkRect 0 0 600 800) false false true.

(** Where the next-page step goes, before the page is loaded. *)
Definition next_target (self : Window) : Z :=
  let page_count := Z.of_nat (length (doc self)) in
  if preview_crop_range_only self then
    if (current_page self <? page_count - 1)%Z then
      match find_up (min_page self) (max_page self) (current_page self + 1)
                    (Z.to_nat (page_count - (current_page self + 1))) with
      | Some p => p
      | None => current_page self
      end
    else current_page self
  else if (current_page self <? page_count - 1)%Z
       then (current_page self + 1)%Z else current_page self.

Definition prev_target (self : Window) : Z :=
  if preview_crop_range_only self then
    if (0 <? current_page self)%Z then
      match find_down (min_page self) (max_page self)
                      (Z.to_nat (current_page self)) with
      | Some p => p
      | None => current_page self
      end
    else current_page self
  else if (0 <? current_page self)%Z
       then (current_page self - 1)%Z else current_page self.

End Navigation.

(** ** [main]: validation of the command line *)

Module Cli.



Definition Qltb (a b : Q) : bool := if Qlt_le_dec a b then true else false.





End Cli.

(** * Properties *)

(** ** Indices returned by [np.where] *)

Lemma where_from_bounds (v : list bool) (k x : Z) :
  In x (where_from k v) -> (k <= x < k + Z.of_nat (length v))%Z.
Proof.
  revert k. induction v as [|b v IH]; intros k Hin; simpl in *.
  - contradiction.
  - destruct b.
    + destruct Hin as [<- | Hin]; [lia|]. apply IH in Hin. lia.
    + apply IH in Hin. lia.
Qed.

Lemma where_from_nonempty (v : list bool) (k : Z) :
  np_any v = true -> where_from k v <> [].
Proof.
  revert k. induction v as [|b v IH]; intros k H; simpl in *.
  - discriminate.
  - destruct b; [discriminate|]. apply IH. exact H.
Qed.

Lemma where_from_increasing (v : list bool) (k : Z) (i j : nat) (a b : Z) :
  nth_error (where_from k v) i = Some a ->
  nth_error (where_from k v) j = Some b ->
  (i < j)%nat -> (a < b)%Z.
Proof.
  revert k i j. induction v as [|c v IH]; intros k i j Ha Hb Hij; simpl in *.
  - destruct i; discriminate.
  - destruct c.
    + destruct j as [|j]; [lia|]. simpl in Hb.
      destruct i as [|i]; simpl in Ha.
      * injection Ha as <-. apply nth_error_In, where_from_bounds in Hb. lia.
      * apply (IH (k + 1)%Z i j); auto. lia.
    + apply (IH (k + 1)%Z i j); auto.
Qed.

Lemma where_from_content (v : list bool) (k x : Z) :
  In x (where_from k v) <-> (k <= x)%Z /\ nth_error v (Z.to_nat (x - k)) = Some true.
Proof.
  revert k. induction v as [|b v IH]; intros k; simpl.
  - split; [contradiction|]. intros [_ H]. destruct (Z.to_nat (x - k)); discriminate.
  - assert (Hstep : (k + 1 <= x)%Z ->
                    Z.to_nat (x - k) = S (Z.to_nat (x - (k + 1)))) by lia.
    destruct b; simpl; rewrite ?IH.
    + split.
      * intros [<- | [Hle H]].
        -- split; [lia|]. now replace (k - k)%Z with 0%Z by lia.
        -- split; [lia|]. rewrite Hstep by lia. exact H.
      * intros [Hle H]. destruct (Z.eq_dec k x) as [->|Hne]; [now left|right].
        split; [lia|]. rewrite Hstep in H by lia. exact H.
    + split.
      * intros [Hle H]. split; [lia|]. rewrite Hstep by lia. exact H.
      * intros [Hle H]. destruct (Z.eq_dec k x) as [->|Hne].
        -- replace (x - x)%Z with 0%Z in H by lia. discriminate.
        -- split; [lia|]. rewrite Hstep in H by lia. exact H.
Qed.

Lemma last_in (a : list Z) (d : Z) : a <> [] -> In (last a d) a.
Proof.
  induction a as [|x a IH]; intros H; [contradiction|].
  destruct a as [|y a]; [now left|]. right. apply IH. discriminate.
Qed.

Lemma last_nth_error (a : list Z) (d : Z) :
  a <> [] -> nth_error a (length a - 1) = Some (last a d).
Proof.
  induction a as [|x a IH]; intros H; [contradiction|].
  destruct a as [|y a]; [reflexivity|].
  assert (E : (length (x :: y :: a) - 1 = S (length (y :: a) - 1))%nat)
    by (simpl; lia).
  rewrite E. change (last (x :: y :: a) d) with (last (y :: a) d).
  cbn [nth_error]. apply IH. discriminate.
Qed.

Lemma last_default (a : list Z) (d d' : Z) : a <> [] -> last a d = last a d'.
Proof.
  induction a as [|x a IH]; intros H; [contradiction|].
  destruct a as [|y a]; [reflexivity|].
  change (last (y :: a) d = last (y :: a) d'). apply IH. discriminate.
Qed.

Lemma first_last_some (a : list Z) :
  a <> [] ->
  exists lo hi, first_last a = Some (lo, hi) /\ In lo a /\ In hi a
                /\ nth_error a 0 = Some lo /\ hi = last a 0%Z.
Proof.
  destruct a as [|f a]; intros H; [contradiction|].
  exists f, (last (f :: a) f). simpl first_last. repeat split.
  - now left.
  - apply last_in. discriminate.
  - apply last_default. discriminate.
Qed.

(** ** The gap loop and the footer block *)

Lemma scan_gaps_step (cr : list Z) (gt fs : Z) (i : nat) (d cur prev : Z) :
  nth_error cr (S i) = Some cur -> nth_error cr i = Some prev ->
  scan_gaps cr gt fs (S i) d =
    if (cur - prev >? gt)%Z && (cur >? fs)%Z then Some prev
    else scan_gaps cr gt fs i d.
Proof.
  intros Hc Hp. cbn [scan_gaps]. rewrite Hc, Hp. reflexivity.
Qed.

Lemma scan_gaps_total (cr : list Z) (gt fs : Z) (i : nat) (d : Z) :
  (i < length cr)%nat ->
  exists e, scan_gaps cr gt fs i d = Some e
            /\ (e = d \/ exists j, (j < i)%nat /\ nth_error cr j = Some e).
Proof.
  induction i as [|i IH]; intros Hi.
  - exists d. auto.
  - destruct (nth_error cr (S i)) as [cur|] eqn:Hc;
      [|apply nth_error_None in Hc; lia].
    destruct (nth_error cr i) as [prev|] eqn:Hp;
      [|apply nth_error_None in Hp; lia].
    rewrite (scan_gaps_step _ _ _ _ _ _ _ Hc Hp).
    destruct ((cur - prev >? gt)%Z && (cur >? fs)%Z).
    + exists prev. split; [reflexivity|]. right. exists i. split; [lia|exact Hp].
    + destruct IH as [e [He Hor]]; [lia|]. exists e. split; [exact He|].
      destruct Hor as [->|[j [Hj Hn]]]; [now left|]. right. exists j. split; [lia|exact Hn].
Qed.



Lemma footer_isolation_total (rows : list bool) (ratio : Q) (y_min y_max : Z) :
  np_where rows <> [] ->
  exists y, footer_isolation rows ratio y_min y_max = Some y /\ (y <= y_max)%Z.
Proof.
  intros Hne. unfold footer_isolation.
  destruct (np_any (slice_from _ rows)); [|exists y_max; split; [reflexivity|lia]].
  destruct (scan_gaps_total (np_where rows)
              (gap_threshold (length rows))
              (footer_start (length rows) ratio)
              (length (np_where rows) - 1) y_max) as [e [He _]].
  - destruct (np_where rows); [contradiction|simpl; lia].
  - rewrite He. simpl.
    destruct ((e <? y_max)%Z && (e >? y_min)%Z) eqn:Hg.
    + exists e. split; [reflexivity|]. apply andb_prop in Hg. lia.
    + exists y_max. split; [reflexivity|lia].
Qed.

(** ** Shape of the row and column vectors *)

Lemma any_axis1_length (img : GrayImage) (thr : Q) :
  length (any_axis1 img thr) = shape0 img.
Proof. unfold any_axis1. now rewrite length_map, length_seq. Qed.

Lemma any_axis0_length (img : GrayImage) (thr : Q) :
  length (any_axis0 img thr) = shape1 img.
Proof. unfold any_axis0. now rewrite length_map, length_seq. Qed.

Lemma content_mask_false (img : GrayImage) (thr : Q) (r c : nat) :
  ~ inject_Z (pixel img r c) < 255 * thr -> content_mask img thr r c = false.
Proof.
  intros H. unfold content_mask.
  destruct (Qlt_le_dec (inject_Z (pixel img r c)) (255 * thr)); [contradiction|reflexivity].
Qed.

Lemma blank_no_rows (page : Page) (thr : Q) :
  blank page thr -> np_any (any_axis1 (img_array page) thr) = false.
Proof.
  intros Hb. unfold np_any, any_axis1.
  apply not_true_is_false. intros H.
  apply existsb_exists in H. destruct H as [b [Hin ->]].
  apply in_map_iff in Hin. destruct Hin as [r [Hex Hr]].
  apply in_seq in Hr. apply existsb_exists in Hex.
  destruct Hex as [c [Hc Hm]]. apply in_seq in Hc.
  rewrite content_mask_false in Hm; [discriminate|]. apply Hb; lia.
Qed.

(** The detector returns on every page, and its box is made of pixel indices
    of the grid. *)
Lemma get_content_bbox_cases (page : Page) (thr ratio : Q) :
  get_content_bbox page thr ratio = Some (rect page)
  \/ exists x_min x_max y_min y_max,
       get_content_bbox page thr ratio =
         Some (mkRect (to_pdf (x0 (rect page)) x_min) (to_pdf (y0 (rect page)) y_min)
                      (to_pdf (x0 (rect page)) x_max) (to_pdf (y0 (rect page)) y_max))
       /\ (0 <= x_min)%Z /\ (0 <= y_min)%Z
       /\ (x_max < Z.of_nat (shape1 (img_array page)))%Z
       /\ (y_max < Z.of_nat (shape0 (img_array page)))%Z.
Proof.
  unfold get_content_bbox.
  destruct (np_any (any_axis1 (img_array page) thr)) eqn:Hr; [|now left].
  destruct (np_any (any_axis0 (img_array page) thr)) eqn:Hc; [|now left].
  right. simpl.
  pose proof (where_from_nonempty _ 0%Z Hr) as Hrne.
  pose proof (where_from_nonempty _ 0%Z Hc) as Hcne.
  destruct (first_last_some _ Hrne) as [y_min [y_max [Hy [Hy1 [Hy2 _]]]]].
  destruct (first_last_some _ Hcne) as [x_min [x_max [Hx [Hx1 [Hx2 _]]]]].
  destruct (footer_isolation_total _ ratio y_min y_max Hrne) as [y [Hf Hle]].
  unfold np_where in *. rewrite Hy, Hx. simpl. rewrite Hf. simpl.
  apply where_from_bounds in Hy1, Hy2, Hx1, Hx2.
  rewrite any_axis1_length in Hy2. rewrite any_axis0_length in Hx2.
  exists x_min, x_max, y_min, y. split; [reflexivity|]. lia.
Qed.

Lemma get_content_bbox_total (page : Page) (thr ratio : Q) :
  exists r, get_content_bbox page thr ratio = Some r.
Proof.
  destruct (get_content_bbox_cases page thr ratio)
    as [H | [a [b [c [d [H _]]]]]]; eauto.
Qed.

(** C8: on a page without a content pixel the detector returns exactly
    [page.rect]; and on every page, blank or not, it returns a rectangle
    rather than raising. *)
Theorem blank_page_returns_page_rect (page : Page) (threshold ratio : Q) :
  (exists r, get_content_bbox page threshold ratio = Some r)
  /\ (blank page threshold -> get_content_bbox page threshold ratio = Some (rect page)).
Proof.
  split.
  - apply get_content_bbox_total.
  - intros Hb. unfold get_content_bbox.
    rewrite (blank_no_rows page threshold Hb). reflexivity.
Qed.

Lemma to_pdf_lower (origin : Q) (px : Z) : (0 <= px)%Z -> origin <= to_pdf origin px.
Proof.
  intros H. unfold to_pdf.
  assert (0 <= inject_Z px) by (change 0 with (inject_Z 0); now rewrite <- Zle_Qle).
  assert (0 <= inject_Z px / 2) by (apply Qle_shift_div_l; lra).
  lra.
Qed.

Lemma to_pdf_upper (origin far : Q) (px : Z) (n : nat) :
  (px < Z.of_nat n)%Z -> inject_Z (Z.of_nat n) <= 2 * (far - origin) + 1 ->
  to_pdf origin px <= far.
Proof.
  intros Hpx Hn. unfold to_pdf.
  assert (Hq : inject_Z px + 1 <= inject_Z (Z.of_nat n)).
  { change 1 with (inject_Z 1). rewrite <- inject_Z_plus, <- Zle_Qle. lia. }
  assert (inject_Z px / 2 <= far - origin) by (apply Qle_shift_div_r; lra).
  lra.
Qed.

(** C1: on a rendered page the detected box lies inside [page.rect], for
    every threshold and footer ratio. *)
Theorem content_bbox_within_page (page : Page) (threshold ratio : Q) :
  rendered_at_2x page ->
  exists r, get_content_bbox page threshold ratio = Some r
            /\ x0 (rect page) <= x0 r /\ y0 (rect page) <= y0 r
            /\ x1 r <= x1 (rect page) /\ y1 r <= y1 (rect page).
Proof.
  intros [Hw Hh].
  destruct (get_content_bbox_cases page threshold ratio)
    as [H | [x_min [x_max [y_min [y_max [H [Hx0 [Hy0 [Hx1 Hy1]]]]]]]]].
  - exists (rect page). split; [exact H|]. repeat split; apply Qle_refl.
  - eexists. split; [exact H|]. simpl. repeat split.
    + now apply to_pdf_lower.
    + now apply to_pdf_lower.
    + now apply (to_pdf_upper _ _ _ (shape1 (img_array page))).
    + now apply (to_pdf_upper _ _ _ (shape0 (img_array page))).
Qed.

(** ** Footer isolation *)



Lemma any_axis1_content (img : GrayImage) (thr : Q) :
  np_any (any_axis1 img thr) = true <->
  exists r c, (r < shape0 img)%nat /\ (c < shape1 img)%nat
              /\ content_mask img thr r c = true.
Proof.
  unfold np_any, any_axis1. rewrite existsb_exists. split.
  - intros [b [Hin ->]]. apply in_map_iff in Hin. destruct Hin as [r [Hex Hr]].
    apply in_seq in Hr. apply existsb_exists in Hex. destruct Hex as [c [Hc Hm]].
    apply in_seq in Hc. exists r, c. repeat split; try lia. exact Hm.
  - intros [r [c [Hr [Hc Hm]]]]. exists true. split; [|reflexivity].
    apply in_map_iff. exists r. split; [|apply in_seq; lia].
    apply existsb_exists. exists c. split; [apply in_seq; lia|exact Hm].
Qed.

Lemma any_axis0_content (img : GrayImage) (thr : Q) :
  np_any (any_axis0 img thr) = true <->
  exists r c, (r < shape0 img)%nat /\ (c < shape1 img)%nat
              /\ content_mask img thr r c = true.
Proof.
  unfold np_any, any_axis0. rewrite existsb_exists. split.
  - intros [b [Hin ->]]. apply in_map_iff in Hin. destruct Hin as [c [Hex Hc]].
    apply in_seq in Hc. apply existsb_exists in Hex. destruct Hex as [r [Hr Hm]].
    apply in_seq in Hr. exists r, c. repeat split; try lia. exact Hm.
  - intros [r [c [Hr [Hc Hm]]]]. exists true. split; [|reflexivity].
    apply in_map_iff. exists c. split; [|apply in_seq; lia].
    apply existsb_exists. exists r. split; [apply in_seq; lia|exact Hm].
Qed.

(** A row index is in [content_rows] exactly when that pixel row holds a
    content pixel. *)
Lemma content_rows_spec (img : GrayImage) (thr : Q) (y : Z) :
  In y (np_where (any_axis1 img thr)) <->
  (0 <= y < Z.of_nat (shape0 img))%Z
  /\ exists c, (c < shape1 img)%nat /\ content_mask img thr (Z.to_nat y) c = true.
Proof.
  unfold np_where. rewrite where_from_content. rewrite Z.sub_0_r.
  unfold any_axis1. split.
  - intros [Hy Hn]. assert (Hlt : (Z.to_nat y < shape0 img)%nat).
    { assert (Hs : nth_error (map (fun r => existsb (fun c => content_mask img thr r c)
                                     (seq 0 (shape1 img))) (seq 0 (shape0 img)))
                             (Z.to_nat y) <> None) by (rewrite Hn; discriminate).
      apply nth_error_Some in Hs. now rewrite length_map, length_seq in Hs. }
    split; [lia|]. rewrite nth_error_map, nth_error_seq in Hn.
    destruct (Nat.ltb_spec (Z.to_nat y) (shape0 img)); [|lia]. simpl in Hn.
    injection Hn as Hn. apply existsb_exists in Hn. destruct Hn as [c [Hc Hm]].
    apply in_seq in Hc. exists c. split; [lia|exact Hm].
  - intros [Hy [c [Hc Hm]]]. split; [lia|].
    rewrite nth_error_map, nth_error_seq.
    destruct (Nat.ltb_spec (Z.to_nat y) (shape0 img)); [|lia]. simpl. f_equal.
    apply existsb_exists. exists c. split; [apply in_seq; lia|exact Hm].
Qed.

Section FooterBlock.

Variable rows : list bool.
Variable ratio : Q.
Variables y_min y_max : Z.

Let cr := np_where rows.
Let fs := footer_start (length rows) ratio.
Let gt := gap_threshold (length rows).

Hypothesis band : np_any (slice_from fs rows) = true.
Hypothesis top_row : nth_error cr 0 = Some y_min.
Hypothesis bottom_row : y_max = last cr 0%Z.



End FooterBlock.




(** A footer mark on row [footer_start] itself passes the band test but not
    the loop's test [content_rows[i] > footer_start]: it is kept. *)
Example footer_on_band_edge_kept :
  footer_start 50 (1 # 10) = 45%Z
  /\ exists r, get_content_bbox band_edge_page (95 # 100) (1 # 10) = Some r
               /\ y1 r == to_pdf 0 45.
Proof.
  split; [reflexivity|]. eexists. split; [vm_compute; reflexivity|]. reflexivity.
Qed.

(** The detector on the sample page: columns 2-5 and rows 10-12 remain once
    the footer mark is cut off, i.e. the box (1, 5)-(5/2, 6). *)
Example detector_on_body_footer_page :
  exists r, get_content_bbox body_footer_page (95 # 100) (1 # 10) = Some r
            /\ x0 r == 1 /\ y0 r == 5 /\ x1 r == 5 # 2 /\ y1 r == 6.
Proof.
  eexists. split; [vm_compute; reflexivity|]. cbn [x0 y0 x1 y1].
  split; [reflexivity|]. split; [reflexivity|]. split; reflexivity.
Qed.

(** Scenario B: footer band from row 900, gap threshold 20; the box ends at
    row 700 (y = 350) and the mark on row 950 is left out. *)
Example scenario_b :
  footer_start 1000 (1 # 10) = 900%Z /\ gap_threshold 1000 = 20%Z
  /\ exists r, get_content_bbox scenario_b_page (95 # 100) (1 # 10) = Some r
               /\ y0 r == 50 /\ y1 r == 350.
Proof.
  split; [reflexivity|]. split; [reflexivity|].
  eexists. split; [vm_compute; reflexivity|]. cbn [y0 y1].
  split; reflexivity.
Qed.

Lemma blank_page_returns_page_rect_witness :
  blank blank_page (95 # 100)
  /\ get_content_bbox blank_page (95 # 100) (1 # 10) = Some (rect blank_page).
Proof.
  assert (Hb : blank blank_page (95 # 100)).
  { intros r c _ _. simpl. unfold Qlt. simpl. lia. }
  split; [exact Hb|].
  exact (proj2 (blank_page_returns_page_rect blank_page (95 # 100) (1 # 10)) Hb).
Defined.

Lemma content_bbox_within_page_witness :
  rendered_at_2x body_footer_page
  /\ exists r, get_content_bbox body_footer_page (95 # 100) (1 # 10) = Some r
               /\ x0 (rect body_footer_page) <= x0 r
               /\ y0 (rect body_footer_page) <= y0 r
               /\ x1 r <= x1 (rect body_footer_page)
               /\ y1 r <= y1 (rect body_footer_page).
Proof.
  assert (Hr : rendered_at_2x body_footer_page).
  { split; unfold Qle; simpl; lia. }
  split; [exact Hr|].
  exact (content_bbox_within_page body_footer_page (95 # 100) (1 # 10) Hr).
Defined.

(** ** The aggregator *)

Lemma pydiv_some (a b : Q) : ~ b == 0 -> pydiv a b = Some (a / b).
Proof.
  intros H. unfold pydiv. destruct (Qeq_bool b 0) eqn:E; [|reflexivity].
  apply Qeq_bool_iff in E. contradiction.
Qed.

Lemma py_max_lower (a b : Q) : a <= py_max a b.
Proof. unfold py_max. destruct (Qlt_le_dec a b); lra. Qed.

Lemma py_max_upper (a b c : Q) : a <= c -> b <= c -> py_max a b <= c.
Proof. unfold py_max. destruct (Qlt_le_dec a b); auto. Qed.

Lemma py_max_lt (a b c : Q) : a < c -> b < c -> py_max a b < c.
Proof. unfold py_max. destruct (Qlt_le_dec a b); auto. Qed.

Lemma insert_sorted_in (x y : Q) (l : list Q) :
  In y (insert_sorted x l) -> y = x \/ In y l.
Proof.
  induction l as [|z l IH]; simpl.
  - intros [<-|[]]. now left.
  - destruct (Qle_bool x z); simpl.
    + intros [<-|H]; auto.
    + intros [<-|H]; auto. destruct (IH H); auto.
Qed.

Lemma insert_sorted_length (x : Q) (l : list Q) :
  length (insert_sorted x l) = S (length l).
Proof.
  induction l as [|z l IH]; simpl; [reflexivity|].
  destruct (Qle_bool x z); simpl; [reflexivity|]. now rewrite IH.
Qed.

Lemma np_sort_in (a : list Q) (y : Q) : In y (np_sort a) -> In y a.
Proof.
  induction a as [|x a IH]; simpl; [auto|].
  intros H. apply insert_sorted_in in H. destruct H as [->|H]; auto.
Qed.

Lemma np_sort_length (a : list Q) : length (np_sort a) = length a.
Proof.
  induction a as [|x a IH]; simpl; [reflexivity|].
  now rewrite insert_sorted_length, IH.
Qed.

(** On a non-empty array the percentile is an interpolation, with a weight
    in [0, 1), between two of its entries. *)
Lemma np_percentile_some (a : list Q) (q : Q) :
  a <> [] -> 0 <= q / 100 -> q / 100 <= 1 ->
  exists lo hi gamma,
    np_percentile a q = Some (lo + (hi - lo) * gamma)
    /\ In lo a /\ In hi a /\ 0 <= gamma /\ gamma < 1.
Proof.
  intros Hne Hq0 Hq1. unfold np_percentile.
  set (n := Z.of_nat (length a)).
  set (v := inject_Z (n - 1) * (q / 100)).
  assert (Hn : (1 <= n)%Z) by (destruct a; [contradiction|unfold n; simpl; lia]).
  assert (Hn1 : 0 <= inject_Z (n - 1))
    by (change 0 with (inject_Z 0); rewrite <- Zle_Qle; lia).
  assert (Hv0 : 0 <= v) by (unfold v; nra).
  assert (Hv1 : v <= inject_Z (n - 1)) by (unfold v; nra).
  pose proof (Qfloor_le v) as Hfl. pose proof (Qlt_floor v) as Hfu.
  assert (Hp0 : (0 <= Qfloor v)%Z).
  { change 0%Z with (Qfloor 0). now apply Qfloor_resp_le. }
  assert (Hp1 : (Qfloor v <= n - 1)%Z).
  { rewrite <- (Qfloor_Z (n - 1)). now apply Qfloor_resp_le. }
  destruct (Z.ltb_spec (Qfloor v) 0); [lia|].
  destruct (nth_error (np_sort a) (Z.to_nat (Qfloor v))) as [lo|] eqn:Hlo.
  2:{ apply nth_error_None in Hlo. rewrite np_sort_length in Hlo. lia. }
  destruct (nth_error (np_sort a) (Z.to_nat (Z.min (Qfloor v + 1) (n - 1))))
    as [hi|] eqn:Hhi.
  2:{ apply nth_error_None in Hhi. rewrite np_sort_length in Hhi. lia. }
  exists lo, hi, (v - inject_Z (Qfloor v)). split; [reflexivity|].
  split; [apply np_sort_in; eapply nth_error_In; eauto|].
  split; [apply np_sort_in; eapply nth_error_In; eauto|].
  rewrite inject_Z_plus in Hfu. change (inject_Z 1) with 1 in Hfu.
  split; lra.
Qed.

Lemma quarter_is_fraction : 0 <= 25 / 100 /\ 25 / 100 <= 1.
Proof. split; unfold Qle; simpl; lia. Qed.

(** The 25th percentile stays between any two bounds of the data. *)
Lemma np_percentile_bounds (a : list Q) (lb ub : Q) :
  a <> [] -> (forall x, In x a -> lb <= x /\ x <= ub) ->
  exists p, np_percentile a 25 = Some p /\ lb <= p /\ p <= ub.
Proof.
  intros Hne Hall.
  destruct (np_percentile_some a 25 Hne (proj1 quarter_is_fraction)
              (proj2 quarter_is_fraction))
    as [lo [hi [g [Hp [Hlo [Hhi [Hg0 Hg1]]]]]]].
  exists (lo + (hi - lo) * g). split; [exact Hp|].
  destruct (Hall lo Hlo) as [L1 L2]. destruct (Hall hi Hhi) as [H1 H2].
  split; nra.
Qed.

Lemma np_percentile_nonempty (a : list Q) (p : Q) :
  np_percentile a 25 = Some p -> a <> [].
Proof.
  intros H ->. discriminate.
Qed.

(** The loop appends, sample by sample, the four clamped raw fractions. *)
Lemma margin_loop_maps (pairs : list PageSample) (acc : MarginLists) :
  (forall s, In s pairs -> usable_page s) ->
  margin_loop pairs acc =
    Some (mkLists (left_margins acc ++ clamped raw_left pairs)
                  (top_margins acc ++ clamped raw_top pairs)
                  (right_margins acc ++ clamped raw_right pairs)
                  (bottom_margins acc ++ clamped raw_bottom pairs)).
Proof.
  revert acc. induction pairs as [|[box page] rest IH]; intros acc Hok.
  - simpl. rewrite !app_nil_r. now destruct acc.
  - destruct (Hok (box, page) (or_introl eq_refl)) as [Hw Hh]. simpl in Hw, Hh.
    cbn [margin_loop]. rewrite !pydiv_some by assumption. cbn [bind].
    rewrite IH by (intros s Hs; apply Hok; now right).
    cbn [left_margins top_margins right_margins bottom_margins clamped map].
    rewrite <- !app_assoc. reflexivity.
Qed.

Lemma combine_fst_snd {A B : Type} (l : list (A * B)) :
  combine (map fst l) (map snd l) = l.
Proof.
  induction l as [|[a b] l IH]; simpl; [reflexivity|]. now rewrite IH.
Qed.

(** The aggregator in terms of the four percentiles. *)
Lemma aggregate_margins_unfold (samples : list PageSample) (buffer : Q) :
  (forall s, In s samples -> usable_page s) ->
  aggregate_margins (map fst samples) (map snd samples) buffer =
    (l <- spec_edge raw_left samples buffer ;;
     t <- spec_edge raw_top samples buffer ;;
     r <- spec_edge raw_right samples buffer ;;
     b <- spec_edge raw_bottom samples buffer ;;
     Some (mkMargins l t r b)).
Proof.
  intros Hok. unfold aggregate_margins. rewrite combine_fst_snd.
  rewrite (margin_loop_maps samples _ Hok). cbn [bind].
  cbn [left_margins top_margins right_margins bottom_margins app].
  unfold spec_edge. fold (clamped raw_left samples) (clamped raw_top samples)
    (clamped raw_right samples) (clamped raw_bottom samples).
  destruct (np_percentile (clamped raw_left samples) 25); [|reflexivity].
  cbn [bind].
  destruct (np_percentile (clamped raw_top samples) 25); [|reflexivity].
  cbn [bind].
  destruct (np_percentile (clamped raw_right samples) 25); [|reflexivity].
  cbn [bind].
  destruct (np_percentile (clamped raw_bottom samples) 25); reflexivity.
Qed.

Lemma spec_edge_some (raw : PageSample -> Q) (samples : list PageSample) (buffer : Q) :
  samples <> [] -> exists v, spec_edge raw samples buffer = Some v.
Proof.
  intros Hne. unfold spec_edge.
  destruct (np_percentile_some (map (fun s => py_max 0 (raw s)) samples) 25)
    as [lo [hi [g [Hp _]]]].
  - destruct samples; [contradiction|discriminate].
  - apply quarter_is_fraction.
  - apply quarter_is_fraction.
  - rewrite Hp. cbn [bind]. eauto.
Qed.




(** The interpolation numpy performs: a quarter of the way from the first to
    the second of five sorted values, and the value 0.1 when nine samples of
    0.1 come with one blank page. *)
Example np_percentile_five :
  exists p, np_percentile [5 # 10; 1 # 10; 4 # 10; 2 # 10; 3 # 10] 25 = Some p
            /\ p == 2 # 10.
Proof. eexists. split; [vm_compute; reflexivity|reflexivity]. Qed.

Example np_percentile_scenario_a :
  exists p, np_percentile (0 :: repeat (1 # 10) 9) 25 = Some p /\ p == 1 # 10.
Proof. eexists. split; [vm_compute; reflexivity|reflexivity]. Qed.

(** ** Range of the aggregated margins *)

Lemma width_positive (r : Rect) : x0 r < x1 r -> width r = x1 r - x0 r.
Proof.
  intros H. unfold width, py_max.
  destruct (Qlt_le_dec 0 (x1 r - x0 r)); [reflexivity|lra].
Qed.

Lemma height_positive (r : Rect) : y0 r < y1 r -> height r = y1 r - y0 r.
Proof.
  intros H. unfold height, py_max.
  destruct (Qlt_le_dec 0 (y1 r - y0 r)); [reflexivity|lra].
Qed.

Lemma box_within_page_usable (s : PageSample) : box_within_page s -> usable_page s.
Proof.
  intros [Hx [Hy _]]. split.
  - rewrite (width_positive _ Hx). lra.
  - rewrite (height_positive _ Hy). lra.
Qed.

Lemma fraction_at_most_one (a b : Q) : 0 < b -> a <= b -> a / b <= 1.
Proof. intros Hb Hab. apply Qle_shift_div_r; lra. Qed.

Lemma box_within_page_raw (s : PageSample) :
  box_within_page s ->
  raw_left s <= 1 /\ raw_top s <= 1 /\ raw_right s <= 1 /\ raw_bottom s <= 1.
Proof.
  intros [Hx [Hy [A [B [C [D [E F]]]]]]].
  unfold raw_left, raw_top, raw_right, raw_bottom.
  rewrite (width_positive _ Hx), (height_positive _ Hy).
  repeat split; apply fraction_at_most_one; lra.
Qed.

Lemma spec_edge_nonneg (raw : PageSample -> Q) (samples : list PageSample)
      (buffer v : Q) :
  spec_edge raw samples buffer = Some v -> 0 <= v.
Proof.
  unfold spec_edge. destruct (np_percentile _ 25); [|discriminate].
  cbn [bind]. intros H. injection H as <-. apply py_max_lower.
Qed.

Lemma spec_edge_range (raw : PageSample -> Q) (samples : list PageSample) (buffer : Q) :
  samples <> [] -> 0 <= buffer ->
  (forall s, In s samples -> raw s <= 1) ->
  exists v, spec_edge raw samples buffer = Some v
            /\ 0 <= v /\ v <= 1 /\ (0 < buffer -> v < 1).
Proof.
  intros Hne Hb Hraw. unfold spec_edge.
  destruct (np_percentile_bounds (map (fun s => py_max 0 (raw s)) samples) 0 1)
    as [p [Hp [Hp0 Hp1]]].
  - destruct samples; [contradiction|discriminate].
  - intros x Hx. apply in_map_iff in Hx. destruct Hx as [s [<- Hs]].
    split; [apply py_max_lower|]. apply py_max_upper; [lra|now apply Hraw].
  - rewrite Hp. cbn [bind]. eexists. split; [reflexivity|].
    split; [apply py_max_lower|]. split.
    + apply py_max_upper; lra.
    + intros Hpos. apply py_max_lt; lra.
Qed.




(** ** The uniform canvas *)

Lemma first_pass_bounds (doc : list Page) (m : MarginSet) (w0 h0 : Q) :
  w0 <= fst (first_pass doc m w0 h0)
  /\ h0 <= snd (first_pass doc m w0 h0)
  /\ (forall page, In page doc ->
        cropped_width (rect page) m <= fst (first_pass doc m w0 h0)
        /\ cropped_height (rect page) m <= snd (first_pass doc m w0 h0)).
Proof.
  revert w0 h0. induction doc as [|p doc IH]; intros w0 h0; cbn [first_pass].
  - simpl. split; [lra|]. split; [lra|]. intros page [].
  - destruct (IH (py_max w0 (cropped_width (rect p) m))
                 (py_max h0 (cropped_height (rect p) m))) as [Hw [Hh Hall]].
    pose proof (py_max_lower w0 (cropped_width (rect p) m)).
    pose proof (py_max_lower h0 (cropped_height (rect p) m)).
    assert (cropped_width (rect p) m <= py_max w0 (cropped_width (rect p) m))
      by (unfold py_max; destruct (Qlt_le_dec _ _); lra).
    assert (cropped_height (rect p) m <= py_max h0 (cropped_height (rect p) m))
      by (unfold py_max; destruct (Qlt_le_dec _ _); lra).
    split; [lra|]. split; [lra|].
    intros page [<-|Hin]; [split; lra|now apply Hall].
Qed.

(** The running maximum is its start value or the cropped size of a page. *)
Lemma first_pass_achieved (doc : list Page) (m : MarginSet) (w0 h0 : Q) :
  (fst (first_pass doc m w0 h0) = w0
   \/ exists page, In page doc
                   /\ cropped_width (rect page) m = fst (first_pass doc m w0 h0))
  /\ (snd (first_pass doc m w0 h0) = h0
      \/ exists page, In page doc
                      /\ cropped_height (rect page) m = snd (first_pass doc m w0 h0)).
Proof.
  revert w0 h0. induction doc as [|p doc IH]; intros w0 h0; cbn [first_pass].
  - simpl. auto.
  - destruct (IH (py_max w0 (cropped_width (rect p) m))
                 (py_max h0 (cropped_height (rect p) m))) as [Hw Hh].
    split.
    + destruct Hw as [Hw|[page [Hin Hw]]].
      * rewrite Hw. unfold py_max. destruct (Qlt_le_dec _ _); [right|now left].
        exists p. split; [now left|reflexivity].
      * right. exists page. split; [now right|exact Hw].
    + destruct Hh as [Hh|[page [Hin Hh]]].
      * rewrite Hh. unfold py_max. destruct (Qlt_le_dec _ _); [right|now left].
        exists p. split; [now left|reflexivity].
      * right. exists page. split; [now right|exact Hh].
Qed.

(** C4 (as amended): the canvas width is the largest of 0 and the per-page
    cropped widths: it is never negative, never smaller than the cropped
    width of any page, and equal to the cropped width of at least one page
    as soon as some page has a cropped width >= 0 (it is 0 otherwise); the
    same holds for the height. *)
Theorem canvas_is_largest_cropped_size (doc : list Page) (m : MarginSet) :
  let max_width := fst (first_pass doc m 0 0) in
  let max_height := snd (first_pass doc m 0 0) in
  (0 <= max_width /\ 0 <= max_height)
  /\ (forall page, In page doc ->
        cropped_width (rect page) m <= max_width
        /\ cropped_height (rect page) m <= max_height)
  /\ (max_width = 0
      \/ exists page, In page doc /\ cropped_width (rect page) m = max_width)
  /\ (max_height = 0
      \/ exists page, In page doc /\ cropped_height (rect page) m = max_height)
  /\ ((exists page, In page doc /\ 0 <= cropped_width (rect page) m) ->
      exists page, In page doc /\ cropped_width (rect page) m == max_width)
  /\ ((exists page, In page doc /\ 0 <= cropped_height (rect page) m) ->
      exists page, In page doc /\ cropped_height (rect page) m == max_height).
Proof.
  intros max_width max_height.
  destruct (first_pass_bounds doc m 0 0) as [Hw [Hh Hall]].
  destruct (first_pass_achieved doc m 0 0) as [Aw Ah].
  fold max_width in Hw, Hall, Aw. fold max_height in Hh, Hall, Ah.
  split; [split; assumption|]. split; [exact Hall|].
  split; [exact Aw|]. split; [exact Ah|]. split.
  - intros [page [Hin Hpos]]. destruct Aw as [E|[q [Hq E]]].
    + exists page. split; [exact Hin|]. destruct (Hall page Hin) as [Hle _].
      rewrite E in *. lra.
    + exists q. split; [exact Hq|]. now rewrite E.
  - intros [page [Hin Hpos]]. destruct Ah as [E|[q [Hq E]]].
    + exists page. split; [exact Hin|]. destruct (Hall page Hin) as [_ Hle].
      rewrite E in *. lra.
    + exists q. split; [exact Hq|]. now rewrite E.
Qed.

Lemma canvas_is_largest_cropped_size_witness :
  In letter_page mixed_doc
  /\ cropped_width (rect letter_page) tenth_margins
     <= fst (first_pass mixed_doc tenth_margins 0 0)
  /\ (exists page, In page mixed_doc
                   /\ cropped_width (rect page) tenth_margins
                      == fst (first_pass mixed_doc tenth_margins 0 0))
  /\ fst (first_pass mixed_doc tenth_margins 0 0) == 480
  /\ snd (first_pass mixed_doc tenth_margins 0 0) == 640.
Proof.
  assert (Hin : In letter_page mixed_doc) by (left; reflexivity).
  destruct (canvas_is_largest_cropped_size mixed_doc tenth_margins)
    as [_ [Hall [_ [_ [Hw _]]]]].
  split; [exact Hin|]. split; [exact (proj1 (Hall letter_page Hin))|].
  split.
  - apply Hw. exists letter_page. split; [exact Hin|].
    unfold Qle. vm_compute. discriminate.
  - split; reflexivity.
Defined.

(** With 60% cut on the left and on the right the only page has a cropped
    width of -120, the canvas width is 0, and no page has that width. *)
Lemma canvas_not_a_cropped_width :
  fst (first_pass one_page_doc wide_margins 0 0) == 0
  /\ cropped_width (rect letter_page) wide_margins == - (120)
  /\ ~ (exists page, In page one_page_doc
                     /\ cropped_width (rect page) wide_margins
                        == fst (first_pass one_page_doc wide_margins 0 0)).
Proof.
  split; [reflexivity|]. split; [reflexivity|].
  intros [page [[<-|[]] H]]. vm_compute in H. discriminate.
Qed.

(** ** The per-page transform *)

Lemma width_nonneg (r : Rect) : 0 <= width r.
Proof. apply py_max_lower. Qed.

Lemma height_nonneg (r : Rect) : 0 <= height r.
Proof. apply py_max_lower. Qed.

(** [Rect.width] of the crop rectangle is the first-pass width clamped at 0. *)
Lemma width_crop_box (page_rect : Rect) (m : MarginSet) :
  width (crop_box page_rect m) = py_max 0 (cropped_width page_rect m).
Proof. reflexivity. Qed.

Lemma height_crop_box (page_rect : Rect) (m : MarginSet) :
  height (crop_box page_rect m) = py_max 0 (cropped_height page_rect m).
Proof. reflexivity. Qed.

(** The division of [scale_along] is only reached with a positive divisor. *)
Lemma scale_along_cases (max_dim cropped_dim : Q) :
  (0 < cropped_dim /\ scale_along max_dim cropped_dim = Some (max_dim / cropped_dim))
  \/ (cropped_dim <= 0 /\ scale_along max_dim cropped_dim = Some 1).
Proof.
  unfold scale_along. destruct (Qlt_le_dec 0 cropped_dim) as [Hpos|Hle].
  - left. split; [exact Hpos|]. apply pydiv_some. lra.
  - right. split; [exact Hle|reflexivity].
Qed.

Lemma pydiv_two (a : Q) : pydiv a 2 = Some (a / 2).
Proof. reflexivity. Qed.

(** The transform is produced for every page, margin set and canvas. *)
Lemma page_transform_total (page_rect : Rect) (m : MarginSet) (W H : Q) :
  exists sx sy,
    scale_along W (width (crop_box page_rect m)) = Some sx
    /\ scale_along H (height (crop_box page_rect m)) = Some sy
    /\ page_transform page_rect m W H =
         let cw := width (crop_box page_rect m) in
         let ch := height (crop_box page_rect m) in
         let s := py_min sx sy in
         Some (mkTransform sx sy s ((W - cw * s) / 2) ((H - ch * s) / 2)
                 (crop_box page_rect m)
                 (mkRect ((W - cw * s) / 2) ((H - ch * s) / 2)
                         ((W - cw * s) / 2 + cw * s)
                         ((H - ch * s) / 2 + ch * s))).
Proof.
  unfold page_transform.
  destruct (scale_along_cases W (width (crop_box page_rect m))) as [[_ Hx]|[_ Hx]];
    destruct (scale_along_cases H (height (crop_box page_rect m))) as [[_ Hy]|[_ Hy]];
    rewrite Hx, Hy; cbn [bind]; rewrite !pydiv_two; cbn [bind];
    eexists; eexists; repeat split.
Qed.



(** A scale factor never exceeds what the canvas allows, and is never
    negative, when the canvas bounds the cropped dimension. *)
Lemma scale_along_fits (max_dim cropped_dim s : Q) :
  0 <= max_dim -> 0 <= cropped_dim -> cropped_dim <= max_dim ->
  scale_along max_dim cropped_dim = Some s ->
  1 <= s /\ cropped_dim * s <= max_dim
  /\ (0 < cropped_dim -> cropped_dim * s == max_dim).
Proof.
  intros Hm Hc Hle Hs.
  destruct (scale_along_cases max_dim cropped_dim) as [[Hpos E]|[Hneg E]];
    rewrite E in Hs; injection Hs as <-.
  - assert (Hmul : cropped_dim * (max_dim / cropped_dim) == max_dim)
      by (field; lra).
    split; [apply Qle_shift_div_l; lra|]. split; [lra|]. intros _. exact Hmul.
  - split; [lra|]. split; [lra|]. intros Hpos. lra.
Qed.

Lemma py_min_cases (a b : Q) :
  (py_min a b = a /\ a <= b) \/ (py_min a b = b /\ b < a).
Proof. unfold py_min. destruct (Qlt_le_dec b a); auto. Qed.




(** The second page of the mixed document is scaled by 4/3 and centred:
    its target is (80/3, 0)-(1360/3, 640) in the 480 x 640 canvas. *)
Example small_page_target :
  exists t, page_transform (rect small_page) tenth_margins 480 640 = Some t
            /\ scale t == 4 # 3
            /\ x0 (target_rect t) == 80 # 3 /\ y0 (target_rect t) == 0
            /\ x1 (target_rect t) == 1360 # 3 /\ y1 (target_rect t) == 640.
Proof.
  eexists. split; [vm_compute; reflexivity|]. cbn [scale target_rect x0 y0 x1 y1].
  split; [reflexivity|]. split; [reflexivity|]. split; [reflexivity|].
  split; reflexivity.
Qed.

(** ** The analysis returns on documents with pages of positive size *)


Lemma map_fst_combine {A B : Type} (l : list A) (l' : list B) :
  length l = length l' -> map fst (combine l l') = l /\ map snd (combine l l') = l'.
Proof.
  revert l'. induction l as [|a l IH]; intros [|b l'] H; try discriminate.
  - auto.
  - cbn [combine map fst snd]. injection H as H. destruct (IH l' H) as [-> ->]. auto.
Qed.



(** ** One output page per input page *)

Lemma show_pdf_page_on_new (out : list OutPage) (w h : Q) (p : Paste) :
  show_pdf_page (out ++ [NewPage w h []]) (length out) p = out ++ [NewPage w h [p]].
Proof.
  induction out as [|pg out IH]; [reflexivity|].
  cbn [app length]. destruct pg; cbn [show_pdf_page]; now rewrite IH.
Qed.




(** ** The explicit-rectangle mode *)

Module ManualCrop.

Import PDFCropGUI.

Lemma size_eqb_eq (a b : Size) : size_eqb a b = true <-> a = b.
Proof.
  destruct a as [a1 a2], b as [b1 b2]. unfold size_eqb. cbn [fst snd].
  rewrite andb_true_iff, !Z.eqb_eq. split.
  - intros [-> ->]. reflexivity.
  - intros E. injection E as -> ->. auto.
Qed.

Lemma size_eqb_refl (a : Size) : size_eqb a a = true.
Proof. now apply size_eqb_eq. Qed.

Lemma size_eqb_sym (a b : Size) : size_eqb a b = size_eqb b a.
Proof.
  destruct (size_eqb a b) eqn:E1, (size_eqb b a) eqn:E2; auto.
  - apply size_eqb_eq in E1. subst. now rewrite size_eqb_refl in E2.
  - apply size_eqb_eq in E2. subst. now rewrite size_eqb_refl in E1.
Qed.

(** *** The counter counts occurrences *)

Lemma counter_get_add_same (k : Size) (c : list (Size * nat)) :
  counter_get k (counter_add k c) = S (counter_get k c).
Proof.
  induction c as [|[k' n] c IH]; cbn [counter_add counter_get].
  - now rewrite size_eqb_refl.
  - destruct (size_eqb k k') eqn:E; cbn [counter_get]; rewrite E; auto.
Qed.

Lemma counter_get_add_other (k k' : Size) (c : list (Size * nat)) :
  size_eqb k' k = false ->
  counter_get k' (counter_add k c) = counter_get k' c.
Proof.
  intros Hne. induction c as [|[k0 n] c IH]; cbn [counter_add counter_get].
  - now rewrite Hne.
  - destruct (size_eqb k k0) eqn:E; cbn [counter_get].
    + apply size_eqb_eq in E. subst k0. now rewrite Hne.
    + now rewrite IH.
Qed.

Lemma times_seen_app (k : Size) (l : list Size) (x : Size) :
  times_seen k (l ++ [x]) =
    (times_seen k l + if size_eqb k x then 1 else 0)%nat.
Proof.
  unfold times_seen. rewrite filter_app, length_app. cbn [filter].
  now destruct (size_eqb k x).
Qed.

Lemma Counter_app (l : list Size) (x : Size) :
  Counter (l ++ [x]) = counter_add x (Counter l).
Proof. unfold Counter. now rewrite fold_left_app. Qed.

Lemma counter_get_Counter (k : Size) (l : list Size) :
  counter_get k (Counter l) = times_seen k l.
Proof.
  induction l as [|x l IH] using rev_ind; [reflexivity|].
  rewrite Counter_app, times_seen_app.
  destruct (size_eqb k x) eqn:E.
  - apply size_eqb_eq in E. subst x. rewrite counter_get_add_same, IH. lia.
  - rewrite counter_get_add_other by exact E. rewrite IH. lia.
Qed.

Lemma counter_add_items (k k' : Size) (n' : nat) (c : list (Size * nat)) :
  In (k', n') (counter_add k c) ->
  In (k', n') c
  \/ (k' = k /\ n' = 1%nat)
  \/ (k' = k /\ exists n, In (k, n) c /\ n' = S n).
Proof.
  induction c as [|[k0 n] c IH]; cbn [counter_add].
  - intros [E|[]]. injection E as <- <-. auto.
  - destruct (size_eqb k k0) eqn:Hk.
    + apply size_eqb_eq in Hk. subst k0. intros [E|Hin].
      * injection E as <- <-. right. right. split; [reflexivity|].
        exists n. split; [now left|reflexivity].
      * left. now right.
    + intros [E|Hin].
      * left. left. exact E.
      * destruct (IH Hin) as [H|[H|[H1 [m [H2 H3]]]]]; auto.
        -- left. now right.
        -- right. right. split; [exact H1|]. exists m. split; [now right|exact H3].
Qed.

(** Every item of the counter counts no more than the occurrences of its key. *)
Lemma Counter_items (l : list Size) (k : Size) (n : nat) :
  In (k, n) (Counter l) -> (1 <= n)%nat /\ (n <= times_seen k l)%nat.
Proof.
  revert k n. induction l as [|x l IH] using rev_ind; intros k n Hin.
  - destruct Hin.
  - rewrite Counter_app in Hin. rewrite times_seen_app.
    destruct (counter_add_items _ _ _ _ Hin) as [H|[[-> ->]|[-> [m [H ->]]]]].
    + destruct (IH k n H). lia.
    + rewrite size_eqb_refl. lia.
    + rewrite size_eqb_refl. destruct (IH x m H). lia.
Qed.

Lemma counter_get_item (k : Size) (c : list (Size * nat)) :
  (0 < counter_get k c)%nat -> In (k, counter_get k c) c.
Proof.
  induction c as [|[k' n] c IH]; cbn [counter_get]; [lia|].
  destruct (size_eqb k k') eqn:E.
  - apply size_eqb_eq in E. subst k'. intros _. now left.
  - intros H. right. now apply IH.
Qed.

(** *** The first item of maximal count *)

Lemma first_max_spec (items : list (Size * nat)) (best : Size * nat) :
  In (first_max items best) (best :: items)
  /\ forall it, In it (best :: items) -> (snd it <= snd (first_max items best))%nat.
Proof.
  revert best. induction items as [|x items IH]; intros best; cbn [first_max].
  - split; [now left|]. intros it [<-|[]]. lia.
  - destruct (Nat.ltb_spec (snd best) (snd x)) as [Hlt|Hge].
    + destruct (IH x) as [Hin Hmax]. split.
      * right. exact Hin.
      * intros it [<-|Hit]; [|now apply Hmax].
        specialize (Hmax x (or_introl eq_refl)). lia.
    + destruct (IH best) as [Hin Hmax]. split.
      * destruct Hin as [<-|Hin]; [now left|right; now right].
      * intros it [<-|[<-|Hit]].
        -- apply Hmax. now left.
        -- specialize (Hmax best (or_introl eq_refl)). lia.
        -- apply Hmax. now right.
Qed.

(** [most_common(1)[0]] of a non-empty document is a most frequent size. *)
Lemma most_common_is_mode (sizes : list Size) (mcs : Size) (mcc : nat) :
  nth_error (most_common_1 (Counter sizes)) 0 = Some (mcs, mcc) ->
  In mcs sizes
  /\ mcc = times_seen mcs sizes
  /\ forall s, (times_seen s sizes <= mcc)%nat.
Proof.
  unfold most_common_1. destruct (Counter sizes) as [|it rest] eqn:Ec;
    [discriminate|].
  cbn [nth_error]. intros E. injection E as E.
  destruct (first_max_spec rest it) as [Hin Hmax]. rewrite E in Hin, Hmax.
  rewrite <- Ec in Hin, Hmax.
  destruct (Counter_items sizes mcs mcc Hin) as [H1 Hle].
  assert (Hall : forall s, (times_seen s sizes <= mcc)%nat).
  { intros s. destruct (Nat.eq_dec (times_seen s sizes) 0) as [->|Hpos]; [lia|].
    rewrite <- counter_get_Counter in *.
    apply (Hmax (s, counter_get s (Counter sizes))).
    apply counter_get_item. lia. }
  split; [|split; [specialize (Hall mcs); lia|exact Hall]].
  assert (Hpos : (0 < times_seen mcs sizes)%nat) by lia.
  unfold times_seen in Hpos.
  destruct (filter (size_eqb mcs) sizes) as [|y ys] eqn:Ef; [simpl in Hpos; lia|].
  assert (Hy : In y (filter (size_eqb mcs) sizes)) by (rewrite Ef; now left).
  apply filter_In in Hy. destruct Hy as [Hy Heq].
  apply size_eqb_eq in Heq. now subst y.
Qed.

Lemma most_common_exists (sizes : list Size) :
  sizes <> [] -> exists top1, nth_error (most_common_1 (Counter sizes)) 0 = Some top1.
Proof.
  intros Hne. unfold most_common_1.
  destruct (Counter sizes) as [|it rest] eqn:Ec; [|cbn; eauto].
  exfalso. destruct sizes as [|x l]; [contradiction|].
  assert (H : counter_get x (Counter (x :: l)) = times_seen x (x :: l))
    by apply counter_get_Counter.
  rewrite Ec in H. unfold times_seen in H. cbn [filter counter_get] in H.
  rewrite size_eqb_refl in H. discriminate.
Qed.

(** *** The loop over the pages *)

(** The loop appends one output page per page: the cropped page when the
    gate passes, the page itself otherwise; the counters count each kind. *)
Lemma crop_loop_spec (pages : list Page) (lo hi : Z) (mcs : Size) (crop : Rect) :
  forall (page_num : nat) (out : list OutPage) (c u : nat),
  exists added,
    crop_loop pages page_num lo hi mcs crop out c u =
      (out ++ added,
       (c + count_eligible lo hi mcs pages page_num)%nat,
       (u + (length pages - count_eligible lo hi mcs pages page_num))%nat)
    /\ length added = length pages
    /\ (count_eligible lo hi mcs pages page_num <= length pages)%nat
    /\ forall i page, nth_error pages i = Some page ->
         nth_error added i =
           Some (if eligible lo hi mcs (page_num + i) page
                 then cropped_page crop (page_num + i)
                 else carried_page (page_num + i) page).
Proof.
  induction pages as [|p pages IH]; intros page_num out c u.
  - exists []. cbn [crop_loop count_eligible length]. rewrite app_nil_r.
    rewrite !Nat.add_0_r. repeat split; auto.
    intros i page Hi. destruct i; discriminate.
  - cbn [crop_loop count_eligible new_page].
    fold (eligible lo hi mcs page_num p).
    destruct (eligible lo hi mcs page_num p) eqn:Hg.
    + rewrite show_pdf_page_on_new.
      fold (cropped_page crop page_num).
      destruct (IH (S page_num) (out ++ [cropped_page crop page_num]) (S c) u)
        as [added [Hrun [Hlen [Hcnt Hnth]]]].
      exists (cropped_page crop page_num :: added).
      split; [rewrite Hrun, <- app_assoc; cbn [app length];
             apply injective_projections; [apply injective_projections|];
             cbn [fst snd]; try reflexivity; lia|].
      split; [cbn [length]; lia|]. split; [cbn [length]; lia|].
      intros i page Hi. destruct i as [|i].
      * injection Hi as <-. cbn [nth_error]. now rewrite Nat.add_0_r, Hg.
      * cbn [nth_error] in *. rewrite (Hnth i page Hi).
        now replace (page_num + S i)%nat with (S page_num + i)%nat by lia.
    + fold (carried_page page_num p).
      destruct (IH (S page_num) (out ++ [carried_page page_num p]) c (S u))
        as [added [Hrun [Hlen [Hcnt Hnth]]]].
      exists (carried_page page_num p :: added).
      split; [rewrite Hrun, <- app_assoc; cbn [app length];
             apply injective_projections; [apply injective_projections|];
             cbn [fst snd]; try reflexivity; lia|].
      split; [cbn [length]; lia|]. split; [cbn [length]; lia|].
      intros i page Hi. destruct i as [|i].
      * injection Hi as <-. cbn [nth_error]. now rewrite Nat.add_0_r, Hg.
      * cbn [nth_error] in *. rewrite (Hnth i page Hi).
        now replace (page_num + S i)%nat with (S page_num + i)%nat by lia.
Qed.

Lemma eligible_iff (lo hi : Z) (mcs : Size) (page_num : nat) (page : Page) :
  eligible lo hi mcs page_num page = true <->
  (lo <= Z.of_nat page_num + 1 <= hi)%Z /\ rounded_size page = mcs.
Proof.
  unfold eligible. rewrite !andb_true_iff, !Z.leb_le, size_eqb_eq. tauto.
Qed.

(** C5: when the explicit-rectangle crop saves its output, the size it
    reports as most common is a most frequent rounded page size; a page is
    replaced by its crop with the selected rectangle exactly when its
    1-based index lies in [min_page, max_page] and its rounded size is that
    size; every other page is carried over as it is; and the two counters
    add up to the number of pages. *)
Theorem manual_crop_gate (self : Gui) (output_path : String.string)
        (out : list OutPage) (cropped_pages unchanged_pages : nat)
        (most_common_size : Size) (most_common_count : nat) :
  crop_pdf self output_path =
    Saved out cropped_pages unchanged_pages most_common_size most_common_count ->
  let sizes := map rounded_size (doc self) in
  exists view_rect crop,
    view_crop_rect self = Some view_rect
    /\ pdf_crop_rect self view_rect = Some crop
    /\ (In most_common_size sizes
        /\ most_common_count = times_seen most_common_size sizes
        /\ forall s, (times_seen s sizes <= most_common_count)%nat)
    /\ length out = length (doc self)
    /\ (cropped_pages + unchanged_pages = length (doc self))%nat
    /\ cropped_pages =
         count_eligible (min_page self) (max_page self) most_common_size (doc self) 0
    /\ forall i page, nth_error (doc self) i = Some page ->
         (((min_page self <= Z.of_nat i + 1 <= max_page self)%Z
           /\ rounded_size page = most_common_size) ->
          nth_error out i = Some (cropped_page crop i))
         /\ (~ ((min_page self <= Z.of_nat i + 1 <= max_page self)%Z
                /\ rounded_size page = most_common_size) ->
             nth_error out i = Some (carried_page i page)).
Proof.
  intros Hsaved sizes. unfold crop_pdf in Hsaved.
  destruct (view_crop_rect self) as [view_rect|]; [|discriminate].
  destruct (negb (qrect_bool view_rect)); [discriminate|].
  destruct output_path as [|ch rest]; [discriminate|].
  destruct (crop_body self view_rect) as [[[[[o c] u] sz] n]|] eqn:Hbody;
    [|discriminate].
  injection Hsaved as -> -> -> -> ->.
  unfold crop_body in Hbody.
  destruct (pdf_crop_rect self view_rect) as [crop|] eqn:Hcrop; [|discriminate].
  cbn [bind] in Hbody. fold sizes in Hbody.
  destruct (nth_error (most_common_1 (Counter sizes)) 0) as [[mcs mcc]|] eqn:Htop;
    [|discriminate].
  cbn [bind] in Hbody.
  destruct (log_lines self crop mcc (length (doc self))); [|discriminate].
  cbn [bind] in Hbody.
  destruct (crop_loop_spec (doc self) (min_page self) (max_page self) mcs crop
              0%nat [] 0%nat 0%nat) as [added [Hrun [Hlen [Hcnt Hnth]]]].
  rewrite Hrun in Hbody. cbn [app] in Hbody.
  injection Hbody as <- <- <- <- <-.
  exists view_rect, crop. split; [reflexivity|]. split; [exact Hcrop|].
  split; [exact (most_common_is_mode sizes mcs mcc Htop)|].
  split; [exact Hlen|]. split; [lia|]. split; [reflexivity|].
  intros i page Hi. specialize (Hnth i page Hi). cbn [Nat.add] in Hnth.
  split; intros Hg.
  - apply eligible_iff in Hg. now rewrite Hg in Hnth.
  - destruct (eligible (min_page self) (max_page self) mcs i page) eqn:E;
      [apply eligible_iff in E; contradiction|exact Hnth].
Qed.

(** The crop is saved whenever a valid selection and a file name are given,
    the document has a page, and the current page has a size. *)
Lemma crop_pdf_saves (self : Gui) (output_path : String.string) (view_rect : QRectF) :
  view_crop_rect self = Some view_rect -> qrect_bool view_rect = true ->
  output_path <> String.EmptyString -> doc self <> [] ->
  ~ render_scale_factor self == 0 ->
  ~ width (page_rect self) == 0 -> ~ height (page_rect self) == 0 ->
  exists out c u sz n, crop_pdf self output_path = Saved out c u sz n.
Proof.
  intros Hsel Hvalid Hpath Hdoc Hscale Hw Hh. unfold crop_pdf.
  rewrite Hsel, Hvalid. cbn [negb].
  destruct output_path as [|ch rest]; [contradiction|].
  unfold crop_body, pdf_crop_rect. rewrite !pydiv_some by assumption.
  cbn [bind].
  destruct (most_common_exists (map rounded_size (doc self))) as [[mcs mcc] Htop].
  { destruct (doc self); [contradiction|discriminate]. }
  rewrite Htop. cbn [bind]. unfold log_lines.
  rewrite pydiv_some.
  2:{ assert (Hpos : (0 < length (doc self))%nat)
        by (destruct (doc self); [contradiction|simpl; lia]).
      intros E. unfold Qeq in E. simpl in E. lia. }
  cbn [bind]. rewrite !pydiv_some by assumption. cbn [bind].
  match goal with
  | |- context [crop_loop ?a ?b ?c ?d ?e ?f ?g ?h ?i] =>
      destruct (crop_loop a b c d e f g h i) as [[o c'] u']
  end.
  eauto 6.
Qed.

Lemma manual_crop_gate_witness :
  exists out crop,
    crop_pdf (sample_gui 1 7) sample_path = Saved out 5 5 (600, 800)%Z 5
    /\ pdf_crop_rect (sample_gui 1 7) (mkQRectF 100 100 1000 1400) = Some crop
    /\ nth_error out 4 = Some (cropped_page crop 4)
    /\ nth_error out 5 = Some (carried_page 5 small_page).
Proof.
  destruct (crop_pdf (sample_gui 1 7) sample_path) as [| | |out c u sz n] eqn:Hrun;
    try (vm_compute in Hrun; discriminate).
  pose proof Hrun as Hval. vm_compute in Hval.
  injection Hval as _ Hc Hu Hsz Hn. subst c u sz n.
  destruct (manual_crop_gate _ _ _ _ _ _ _ Hrun)
    as [view_rect [crop [Hsel [Hcrop [_ [_ [_ [_ Hpages]]]]]]]].
  injection Hsel as <-.
  exists out, crop. split; [reflexivity|]. split; [exact Hcrop|]. split.
  - apply (proj1 (Hpages 4%nat letter_page eq_refl)).
    split; [simpl; lia|reflexivity].
  - apply (proj2 (Hpages 5%nat small_page eq_refl)).
    intros [_ E]. vm_compute in E. discriminate.
Defined.

(** Scenario C of the specification: range 1-5 on the ten-page document
    crops the five 600 x 800 pages to 500 x 700 and carries the others. *)
Example scenario_c :
  exists out,
    crop_pdf (sample_gui 1 5) sample_path = Saved out 5 5 (600, 800)%Z 5
    /\ length out = 10%nat
    /\ (exists crop, nth_error out 0 = Some (cropped_page crop 0)
                     /\ width crop == 500 /\ height crop == 700)
    /\ nth_error out 9 = Some (carried_page 9 small_page).
Proof.
  eexists. split; [vm_compute; reflexivity|]. split; [reflexivity|].
  split; [|reflexivity].
  exists (mkRect (100 # 2) (100 # 2) (1100 # 2) (1500 # 2)).
  split; [reflexivity|]. split; reflexivity.
Qed.

End ManualCrop.

(** * Further properties *)

(** ** The detected box and the content pixels *)

Lemma content_cols_spec (img : GrayImage) (thr : Q) (x : Z) :
  In x (np_where (any_axis0 img thr)) <->
  (0 <= x < Z.of_nat (shape1 img))%Z
  /\ exists r, (r < shape0 img)%nat /\ content_mask img thr r (Z.to_nat x) = true.
Proof.
  unfold np_where. rewrite where_from_content. rewrite Z.sub_0_r.
  unfold any_axis0. split.
  - intros [Hx Hn]. assert (Hlt : (Z.to_nat x < shape1 img)%nat).
    { assert (Hs : nth_error (map (fun c => existsb (fun r => content_mask img thr r c)
                                     (seq 0 (shape0 img))) (seq 0 (shape1 img)))
                             (Z.to_nat x) <> None) by (rewrite Hn; discriminate).
      apply nth_error_Some in Hs. now rewrite length_map, length_seq in Hs. }
    split; [lia|]. rewrite nth_error_map, nth_error_seq in Hn.
    destruct (Nat.ltb_spec (Z.to_nat x) (shape1 img)); [|lia]. simpl in Hn.
    injection Hn as Hn. apply existsb_exists in Hn. destruct Hn as [r [Hr Hm]].
    apply in_seq in Hr. exists r. split; [lia|exact Hm].
  - intros [Hx [r [Hr Hm]]]. split; [lia|].
    rewrite nth_error_map, nth_error_seq.
    destruct (Nat.ltb_spec (Z.to_nat x) (shape1 img)); [|lia]. simpl. f_equal.
    apply existsb_exists. exists r. split; [apply in_seq; lia|exact Hm].
Qed.

(** In the output of [np.where] the first entry is the least and the last
    entry the greatest. *)
Lemma where_from_extremes (v : list bool) (k lo hi x : Z) :
  nth_error (where_from k v) 0 = Some lo -> hi = last (where_from k v) 0%Z ->
  In x (where_from k v) -> (lo <= x <= hi)%Z.
Proof.
  intros Hlo Hhi Hin.
  assert (Hne : where_from k v <> []) by (intros E; rewrite E in Hin; destruct Hin).
  pose proof (last_nth_error _ 0%Z Hne) as Hlast. rewrite <- Hhi in Hlast.
  apply In_nth_error in Hin. destruct Hin as [i Hi].
  assert (Hil : (i < length (where_from k v))%nat)
    by (apply nth_error_Some; rewrite Hi; discriminate).
  split.
  - destruct i as [|i]; [rewrite Hlo in Hi; injection Hi as <-; lia|].
    pose proof (where_from_increasing v k 0 (S i) lo x Hlo Hi). lia.
  - destruct (Nat.eq_dec i (length (where_from k v) - 1)) as [->|Hne'].
    + rewrite Hlast in Hi. injection Hi as <-. lia.
    + pose proof (where_from_increasing v k i (length (where_from k v) - 1)
                    x hi Hi Hlast). lia.
Qed.

(** What the gap loop returns: the start value, or the row before an index
    at which the loop test succeeds. *)
Lemma scan_gaps_result (cr : list Z) (gt fs : Z) (n : nat) (d e : Z) :
  scan_gaps cr gt fs n d = Some e ->
  e = d \/ exists i, (1 <= i)%nat /\ (i <= n)%nat
                     /\ nth_error cr (i - 1) = Some e
                     /\ footer_gap cr gt fs i = true.
Proof.
  induction n as [|n IH]; cbn [scan_gaps].
  - intros H. injection H as <-. now left.
  - destruct (nth_error cr (S n)) as [cur|] eqn:Hc; [|discriminate].
    destruct (nth_error cr n) as [prev|] eqn:Hp; [|discriminate].
    cbn [bind]. destruct ((cur - prev >? gt)%Z && (cur >? fs)%Z) eqn:Ht.
    + intros H. injection H as <-. right. exists (S n).
      replace (S n - 1)%nat with n by lia. repeat split; try lia; auto.
      unfold footer_gap. replace (S n - 1)%nat with n by lia.
      now rewrite Hc, Hp.
    + intros H. destruct (IH H) as [->|[i [H1 [H2 [H3 H4]]]]]; [now left|].
      right. exists i. repeat split; auto; lia.
Qed.

(** The end of the vertical range after the footer block: a content row
    between the first and the last one, such that every content row below it
    lies strictly past [footer_start]; it is the last content row when the
    band holds no content. *)
Lemma footer_isolation_result (rows : list bool) (ratio : Q) (y_min y_max y : Z) :
  nth_error (np_where rows) 0 = Some y_min ->
  y_max = last (np_where rows) 0%Z ->
  footer_isolation rows ratio y_min y_max = Some y ->
  In y (np_where rows) /\ (y_min <= y <= y_max)%Z
  /\ (forall r, In r (np_where rows) ->
                (r <= y)%Z \/ (footer_start (length rows) ratio < r)%Z)
  /\ (np_any (slice_from (footer_start (length rows) ratio) rows) = false ->
      y = y_max).
Proof.
  intros Htop Hbot Hf.
  assert (Hne : np_where rows <> []) by (intros E; rewrite E in Htop; discriminate).
  pose proof (last_nth_error _ 0%Z Hne) as Hlast. rewrite <- Hbot in Hlast.
  assert (Hmax : In y_max (np_where rows)) by (eapply nth_error_In; eauto).
  assert (Hext : forall r, In r (np_where rows) -> (y_min <= r <= y_max)%Z)
    by (intros r Hr; now apply (where_from_extremes rows 0%Z)).
  assert (Hdefault : In y_max (np_where rows) /\ (y_min <= y_max <= y_max)%Z
            /\ (forall r, In r (np_where rows) ->
                  (r <= y_max)%Z \/ (footer_start (length rows) ratio < r)%Z)).
  { split; [exact Hmax|]. split; [specialize (Hext y_max Hmax); lia|].
    intros r Hr. left. now apply Hext. }
  unfold footer_isolation in Hf.
  destruct (np_any (slice_from _ rows)) eqn:Hband.
  2:{ injection Hf as <-. destruct Hdefault as [A [B C]].
      split; [exact A|]. split; [exact B|]. split; [exact C|reflexivity]. }
  destruct (scan_gaps _ _ _ _ y_max) as [e|] eqn:Hscan; [|discriminate].
  cbn [bind] in Hf.
  destruct ((e <? y_max)%Z && (e >? y_min)%Z) eqn:Hg; injection Hf as <-.
  2:{ destruct Hdefault as [A [B C]].
      split; [exact A|]. split; [exact B|]. split; [exact C|discriminate]. }
  apply andb_prop in Hg. destruct Hg as [Hg1 Hg2].
  apply Z.ltb_lt in Hg1. assert (Hg2' : (y_min < e)%Z) by lia.
  destruct (scan_gaps_result _ _ _ _ _ _ Hscan) as [->|[i [Hi1 [Hi2 [Hprev Hgap]]]]];
    [lia|].
  split; [eapply nth_error_In; eauto|]. split; [lia|]. split; [|discriminate].
  intros r Hr. destruct (Z_le_gt_dec r e) as [Hle|Hgt]; [now left|right].
  unfold footer_gap in Hgap.
  destruct (nth_error (np_where rows) i) as [cur|] eqn:Hcur; [|discriminate].
  rewrite Hprev in Hgap. apply andb_prop in Hgap. destruct Hgap as [_ Hfs].
  apply In_nth_error in Hr. destruct Hr as [k Hk].
  assert (Hik : (i <= k)%nat).
  { destruct (Nat.le_gt_cases i k) as [H|H]; [exact H|exfalso].
    destruct (Nat.eq_dec k (i - 1)) as [->|Hne'].
    - rewrite Hprev in Hk. injection Hk as <-. lia.
    - pose proof (where_from_increasing rows 0%Z k (i - 1) r e Hk Hprev). lia. }
  destruct (Nat.eq_dec i k) as [<-|Hne'].
  - rewrite Hcur in Hk. injection Hk as <-. lia.
  - pose proof (where_from_increasing rows 0%Z i k cur r Hcur Hk). lia.
Qed.

(** The box of a page with content, in pixel indices. *)
Lemma get_content_bbox_shape (page : Page) (thr ratio : Q) :
  np_any (any_axis1 (img_array page) thr) = true ->
  exists x_min x_max y_min y_max y_end,
    get_content_bbox page thr ratio =
      Some (mkRect (to_pdf (x0 (rect page)) x_min) (to_pdf (y0 (rect page)) y_min)
                   (to_pdf (x0 (rect page)) x_max) (to_pdf (y0 (rect page)) y_end))
    /\ nth_error (np_where (any_axis0 (img_array page) thr)) 0 = Some x_min
    /\ x_max = last (np_where (any_axis0 (img_array page) thr)) 0%Z
    /\ nth_error (np_where (any_axis1 (img_array page) thr)) 0 = Some y_min
    /\ y_max = last (np_where (any_axis1 (img_array page) thr)) 0%Z
    /\ footer_isolation (any_axis1 (img_array page) thr) ratio y_min y_max
       = Some y_end.
Proof.
  intros Hr.
  assert (Hc : np_any (any_axis0 (img_array page) thr) = true)
    by (apply any_axis0_content; apply any_axis1_content; exact Hr).
  pose proof (where_from_nonempty _ 0%Z Hr) as Hrne.
  pose proof (where_from_nonempty _ 0%Z Hc) as Hcne.
  destruct (first_last_some _ Hrne) as [y_min [y_max [Hy [_ [_ [Htop Hbot]]]]]].
  destruct (first_last_some _ Hcne) as [x_min [x_max [Hx [_ [_ [Hleft Hright]]]]]].
  destruct (footer_isolation_total (any_axis1 (img_array page) thr) ratio
              y_min y_max Hrne) as [y [Hf _]].
  exists x_min, x_max, y_min, y_max, y.
  split; [|repeat split; assumption].
  unfold get_content_bbox. rewrite Hr, Hc. cbn [negb orb].
  unfold np_where in *. rewrite Hy, Hx. cbn [bind]. rewrite Hf. reflexivity.
Qed.

Lemma to_pdf_monotone (origin : Q) (a b : Z) :
  (a <= b)%Z -> to_pdf origin a <= to_pdf origin b.
Proof.
  intros H. unfold to_pdf. rewrite Zle_Qle in H.
  assert (inject_Z a / 2 <= inject_Z b / 2).
  { unfold Qdiv. apply Qmult_le_compat_r; [exact H|]. unfold Qle; simpl; lia. }
  lra.
Qed.

Lemma content_pixel_rows (page : Page) (thr : Q) (r c : nat) :
  content_pixel page thr r c ->
  In (Z.of_nat r) (np_where (any_axis1 (img_array page) thr))
  /\ In (Z.of_nat c) (np_where (any_axis0 (img_array page) thr)).
Proof.
  intros [Hr [Hc Hm]]. split.
  - apply content_rows_spec. split; [lia|]. exists c. rewrite Nat2Z.id. auto.
  - apply content_cols_spec. split; [lia|]. exists r. rewrite Nat2Z.id. auto.
Qed.

Lemma content_pixel_any (page : Page) (thr : Q) (r c : nat) :
  content_pixel page thr r c -> np_any (any_axis1 (img_array page) thr) = true.
Proof.
  intros [Hr [Hc Hm]]. apply any_axis1_content. exists r, c. auto.
Qed.



Lemma to_pdf_of_nat (origin : Q) (z : Z) :
  (0 <= z)%Z -> to_pdf origin z = to_pdf origin (Z.of_nat (Z.to_nat z)).
Proof. intros H. now rewrite Z2Nat.id. Qed.

Lemma content_row_pixel (page : Page) (thr : Q) (y : Z) :
  In y (np_where (any_axis1 (img_array page) thr)) ->
  (0 <= y)%Z /\ exists c, content_pixel page thr (Z.to_nat y) c.
Proof.
  intros H. apply content_rows_spec in H. destruct H as [Hy [c [Hc Hm]]].
  split; [lia|]. exists c. repeat split; auto. lia.
Qed.

Lemma content_col_pixel (page : Page) (thr : Q) (x : Z) :
  In x (np_where (any_axis0 (img_array page) thr)) ->
  (0 <= x)%Z /\ exists r, content_pixel page thr r (Z.to_nat x).
Proof.
  intros H. apply content_cols_spec in H. destruct H as [Hx [r [Hr Hm]]].
  split; [lia|]. exists r. repeat split; auto. lia.
Qed.

(** X2: on a page with a content pixel the box is tight and valid: each of
    its four edges passes through a content pixel, the left edge is not right
    of the right edge and the top edge not below the bottom edge. *)
Theorem bbox_edges_touch_content (page : Page) (threshold ratio : Q) :
  (exists r c, content_pixel page threshold r c) ->
  exists box c_left c_right r_top r_bottom,
    get_content_bbox page threshold ratio = Some box
    /\ x0 box = pdf_x page c_left /\ x1 box = pdf_x page c_right
    /\ y0 box = pdf_y page r_top /\ y1 box = pdf_y page r_bottom
    /\ (exists r, content_pixel page threshold r c_left)
    /\ (exists r, content_pixel page threshold r c_right)
    /\ (exists c, content_pixel page threshold r_top c)
    /\ (exists c, content_pixel page threshold r_bottom c)
    /\ x0 box <= x1 box /\ y0 box <= y1 box.
Proof.
  intros [r [c Hpx]].
  destruct (get_content_bbox_shape page threshold ratio
              (content_pixel_any page threshold r c Hpx))
    as [x_min [x_max [y_min [y_max [y_end [Hget [Hl [Hr [Ht [Hb Hf]]]]]]]]]].
  destruct (footer_isolation_result _ _ _ _ _ Ht Hb Hf) as [Hend [Hbetween _]].
  assert (Hne : np_where (any_axis0 (img_array page) threshold) <> [])
    by (intros E; rewrite E in Hl; discriminate).
  assert (Hxmin : In x_min (np_where (any_axis0 (img_array page) threshold)))
    by (eapply nth_error_In; eauto).
  assert (Hxmax : In x_max (np_where (any_axis0 (img_array page) threshold)))
    by (rewrite Hr; now apply last_in).
  assert (Hymin : In y_min (np_where (any_axis1 (img_array page) threshold)))
    by (eapply nth_error_In; eauto).
  destruct (where_from_extremes _ 0%Z _ _ _ Hl Hr Hxmax) as [Hxx _].
  destruct (content_col_pixel _ _ _ Hxmin) as [Hx0 Pl].
  destruct (content_col_pixel _ _ _ Hxmax) as [Hx1 Pr].
  destruct (content_row_pixel _ _ _ Hymin) as [Hy0 Pt].
  destruct (content_row_pixel _ _ _ Hend) as [Hy1 Pb].
  exists (mkRect (to_pdf (x0 (rect page)) x_min) (to_pdf (y0 (rect page)) y_min)
                 (to_pdf (x0 (rect page)) x_max) (to_pdf (y0 (rect page)) y_end)),
    (Z.to_nat x_min), (Z.to_nat x_max), (Z.to_nat y_min), (Z.to_nat y_end).
  cbn [x0 y0 x1 y1]. unfold pdf_x, pdf_y.
  split; [exact Hget|].
  split; [now apply to_pdf_of_nat|]. split; [now apply to_pdf_of_nat|].
  split; [now apply to_pdf_of_nat|]. split; [now apply to_pdf_of_nat|].
  split; [exact Pl|]. split; [exact Pr|]. split; [exact Pt|]. split; [exact Pb|].
  split; apply to_pdf_monotone; lia.
Qed.

Lemma bbox_edges_touch_content_witness :
  (exists r c, content_pixel body_footer_page (95 # 100) r c)
  /\ exists box,
       get_content_bbox body_footer_page (95 # 100) (1 # 10) = Some box
       /\ x0 box <= x1 box /\ y0 box <= y1 box.
Proof.
  assert (Hpx : exists r c, content_pixel body_footer_page (95 # 100) r c).
  { exists 11%nat, 3%nat. split; [simpl; lia|]. split; [simpl; lia|reflexivity]. }
  split; [exact Hpx|].
  destruct (bbox_edges_touch_content body_footer_page (95 # 100) (1 # 10) Hpx)
    as [box [cl [cr [rt [rb [Hget [_ [_ [_ [_ [_ [_ [_ [_ [Hx Hy]]]]]]]]]]]]]]].
  exists box. split; [exact Hget|]. split; [exact Hx|exact Hy].
Defined.

(** With a footer ratio of 0 the band [rows[footer_start:]] is empty. *)
Lemma footer_start_zero_ratio (page_height : nat) :
  footer_start page_height 0 = Z.of_nat page_height.
Proof.
  unfold footer_start, py_int. simpl.
  rewrite Z.mul_1_r. apply Z.quot_1_r.
Qed.

Lemma band_empty_zero_ratio (rows : list bool) :
  np_any (slice_from (footer_start (length rows) 0) rows) = false.
Proof.
  rewrite footer_start_zero_ratio. unfold slice_from.
  destruct (Z.ltb_spec (Z.of_nat (length rows)) 0); [lia|].
  rewrite Nat2Z.id, skipn_all. reflexivity.
Qed.

(** X3: when no content row lies in the footer band, in particular when the
    footer ratio is 0, the box is the bounding box of all the content: every
    content pixel lies within its four edges. *)
Theorem bbox_exact_without_footer_content (page : Page) (threshold ratio : Q)
        (r c : nat) :
  content_pixel page threshold r c ->
  np_any (slice_from (footer_start (shape0 (img_array page)) ratio)
                     (any_axis1 (img_array page) threshold)) = false
  \/ ratio = 0 ->
  exists box,
    get_content_bbox page threshold ratio = Some box
    /\ x0 box <= pdf_x page c /\ pdf_x page c <= x1 box
    /\ y0 box <= pdf_y page r /\ pdf_y page r <= y1 box.
Proof.
  intros Hpx Hband.
  assert (Hband' : np_any (slice_from
                     (footer_start (length (any_axis1 (img_array page) threshold)) ratio)
                     (any_axis1 (img_array page) threshold)) = false).
  { destruct Hband as [H| ->]; [now rewrite any_axis1_length|].
    apply band_empty_zero_ratio. }
  destruct (content_pixel_rows page threshold r c Hpx) as [Hrow Hcol].
  destruct (get_content_bbox_shape page threshold ratio
              (content_pixel_any page threshold r c Hpx))
    as [x_min [x_max [y_min [y_max [y_end [Hget [Hl [Hr [Ht [Hb Hf]]]]]]]]]].
  destruct (footer_isolation_result _ _ _ _ _ Ht Hb Hf) as [_ [_ [_ Hfull]]].
  rewrite (Hfull Hband') in Hget.
  destruct (where_from_extremes _ 0%Z _ _ _ Hl Hr Hcol) as [Hx1 Hx2].
  destruct (where_from_extremes _ 0%Z _ _ _ Ht Hb Hrow) as [Hy1 Hy2].
  eexists. split; [exact Hget|]. cbn [x0 y0 x1 y1]. unfold pdf_x, pdf_y.
  repeat split; now apply to_pdf_monotone.
Qed.

Lemma bbox_exact_without_footer_content_witness :
  content_pixel body_footer_page (95 # 100) 48 3
  /\ exists box,
       get_content_bbox body_footer_page (95 # 100) 0 = Some box
       /\ y0 box <= pdf_y body_footer_page 48
       /\ pdf_y body_footer_page 48 <= y1 box.
Proof.
  assert (Hpx : content_pixel body_footer_page (95 # 100) 48 3).
  { split; [simpl; lia|]. split; [simpl; lia|reflexivity]. }
  split; [exact Hpx|].
  destruct (bbox_exact_without_footer_content body_footer_page (95 # 100) 0 48 3
              Hpx (or_intror eq_refl)) as [box [Hget [_ [_ [C D]]]]].
  exists box. split; [exact Hget|]. split; [exact C|exact D].
Defined.

(** ** Which pages are sampled *)

Lemma range_step_length (page_count step : nat) :
  length (range_step page_count step) = ((page_count + step - 1) / step)%nat.
Proof. unfold range_step. now rewrite length_map, length_seq. Qed.

Lemma range_step_nth (page_count step k : nat) :
  (k < (page_count + step - 1) / step)%nat ->
  nth_error (range_step page_count step) k = Some (k * step)%nat.
Proof.
  intros H. unfold range_step. rewrite nth_error_map, nth_error_seq.
  destruct (Nat.ltb_spec k ((page_count + step - 1) / step)); [reflexivity|lia].
Qed.

Lemma range_step_below (page_count step i : nat) :
  (1 <= step)%nat -> In i (range_step page_count step) -> (i < page_count)%nat.
Proof.
  intros Hs Hin. unfold range_step in Hin. apply in_map_iff in Hin.
  destruct Hin as [k [<- Hk]]. apply in_seq in Hk.
  pose proof (Nat.Div0.mul_div_le (page_count + step - 1) step).
  nia.
Qed.

Lemma step_of_samples (page_count : nat) (sample_pages : Z) :
  (0 < sample_pages)%Z -> (sample_pages < Z.of_nat page_count)%Z ->
  let step := Z.to_nat (Z.of_nat page_count / sample_pages) in
  (1 <= step)%nat /\ (Z.to_nat sample_pages * step <= page_count)%nat
  /\ (0 < Z.of_nat page_count / sample_pages)%Z.
Proof.
  intros Hpos Hlt step.
  assert (H1 : (1 <= Z.of_nat page_count / sample_pages)%Z)
    by (apply Z.div_le_lower_bound; lia).
  pose proof (Z.mul_div_le (Z.of_nat page_count) sample_pages Hpos) as H2.
  unfold step. split; [lia|]. split; [|lia].
  apply Nat2Z.inj_le. rewrite Nat2Z.inj_mul, !Z2Nat.id by lia. lia.
Qed.

Lemma sample_indices_facts (page_count : nat) (sample_pages : Z)
      (indices : list nat) :
  sample_indices page_count sample_pages = Some indices ->
  (forall i, In i indices -> (i < page_count)%nat)
  /\ ((Z.of_nat page_count <= sample_pages)%Z -> indices = seq 0 page_count)
  /\ ((0 < sample_pages)%Z -> (sample_pages < Z.of_nat page_count)%Z ->
      let step := Z.to_nat (Z.of_nat page_count / sample_pages) in
      (1 <= step)%nat
      /\ length indices = Z.to_nat sample_pages
      /\ forall k, (k < Z.to_nat sample_pages)%nat ->
                   nth_error indices k = Some (k * step)%nat).
Proof.
  unfold sample_indices. intros H.
  destruct (Z.leb_spec (Z.of_nat page_count) sample_pages) as [Hle|Hgt].
  - injection H as <-. split; [intros i Hi; apply in_seq in Hi; lia|].
    split; [reflexivity|lia].
  - destruct (Z.eqb_spec sample_pages 0) as [E|Hne0]; [discriminate|].
    destruct (Z.eqb_spec (Z.of_nat page_count / sample_pages) 0) as [E|Hs0];
      [discriminate|].
    destruct (Z.ltb_spec (Z.of_nat page_count / sample_pages) 0) as [Hneg|Hpos].
    + injection H as <-. split; [intros i []|]. split; [lia|].
      intros Hsp Hlt. destruct (step_of_samples page_count sample_pages Hsp Hlt)
        as [_ [_ Hq]]. lia.
    + injection H as <-.
      assert (Hstep : (1 <= Z.to_nat (Z.of_nat page_count / sample_pages))%nat)
        by lia.
      split.
      * intros i Hi. apply (range_step_below page_count _ i Hstep).
        rewrite <- (firstn_skipn (Z.to_nat sample_pages)). apply in_or_app.
        now left.
      * split; [lia|]. intros Hsp _. cbv zeta.
        destruct (step_of_samples page_count sample_pages Hsp Hgt) as [_ [Hfit _]].
        set (step := Z.to_nat (Z.of_nat page_count / sample_pages)) in *.
        assert (Hlen : (Z.to_nat sample_pages <= (page_count + step - 1) / step)%nat).
        { apply Nat.div_le_lower_bound; [lia|]. nia. }
        split; [exact Hstep|]. split.
        -- rewrite length_firstn, range_step_length. lia.
        -- intros k Hk. rewrite nth_error_firstn.
           destruct (Nat.ltb_spec k (Z.to_nat sample_pages)); [|lia].
           apply range_step_nth. lia.
Qed.

(** X4: the sampled indices are page indices of the document; when the
    document has no more pages than [sample_pages] they are all its pages in
    order, and otherwise (for a positive [sample_pages]) they are exactly
    [sample_pages] indices 0, step, 2*step, ... with
    step = page_count // sample_pages. *)
Theorem sample_indices_spec (page_count : nat) (sample_pages : Z)
        (indices : list nat) :
  sample_indices page_count sample_pages = Some indices ->
  (forall i, In i indices -> (i < page_count)%nat)
  /\ ((Z.of_nat page_count <= sample_pages)%Z -> indices = seq 0 page_count)
  /\ ((0 < sample_pages)%Z -> (sample_pages < Z.of_nat page_count)%Z ->
      let step := Z.to_nat (Z.of_nat page_count / sample_pages) in
      (1 <= step)%nat
      /\ length indices = Z.to_nat sample_pages
      /\ forall k, (k < Z.to_nat sample_pages)%nat ->
                   nth_error indices k = Some (k * step)%nat).
Proof. apply sample_indices_facts. Qed.

Lemma sample_indices_spec_witness :
  sample_indices 10 3 = Some [0; 3; 6]%nat
  /\ (forall i, In i [0; 3; 6]%nat -> (i < 10)%nat)
  /\ length [0; 3; 6]%nat = Z.to_nat 3.
Proof.
  assert (H : sample_indices 10 3 = Some [0; 3; 6]%nat) by reflexivity.
  destruct (sample_indices_spec 10 3 _ H) as [Hin [_ Hstep]].
  split; [exact H|]. split; [exact Hin|].
  destruct (Hstep ltac:(lia) ltac:(lia)) as [_ [Hlen _]]. exact Hlen.
Defined.

(** ** From the rendered pages to the suggested margins *)

Lemma sample_indices_returns (page_count : nat) (sample_pages : Z) :
  (0 < sample_pages)%Z -> (0 < page_count)%nat ->
  exists indices,
    sample_indices page_count sample_pages = Some indices
    /\ indices <> [] /\ forall i, In i indices -> (i < page_count)%nat.
Proof.
  intros Hsp Hn.
  assert (Hsome : exists indices, sample_indices page_count sample_pages = Some indices).
  { unfold sample_indices.
    destruct (Z.leb_spec (Z.of_nat page_count) sample_pages) as [Hle|Hgt]; [eauto|].
    destruct (Z.eqb_spec sample_pages 0); [lia|].
    destruct (step_of_samples page_count sample_pages Hsp Hgt) as [_ [_ Hq]].
    destruct (Z.eqb_spec (Z.of_nat page_count / sample_pages) 0); [lia|].
    destruct (Z.ltb_spec (Z.of_nat page_count / sample_pages) 0); [lia|eauto]. }
  destruct Hsome as [indices Hi]. exists indices. split; [exact Hi|].
  destruct (sample_indices_facts _ _ _ Hi) as [Hin [Hall Hstep]].
  split; [|exact Hin].
  destruct (Z.le_gt_cases (Z.of_nat page_count) sample_pages) as [Hle|Hgt].
  - rewrite (Hall Hle). destruct page_count; [lia|discriminate].
  - destruct (Hstep Hsp ltac:(lia)) as [_ [Hlen _]].
    intros E. rewrite E in Hlen. simpl in Hlen. lia.
Qed.

(** The sampling loop pairs the box detected on each sampled page with the
    rectangle of that page. *)
Lemma sample_loop_pairs (doc : list Page) (ratio : Q) (indices : list nat) :
  (forall i, In i indices -> (i < length doc)%nat) ->
  forall content_boxes page_sizes,
  exists boxes sizes,
    sample_loop doc indices ratio content_boxes page_sizes
      = Some (content_boxes ++ boxes, page_sizes ++ sizes)
    /\ length boxes = length indices /\ length sizes = length indices
    /\ forall s, In s (combine boxes sizes) ->
         exists page, In page doc /\ snd s = rect page
                      /\ get_content_bbox page (95 # 100) ratio = Some (fst s).
Proof.
  induction indices as [|i rest IH]; intros Hidx content_boxes page_sizes.
  - exists [], []. cbn [sample_loop]. rewrite !app_nil_r.
    repeat split; auto. intros s [].
  - cbn [sample_loop].
    destruct (nth_error doc i) as [page|] eqn:Hp.
    2:{ apply nth_error_None in Hp. specialize (Hidx i (or_introl eq_refl)). lia. }
    cbn [bind].
    destruct (get_content_bbox_total page (95 # 100) ratio) as [box Hbox].
    rewrite Hbox. cbn [bind].
    destruct (IH (fun j Hj => Hidx j (or_intror Hj))
                 (content_boxes ++ [box]) (page_sizes ++ [rect page]))
      as [boxes [sizes [Hrun [Hb [Hs Hin]]]]].
    exists (box :: boxes), (rect page :: sizes).
    rewrite Hrun, <- !app_assoc. cbn [app length combine].
    repeat split; auto.
    intros s [<-|Hs']; [|now apply Hin].
    exists page. cbn [fst snd]. split; [eapply nth_error_In; eauto|auto].
Qed.

(** A detected box is the page rectangle or is made of ordered pixel indices
    of the grid. *)
Lemma get_content_bbox_ordered (page : Page) (thr ratio : Q) (box : Rect) :
  get_content_bbox page thr ratio = Some box ->
  box = rect page
  \/ exists x_min x_max y_min y_end,
       box = mkRect (to_pdf (x0 (rect page)) x_min) (to_pdf (y0 (rect page)) y_min)
                    (to_pdf (x0 (rect page)) x_max) (to_pdf (y0 (rect page)) y_end)
       /\ (0 <= x_min <= x_max)%Z /\ (x_max < Z.of_nat (shape1 (img_array page)))%Z
       /\ (0 <= y_min <= y_end)%Z /\ (y_end < Z.of_nat (shape0 (img_array page)))%Z.
Proof.
  intros Hget.
  destruct (np_any (any_axis1 (img_array page) thr)) eqn:Hr.
  2:{ left. unfold get_content_bbox in Hget. rewrite Hr in Hget.
      cbn [negb orb] in Hget. now injection Hget. }
  right.
  destruct (get_content_bbox_shape page thr ratio Hr)
    as [x_min [x_max [y_min [y_max [y_end [Hget' [Hl [Hrg [Ht [Hb Hf]]]]]]]]]].
  rewrite Hget' in Hget. injection Hget as <-.
  destruct (footer_isolation_result _ _ _ _ _ Ht Hb Hf) as [Hend [Hbetween _]].
  assert (Hne : np_where (any_axis0 (img_array page) thr) <> [])
    by (intros E; rewrite E in Hl; discriminate).
  assert (Hxmin : In x_min (np_where (any_axis0 (img_array page) thr)))
    by (eapply nth_error_In; eauto).
  assert (Hxmax : In x_max (np_where (any_axis0 (img_array page) thr)))
    by (rewrite Hrg; now apply last_in).
  assert (Hymin : In y_min (np_where (any_axis1 (img_array page) thr)))
    by (eapply nth_error_In; eauto).
  destruct (where_from_extremes _ 0%Z _ _ _ Hl Hrg Hxmax) as [Hxx _].
  apply where_from_bounds in Hxmin, Hxmax, Hymin, Hend.
  rewrite any_axis0_length in Hxmin, Hxmax. rewrite any_axis1_length in Hymin, Hend.
  exists x_min, x_max, y_min, y_end. split; [reflexivity|]. lia.
Qed.

Lemma detected_box_within_page (page : Page) (thr ratio : Q) (box : Rect) :
  rendered_at_2x page ->
  x0 (rect page) < x1 (rect page) -> y0 (rect page) < y1 (rect page) ->
  get_content_bbox page thr ratio = Some box ->
  box_within_page (box, rect page).
Proof.
  intros [Hw Hh] Hx Hy Hget. unfold box_within_page. cbn [fst snd].
  destruct (get_content_bbox_ordered page thr ratio box Hget)
    as [->|[x_min [x_max [y_min [y_end [-> [Hxs [Hxw [Hys Hyh]]]]]]]]].
  - repeat split; lra.
  - cbn [x0 y0 x1 y1].
    pose proof (to_pdf_lower (x0 (rect page)) x_min ltac:(lia)).
    pose proof (to_pdf_lower (y0 (rect page)) y_min ltac:(lia)).
    pose proof (to_pdf_monotone (x0 (rect page)) x_min x_max ltac:(lia)).
    pose proof (to_pdf_monotone (y0 (rect page)) y_min y_end ltac:(lia)).
    pose proof (to_pdf_upper (x0 (rect page)) (x1 (rect page)) x_max _ Hxw Hw).
    pose proof (to_pdf_upper (y0 (rect page)) (y1 (rect page)) y_end _ Hyh Hh).
    repeat split; assumption.
Qed.

(** X5: on a non-empty document whose pages are rendered at 2x and have a
    positive width and height, with a positive [sample_pages] and a buffer
    >= 0, the analysis returns margins that all lie in [0, 1], and below 1
    when the buffer is positive. *)
Theorem analyzed_margins_in_unit_interval (doc : list Page) (sample_pages : Z)
        (buffer ratio : Q) :
  doc <> [] -> (0 < sample_pages)%Z -> 0 <= buffer ->
  (forall page, In page doc ->
     rendered_at_2x page
     /\ x0 (rect page) < x1 (rect page) /\ y0 (rect page) < y1 (rect page)) ->
  exists m,
    analyze_pdf_margins doc sample_pages buffer ratio = Some m
    /\ (0 <= m_left m <= 1 /\ 0 <= m_top m <= 1
        /\ 0 <= m_right m <= 1 /\ 0 <= m_bottom m <= 1)
    /\ (0 < buffer ->
        m_left m < 1 /\ m_top m < 1 /\ m_right m < 1 /\ m_bottom m < 1).
Proof.
  intros Hne Hsp Hb Hpages. unfold analyze_pdf_margins.
  destruct (sample_indices_returns (length doc) sample_pages Hsp)
    as [indices [Hi [Hine Hin]]]; [destruct doc; [contradiction|simpl; lia]|].
  rewrite Hi. cbn [bind].
  destruct (sample_loop_pairs doc ratio indices Hin [] [])
    as [boxes [sizes [Hrun [Hlb [Hls Hpairs]]]]].
  rewrite Hrun. cbn [bind app fst snd].
  destruct (map_fst_combine boxes sizes ltac:(lia)) as [E1 E2].
  set (samples := combine boxes sizes) in *.
  assert (Hs : samples <> []).
  { intros E. rewrite E in E1. simpl in E1. subst boxes.
    destruct indices; [contradiction|discriminate]. }
  assert (Hwithin : forall s, In s samples -> box_within_page s).
  { intros s Hs'. destruct (Hpairs s Hs') as [page [Hp [Hrect Hbox]]].
    destruct (Hpages page Hp) as [Hrend [Hx Hy]].
    destruct s as [box r]. cbn [fst snd] in *. subst r.
    now apply (detected_box_within_page page (95 # 100) ratio). }
  rewrite <- E1, <- E2.
  rewrite aggregate_margins_unfold
    by (intros s Hs'; apply box_within_page_usable; now apply Hwithin).
  destruct (spec_edge_range raw_left samples buffer Hs Hb)
    as [l [Hl [Hl0 [Hl1 Hl2]]]];
    [intros s Hs'; apply (box_within_page_raw s (Hwithin s Hs'))|].
  destruct (spec_edge_range raw_top samples buffer Hs Hb)
    as [t [Ht [Ht0 [Ht1 Ht2]]]];
    [intros s Hs'; apply (box_within_page_raw s (Hwithin s Hs'))|].
  destruct (spec_edge_range raw_right samples buffer Hs Hb)
    as [r [Hr [Hr0 [Hr1 Hr2]]]];
    [intros s Hs'; apply (box_within_page_raw s (Hwithin s Hs'))|].
  destruct (spec_edge_range raw_bottom samples buffer Hs Hb)
    as [b [Hbt [Hb0 [Hb1 Hb2]]]];
    [intros s Hs'; apply (box_within_page_raw s (Hwithin s Hs'))|].
  rewrite Hl, Ht, Hr, Hbt. cbn [bind].
  exists (mkMargins l t r b). cbn [m_left m_top m_right m_bottom].
  split; [reflexivity|]. split; [tauto|]. intros Hpos. auto.
Qed.

Lemma analyzed_margins_in_unit_interval_witness :
  exists m,
    analyze_pdf_margins [body_footer_page; body_footer_page] 99999999 (1 # 100) (1 # 10)
      = Some m
    /\ (0 <= m_left m <= 1 /\ 0 <= m_top m <= 1
        /\ 0 <= m_right m <= 1 /\ 0 <= m_bottom m <= 1)
    /\ m_left m < 1.
Proof.
  destruct (analyzed_margins_in_unit_interval
              [body_footer_page; body_footer_page] 99999999 (1 # 100) (1 # 10))
    as [m [Hm [Hrange Hlt]]].
  - discriminate.
  - lia.
  - unfold Qle; simpl; lia.
  - intros page [<-|[<-|[]]]; (split; [split; unfold Qle; simpl; lia|]);
      split; reflexivity.
  - exists m. split; [exact Hm|]. split; [exact Hrange|].
    apply Hlt. reflexivity.
Defined.

(** ** The percentile and the sorted samples *)

Lemma filter_insert_sorted (f : Q -> bool) (x : Q) (l : list Q) :
  length (filter f (insert_sorted x l)) = length (filter f (x :: l)).
Proof.
  induction l as [|y l IH]; [reflexivity|].
  cbn [insert_sorted]. destruct (Qle_bool x y); [reflexivity|].
  cbn [filter] in *. destruct (f y), (f x); cbn [length] in *; lia.
Qed.

Lemma filter_np_sort (f : Q -> bool) (a : list Q) :
  length (filter f (np_sort a)) = length (filter f a).
Proof.
  induction a as [|x a IH]; [reflexivity|].
  cbn [np_sort fold_right]. fold (np_sort a). rewrite filter_insert_sorted.
  cbn [filter]. destruct (f x); cbn [length]; now rewrite IH.
Qed.

Lemma insert_sorted_Forall (y x : Q) (l : list Q) :
  y <= x -> Forall (Qle y) l -> Forall (Qle y) (insert_sorted x l).
Proof.
  intros Hyx Hl. induction Hl as [|z l Hz Hl IH]; cbn [insert_sorted].
  - constructor; [exact Hyx|constructor].
  - destruct (Qle_bool x z); repeat constructor; auto.
Qed.

Lemma insert_sorted_sorted (x : Q) (l : list Q) :
  StronglySorted Qle l -> StronglySorted Qle (insert_sorted x l).
Proof.
  intros Hs. induction Hs as [|y l Hs IH Hy]; cbn [insert_sorted].
  - repeat constructor.
  - destruct (Qle_bool x y) eqn:E.
    + apply Qle_bool_iff in E. constructor; [now constructor|].
      constructor; [exact E|].
      eapply Forall_impl; [|exact Hy]. intros z Hz. lra.
    + assert (Hyx : y <= x).
      { destruct (Qlt_le_dec y x) as [H|H]; [lra|].
        apply Qle_bool_iff in H. congruence. }
      constructor; [exact IH|]. now apply insert_sorted_Forall.
Qed.

Lemma np_sort_sorted (a : list Q) : StronglySorted Qle (np_sort a).
Proof.
  induction a as [|x a IH]; [constructor|].
  cbn [np_sort fold_right]. now apply insert_sorted_sorted.
Qed.

Lemma sorted_nth_le (s : list Q) (i j : nat) (a b : Q) :
  StronglySorted Qle s -> (i <= j)%nat ->
  nth_error s i = Some a -> nth_error s j = Some b -> a <= b.
Proof.
  intros Hs. revert i j. induction Hs as [|x s Hs IH Hx]; intros i j Hij Ha Hb.
  - destruct i; discriminate.
  - destruct i as [|i], j as [|j]; cbn [nth_error] in *; try lia.
    + injection Ha as <-. injection Hb as <-. lra.
    + injection Ha as <-. apply nth_error_In in Hb.
      rewrite Forall_forall in Hx. now apply Hx.
    + apply (IH i j); auto; lia.
Qed.

Lemma below_false (p x : Q) : p <= x -> below p x = false.
Proof.
  intros H. unfold below. apply Qle_bool_iff in H. now rewrite H.
Qed.

Lemma below_true (p x : Q) : x < p -> below p x = true.
Proof.
  intros H. unfold below. destruct (Qle_bool p x) eqn:E; [|reflexivity].
  apply Qle_bool_iff in E. lra.
Qed.

Lemma filter_below_none (p : Q) (l : list Q) :
  (forall z, In z l -> p <= z) -> filter (below p) l = [].
Proof.
  induction l as [|x l IH]; intros H; [reflexivity|].
  cbn [filter]. rewrite below_false by (apply H; now left).
  apply IH. intros z Hz. apply H. now right.
Qed.

(** In a sorted array, fewer than [k + 1] entries lie below a value that is
    at most the entry of index [k]. *)
Lemma below_sorted (s : list Q) (k : nat) (v p : Q) :
  StronglySorted Qle s -> nth_error s k = Some v -> p <= v ->
  (length (filter (below p) s) <= k)%nat.
Proof.
  intros Hs. revert k. induction Hs as [|x s Hs IH Hx]; intros k Hk Hp.
  - destruct k; discriminate.
  - destruct k as [|k]; cbn [nth_error] in Hk.
    + injection Hk as ->.
      assert (E : filter (below p) (v :: s) = []).
      { apply filter_below_none. intros z [<-|Hz]; [exact Hp|].
        rewrite Forall_forall in Hx. specialize (Hx z Hz). lra. }
      rewrite E. simpl. lia.
    + cbn [filter]. specialize (IH k Hk Hp).
      destruct (below p x); cbn [length]; lia.
Qed.

Lemma quarter_index (n : Z) :
  Qfloor (inject_Z (n - 1) * (25 / 100)) = ((n - 1) / 4)%Z.
Proof.
  unfold Qfloor. cbn [Qmult Qdiv Qinv inject_Z Qnum Qden].
  change (Z.pos (1 * (1 * 100))) with (4 * 25)%Z.
  change (Qnum 25 * 1)%Z with 25%Z.
  now rewrite Z.div_mul_cancel_r by lia.
Qed.

(** The 25th percentile of a non-empty array reads the sorted array at the
    indices (n - 1) // 4 and one more (or the last one). *)
Lemma np_percentile_quartile (a : list Q) :
  a <> [] ->
  exists lo hi,
    np_percentile a 25 = Some (lo + (hi - lo) * quartile_weight (length a))
    /\ nth_error (np_sort a) ((length a - 1) / 4) = Some lo
    /\ nth_error (np_sort a) (Nat.min ((length a - 1) / 4 + 1) (length a - 1))
       = Some hi
    /\ 0 <= quartile_weight (length a) /\ quartile_weight (length a) < 1
    /\ lo <= hi.
Proof.
  intros Hne. unfold np_percentile.
  set (n := Z.of_nat (length a)).
  assert (Hn : (1 <= n)%Z) by (destruct a; [contradiction|unfold n; simpl; lia]).
  rewrite quarter_index.
  set (v := inject_Z (n - 1) * (25 / 100)).
  pose proof (Qfloor_le v) as Hfl. pose proof (Qlt_floor v) as Hfu.
  unfold v in Hfl, Hfu. rewrite quarter_index in Hfl, Hfu. fold v in Hfl, Hfu.
  assert (Hq : (0 <= (n - 1) / 4 <= n - 1)%Z).
  { split; [apply Z.div_pos; lia|]. apply Z.div_le_upper_bound; lia. }
  destruct (Z.ltb_spec ((n - 1) / 4) 0); [lia|].
  assert (E1 : Z.to_nat ((n - 1) / 4) = ((length a - 1) / 4)%nat).
  { unfold n. replace (Z.of_nat (length a) - 1)%Z with (Z.of_nat (length a - 1)) by lia.
    change 4%Z with (Z.of_nat 4). rewrite <- Nat2Z.inj_div. apply Nat2Z.id. }
  assert (E2 : Z.to_nat (Z.min ((n - 1) / 4 + 1) (n - 1))
               = Nat.min ((length a - 1) / 4 + 1) (length a - 1)).
  { rewrite Z2Nat.inj_min, Z2Nat.inj_add, E1 by lia. unfold n.
    f_equal. lia. }
  rewrite E1, E2.
  assert (Hk : ((length a - 1) / 4 <= length a - 1)%nat)
    by (apply Nat.Div0.div_le_upper_bound; lia).
  assert (Hlen : (0 < length a)%nat) by (unfold n in Hn; lia).
  destruct (nth_error (np_sort a) ((length a - 1) / 4)) as [lo|] eqn:Hlo.
  2:{ apply nth_error_None in Hlo. rewrite np_sort_length in Hlo. lia. }
  destruct (nth_error (np_sort a) (Nat.min ((length a - 1) / 4 + 1) (length a - 1)))
    as [hi|] eqn:Hhi.
  2:{ apply nth_error_None in Hhi. rewrite np_sort_length in Hhi. lia. }
  cbn [bind]. exists lo, hi.
  change (quartile_weight (length a)) with (v - inject_Z ((n - 1) / 4)).
  split; [reflexivity|]. split; [reflexivity|]. split; [reflexivity|].
  rewrite inject_Z_plus in Hfu. change (inject_Z 1) with 1 in Hfu.
  split; [lra|]. split; [lra|].
  apply (sorted_nth_le (np_sort a) ((length a - 1) / 4)
           (Nat.min ((length a - 1) / 4 + 1) (length a - 1)));
    auto using np_sort_sorted. lia.
Qed.

Lemma filter_length_le {A : Type} (f g : A -> bool) (l : list A) :
  (forall x, f x = true -> g x = true) ->
  (length (filter f l) <= length (filter g l))%nat.
Proof.
  intros H. induction l as [|x l IH]; [reflexivity|].
  cbn [filter]. destruct (f x) eqn:E.
  - rewrite (H x E). cbn [length]. lia.
  - destruct (g x); cbn [length]; lia.
Qed.

Lemma filter_map_length {A B : Type} (f : B -> bool) (g : A -> B) (l : list A) :
  length (filter f (map g l)) = length (filter (fun x => f (g x)) l).
Proof.
  induction l as [|x l IH]; [reflexivity|].
  cbn [map filter]. destruct (f (g x)); cbn [length]; now rewrite IH.
Qed.

Lemma below_le (p q x : Q) : p <= q -> below p x = true -> below q x = true.
Proof.
  intros Hpq H. unfold below in *. destruct (Qle_bool q x) eqn:E; [|reflexivity].
  apply Qle_bool_iff in E. apply negb_true_iff in H.
  assert (Hpx : p <= x) by lra. apply Qle_bool_iff in Hpx. congruence.
Qed.

(** The margin of one edge cuts into few samples. *)
Lemma spec_edge_cuts (raw : PageSample -> Q) (samples : list PageSample)
      (buffer v : Q) :
  samples <> [] -> 0 <= buffer ->
  spec_edge raw samples buffer = Some v ->
  (pages_cut raw v samples <= (length samples - 1) / 4 + 1)%nat
  /\ (pages_cut raw v samples <= length samples - 1)%nat.
Proof.
  intros Hne Hb Hv. unfold spec_edge in Hv. fold (clamped raw samples) in Hv.
  assert (Hcne : clamped raw samples <> [])
    by (unfold clamped; destruct samples; [contradiction|discriminate]).
  destruct (np_percentile_quartile (clamped raw samples) Hcne)
    as [lo [hi [Hp [Hlo [Hhi [Hg0 [Hg1 Hle]]]]]]].
  set (g := quartile_weight (length (clamped raw samples))) in *.
  rewrite Hp in Hv. cbn [bind] in Hv. injection Hv as <-.
  assert (Hlo0 : 0 <= lo).
  { apply nth_error_In, np_sort_in in Hlo. unfold clamped in Hlo.
    apply in_map_iff in Hlo. destruct Hlo as [s [<- _]]. apply py_max_lower. }
  assert (Hph : lo + (hi - lo) * g <= hi) by nra.
  assert (Hvh : py_max 0 (lo + (hi - lo) * g - buffer) <= hi)
    by (apply py_max_upper; nra).
  assert (Hcount : (pages_cut raw (py_max 0 (lo + (hi - lo) * g - buffer)) samples
                    <= Nat.min ((length (clamped raw samples) - 1) / 4 + 1)
                               (length (clamped raw samples) - 1))%nat).
  { unfold pages_cut.
    rewrite <- (filter_map_length (below _) (fun s => py_max 0 (raw s))).
    fold (clamped raw samples). rewrite <- filter_np_sort.
    eapply below_sorted; [apply np_sort_sorted|exact Hhi|exact Hvh]. }
  unfold clamped in Hcount. rewrite length_map in Hcount. lia.
Qed.

(** X6: for a non-empty sample set and a buffer >= 0, on each edge the
    suggested margin is greater than the clamped margin of at most
    (n - 1) // 4 + 1 of the n samples, and never of all of them. *)
Theorem suggested_margins_cut_few_pages (samples : list PageSample) (buffer : Q) :
  samples <> [] -> 0 <= buffer ->
  (forall s, In s samples -> usable_page s) ->
  let bound := Nat.min ((length samples - 1) / 4 + 1) (length samples - 1) in
  exists m,
    aggregate_margins (map fst samples) (map snd samples) buffer = Some m
    /\ (pages_cut raw_left (m_left m) samples <= bound)%nat
    /\ (pages_cut raw_top (m_top m) samples <= bound)%nat
    /\ (pages_cut raw_right (m_right m) samples <= bound)%nat
    /\ (pages_cut raw_bottom (m_bottom m) samples <= bound)%nat.
Proof.
  intros Hne Hb Hok bound. rewrite (aggregate_margins_unfold samples buffer Hok).
  destruct (spec_edge_some raw_left samples buffer Hne) as [l Hl].
  destruct (spec_edge_some raw_top samples buffer Hne) as [t Ht].
  destruct (spec_edge_some raw_right samples buffer Hne) as [r Hr].
  destruct (spec_edge_some raw_bottom samples buffer Hne) as [b Hbt].
  rewrite Hl, Ht, Hr, Hbt. cbn [bind].
  exists (mkMargins l t r b). cbn [m_left m_top m_right m_bottom].
  split; [reflexivity|].
  destruct (spec_edge_cuts _ _ _ _ Hne Hb Hl).
  destruct (spec_edge_cuts _ _ _ _ Hne Hb Ht).
  destruct (spec_edge_cuts _ _ _ _ Hne Hb Hr).
  destruct (spec_edge_cuts _ _ _ _ Hne Hb Hbt).
  unfold bound. repeat split; lia.
Qed.

Lemma suggested_margins_cut_few_pages_witness :
  exists m,
    aggregate_margins (map fst two_samples) (map snd two_samples) (1 # 100) = Some m
    /\ (pages_cut raw_left (m_left m) two_samples <= 1)%nat.
Proof.
  destruct (suggested_margins_cut_few_pages two_samples (1 # 100))
    as [m [Hm [Hl _]]].
  - discriminate.
  - unfold Qle; simpl; lia.
  - intros s [<-|[<-|[]]]; split; vm_compute; discriminate.
  - exists m. split; [exact Hm|exact Hl].
Defined.

(** ** The order of the samples does not matter *)

Lemma at_most_true (p x : Q) : x <= p -> at_most p x = true.
Proof. intros H. unfold at_most. now apply Qle_bool_iff. Qed.

(** In a sorted array, at least [k + 1] entries are at most a value that is
    not less than the entry of index [k]. *)
Lemma at_most_sorted (s : list Q) (k : nat) (v p : Q) :
  StronglySorted Qle s -> nth_error s k = Some v -> v <= p ->
  (k + 1 <= length (filter (at_most p) s))%nat.
Proof.
  intros Hs. revert k. induction Hs as [|x s Hs IH Hx]; intros k Hk Hp.
  - destruct k; discriminate.
  - destruct k as [|k]; cbn [nth_error] in Hk; cbn [filter].
    + injection Hk as ->. rewrite at_most_true by exact Hp. cbn [length]. lia.
    + assert (Hxv : x <= v).
      { rewrite Forall_forall in Hx. apply Hx. eapply nth_error_In; eauto. }
      rewrite at_most_true by lra. cbn [length]. specialize (IH k Hk Hp). lia.
Qed.

Lemma filter_length_perm {A : Type} (f : A -> bool) (l l' : list A) :
  Permutation l l' -> length (filter f l) = length (filter f l').
Proof.
  intros H. induction H as [|x l l' H IH|x y l|l l' l'' H1 IH1 H2 IH2].
  - reflexivity.
  - cbn [filter]. destruct (f x); cbn [length]; now rewrite IH.
  - cbn [filter]. destruct (f x), (f y); reflexivity.
  - now rewrite IH1.
Qed.

Lemma sorted_entry_le (a a' : list Q) (k : nat) (v v' : Q) :
  Permutation a a' ->
  nth_error (np_sort a) k = Some v -> nth_error (np_sort a') k = Some v' ->
  v' <= v.
Proof.
  intros Hperm Hv Hv'. destruct (Qlt_le_dec v v') as [Hlt|Hle]; [exfalso|exact Hle].
  pose proof (at_most_sorted (np_sort a) k v v (np_sort_sorted a) Hv ltac:(lra))
    as H1.
  pose proof (below_sorted (np_sort a') k v' v' (np_sort_sorted a') Hv' ltac:(lra))
    as H2.
  rewrite filter_np_sort in H1, H2.
  rewrite <- (filter_length_perm (below v') a a' Hperm) in H2.
  pose proof (filter_length_le (at_most v) (below v') a) as H3.
  assert (H4 : (length (filter (at_most v) a) <= length (filter (below v') a))%nat).
  { apply H3. intros x Hx. unfold at_most in Hx. apply Qle_bool_iff in Hx.
    apply below_true. lra. }
  lia.
Qed.

(** Sorting two arrangements of the same values gives equal entries. *)
Lemma sorted_entry_eq (a a' : list Q) (k : nat) (v v' : Q) :
  Permutation a a' ->
  nth_error (np_sort a) k = Some v -> nth_error (np_sort a') k = Some v' ->
  v == v'.
Proof.
  intros Hperm Hv Hv'.
  pose proof (sorted_entry_le a a' k v v' Hperm Hv Hv').
  pose proof (sorted_entry_le a' a k v' v (Permutation_sym Hperm) Hv' Hv).
  lra.
Qed.

Lemma np_percentile_perm (a a' : list Q) (p : Q) :
  Permutation a a' -> np_percentile a 25 = Some p ->
  exists p', np_percentile a' 25 = Some p' /\ p == p'.
Proof.
  intros Hperm Hp.
  assert (Hne : a <> []) by (intros ->; discriminate).
  assert (Hne' : a' <> []).
  { intros ->. apply Permutation_sym, Permutation_nil in Hperm. contradiction. }
  pose proof (Permutation_length Hperm) as Hlen.
  destruct (np_percentile_quartile a Hne) as [lo [hi [Ha [Hlo [Hhi _]]]]].
  destruct (np_percentile_quartile a' Hne') as [lo' [hi' [Ha' [Hlo' [Hhi' _]]]]].
  rewrite <- Hlen in Ha', Hlo', Hhi'.
  rewrite Ha in Hp. injection Hp as <-.
  exists (lo' + (hi' - lo') * quartile_weight (length a)). split; [exact Ha'|].
  rewrite (sorted_entry_eq a a' _ lo lo' Hperm Hlo Hlo').
  rewrite (sorted_entry_eq a a' _ hi hi' Hperm Hhi Hhi').
  reflexivity.
Qed.

Lemma py_max_eq (a b b' : Q) : b == b' -> py_max a b == py_max a b'.
Proof.
  intros E. unfold py_max.
  destruct (Qlt_le_dec a b), (Qlt_le_dec a b'); lra.
Qed.

Lemma spec_edge_perm (raw : PageSample -> Q) (samples samples' : list PageSample)
      (buffer v : Q) :
  Permutation samples samples' ->
  spec_edge raw samples buffer = Some v ->
  exists v', spec_edge raw samples' buffer = Some v' /\ v == v'.
Proof.
  intros Hperm Hv. unfold spec_edge in *.
  destruct (np_percentile (map (fun s => py_max 0 (raw s)) samples) 25)
    as [p|] eqn:Hp; [|discriminate].
  cbn [bind] in Hv. injection Hv as <-.
  destruct (np_percentile_perm _ _ p
              (Permutation_map (fun s => py_max 0 (raw s)) Hperm) Hp)
    as [p' [Hp' E]].
  rewrite Hp'. cbn [bind]. eexists. split; [reflexivity|].
  apply py_max_eq. now rewrite E.
Qed.

(** X7: the suggested margins do not depend on the order of the samples:
    the aggregator returns equal margins on any rearrangement of the list. *)
Theorem aggregate_order_independent (samples samples' : list PageSample)
        (buffer : Q) (m : MarginSet) :
  Permutation samples samples' ->
  (forall s, In s samples -> usable_page s) ->
  aggregate_margins (map fst samples) (map snd samples) buffer = Some m ->
  exists m',
    aggregate_margins (map fst samples') (map snd samples') buffer = Some m'
    /\ m_left m == m_left m' /\ m_top m == m_top m'
    /\ m_right m == m_right m' /\ m_bottom m == m_bottom m'.
Proof.
  intros Hperm Hok Hm.
  assert (Hok' : forall s, In s samples' -> usable_page s).
  { intros s Hs. apply Hok. eapply Permutation_in; [|exact Hs].
    now apply Permutation_sym. }
  rewrite (aggregate_margins_unfold samples buffer Hok) in Hm.
  rewrite (aggregate_margins_unfold samples' buffer Hok').
  destruct (spec_edge raw_left samples buffer) as [l|] eqn:Hl; [|discriminate].
  destruct (spec_edge raw_top samples buffer) as [t|] eqn:Ht; [|discriminate].
  destruct (spec_edge raw_right samples buffer) as [r|] eqn:Hr; [|discriminate].
  destruct (spec_edge raw_bottom samples buffer) as [b|] eqn:Hb; [|discriminate].
  cbn [bind] in Hm. injection Hm as <-.
  destruct (spec_edge_perm _ _ _ _ _ Hperm Hl) as [l' [-> El]].
  destruct (spec_edge_perm _ _ _ _ _ Hperm Ht) as [t' [-> Et]].
  destruct (spec_edge_perm _ _ _ _ _ Hperm Hr) as [r' [-> Er]].
  destruct (spec_edge_perm _ _ _ _ _ Hperm Hb) as [b' [-> Eb]].
  cbn [bind]. exists (mkMargins l' t' r' b'). cbn [m_left m_top m_right m_bottom].
  repeat split; assumption.
Qed.

Lemma aggregate_order_independent_witness :
  exists m m',
    aggregate_margins (map fst two_samples) (map snd two_samples) (1 # 100) = Some m
    /\ aggregate_margins (map fst two_samples_swapped) (map snd two_samples_swapped)
                         (1 # 100) = Some m'
    /\ m_left m == m_left m' /\ m_bottom m == m_bottom m'.
Proof.
  destruct (aggregate_margins (map fst two_samples) (map snd two_samples) (1 # 100))
    as [m|] eqn:Hm; [|vm_compute in Hm; discriminate].
  destruct (aggregate_order_independent two_samples two_samples_swapped (1 # 100) m)
    as [m' [Hm' [El [_ [_ Eb]]]]].
  - apply perm_swap.
  - intros s [<-|[<-|[]]]; split; vm_compute; discriminate.
  - exact Hm.
  - exists m, m'. split; [reflexivity|]. split; [exact Hm'|]. split; assumption.
Defined.

(** X8: when the clamped margin of an edge is the same on every sample,
    the suggested margin of that edge is that value minus the buffer,
    clamped at 0. *)
Theorem uniform_samples_margin (samples : list PageSample) (buffer l t r b : Q) :
  samples <> [] ->
  (forall s, In s samples -> usable_page s) ->
  (forall s, In s samples ->
     py_max 0 (raw_left s) == l /\ py_max 0 (raw_top s) == t
     /\ py_max 0 (raw_right s) == r /\ py_max 0 (raw_bottom s) == b) ->
  exists m,
    aggregate_margins (map fst samples) (map snd samples) buffer = Some m
    /\ m_left m == py_max 0 (l - buffer) /\ m_top m == py_max 0 (t - buffer)
    /\ m_right m == py_max 0 (r - buffer) /\ m_bottom m == py_max 0 (b - buffer).
Proof.
  intros Hne Hok Hsame. rewrite (aggregate_margins_unfold samples buffer Hok).
  assert (Hedge : forall raw v,
            (forall s, In s samples -> py_max 0 (raw s) == v) ->
            exists p, spec_edge raw samples buffer = Some p
                      /\ p == py_max 0 (v - buffer)).
  { intros raw v Hv. unfold spec_edge.
    destruct (np_percentile_bounds (map (fun s => py_max 0 (raw s)) samples) v v)
      as [p [Hp [Hp0 Hp1]]].
    - destruct samples; [contradiction|discriminate].
    - intros x Hx. apply in_map_iff in Hx. destruct Hx as [s [<- Hs]].
      rewrite (Hv s Hs). split; apply Qle_refl.
    - rewrite Hp. cbn [bind]. eexists. split; [reflexivity|].
      apply py_max_eq. lra. }
  destruct (Hedge raw_left l) as [pl [-> El]]; [intros s Hs; apply (Hsame s Hs)|].
  destruct (Hedge raw_top t) as [pt [-> Et]]; [intros s Hs; apply (Hsame s Hs)|].
  destruct (Hedge raw_right r) as [pr [-> Er]]; [intros s Hs; apply (Hsame s Hs)|].
  destruct (Hedge raw_bottom b) as [pb [-> Eb]]; [intros s Hs; apply (Hsame s Hs)|].
  cbn [bind]. eexists. split; [reflexivity|]. cbn [m_left m_top m_right m_bottom].
  repeat split; assumption.
Qed.

Lemma uniform_samples_margin_witness :
  exists m,
    aggregate_margins (map fst uniform_samples) (map snd uniform_samples) (1 # 100)
      = Some m
    /\ m_left m == py_max 0 ((1 # 10) - (1 # 100))
    /\ m_top m == py_max 0 ((1 # 6) - (1 # 100)).
Proof.
  destruct (uniform_samples_margin uniform_samples (1 # 100)
              (1 # 10) (1 # 6) (1 # 10) (1 # 6)) as [m [Hm [El [Et _]]]].
  - discriminate.
  - intros s Hs. apply repeat_spec in Hs. subst s. split; vm_compute; discriminate.
  - intros s Hs. apply repeat_spec in Hs. subst s. repeat split.
  - exists m. split; [exact Hm|]. split; assumption.
Defined.

(** ** Scaling and placing a page in the canvas *)

(** The transform of a page of the document, with what the canvas
    guarantees about its crop. *)
Lemma page_transform_in_doc (doc : list Page) (m : MarginSet) (page : Page) :
  In page doc ->
  let W := fst (first_pass doc m 0 0) in
  let H := snd (first_pass doc m 0 0) in
  let cw := width (crop_box (rect page) m) in
  let ch := height (crop_box (rect page) m) in
  exists sx sy,
    page_transform (rect page) m W H =
      Some (mkTransform sx sy (py_min sx sy)
              ((W - cw * py_min sx sy) / 2) ((H - ch * py_min sx sy) / 2)
              (crop_box (rect page) m)
              (mkRect ((W - cw * py_min sx sy) / 2) ((H - ch * py_min sx sy) / 2)
                      ((W - cw * py_min sx sy) / 2 + cw * py_min sx sy)
                      ((H - ch * py_min sx sy) / 2 + ch * py_min sx sy)))
    /\ 0 <= cw /\ 0 <= ch /\ cw <= W /\ ch <= H
    /\ 1 <= sx /\ 1 <= sy
    /\ (0 < cw -> cw * sx == W) /\ (0 < ch -> ch * sy == H).
Proof.
  intros Hin W H cw ch.
  destruct (first_pass_bounds doc m 0 0) as [HW [HH Hall]].
  destruct (Hall page Hin) as [Hcw Hch].
  fold W in HW, Hcw. fold H in HH, Hch.
  destruct (page_transform_total (rect page) m W H) as [sx [sy [Hx [Hy Ht]]]].
  fold cw in Hx, Ht. fold ch in Hy, Ht.
  assert (Hcw0 : 0 <= cw) by apply width_nonneg.
  assert (Hch0 : 0 <= ch) by apply height_nonneg.
  assert (Hcw1 : cw <= W)
    by (unfold cw; rewrite width_crop_box; now apply py_max_upper).
  assert (Hch1 : ch <= H)
    by (unfold ch; rewrite height_crop_box; now apply py_max_upper).
  destruct (scale_along_fits _ _ _ HW Hcw0 Hcw1 Hx) as [Hsx1 [_ Hsxe]].
  destruct (scale_along_fits _ _ _ HH Hch0 Hch1 Hy) as [Hsy1 [_ Hsye]].
  exists sx, sy. split; [exact Ht|]. repeat split; assumption.
Qed.


(** X9: a page of the document is never shrunk to fit the canvas: its
    scale factors along x and y, and the scale used, are all >= 1. *)
Theorem pages_never_shrunk (doc : list Page) (m : MarginSet) (page : Page) :
  In page doc ->
  exists t,
    page_transform (rect page) m (fst (first_pass doc m 0 0))
                   (snd (first_pass doc m 0 0)) = Some t
    /\ 1 <= scale_x t /\ 1 <= scale_y t /\ 1 <= scale t.
Proof.
  intros Hin.
  destruct (page_transform_in_doc doc m page Hin)
    as [sx [sy [Ht [_ [_ [_ [_ [Hsx [Hsy _]]]]]]]]].
  eexists. split; [exact Ht|]. cbn [scale_x scale_y scale].
  split; [exact Hsx|]. split; [exact Hsy|].
  destruct (py_min_cases sx sy) as [[-> _]|[-> _]]; assumption.
Qed.

Lemma pages_never_shrunk_witness :
  In small_page mixed_doc
  /\ exists t,
       page_transform (rect small_page) tenth_margins
                      (fst (first_pass mixed_doc tenth_margins 0 0))
                      (snd (first_pass mixed_doc tenth_margins 0 0)) = Some t
       /\ 1 <= scale t.
Proof.
  assert (Hin : In small_page mixed_doc) by (right; left; reflexivity).
  split; [exact Hin|].
  destruct (pages_never_shrunk mixed_doc tenth_margins small_page Hin)
    as [t [Ht [_ [_ Hs]]]].
  exists t. split; [exact Ht|exact Hs].
Defined.



(** ** Margins that leave nothing of a page *)









(** ** Pages of the canvas size *)

(** X12: a page whose crop rectangle has exactly the canvas width and the
    canvas height, both positive, is pasted with scale 1 over the whole
    canvas. *)
Theorem page_of_canvas_size_unscaled (page_rect : Rect) (m : MarginSet) (W H : Q) :
  0 < W -> 0 < H ->
  width (crop_box page_rect m) == W -> height (crop_box page_rect m) == H ->
  exists t,
    page_transform page_rect m W H = Some t
    /\ scale t == 1
    /\ x0 (target_rect t) == 0 /\ y0 (target_rect t) == 0
    /\ x1 (target_rect t) == W /\ y1 (target_rect t) == H.
Proof.
  intros HW HH Ew Eh.
  destruct (page_transform_total page_rect m W H) as [sx [sy [Hx [Hy Ht]]]].
  set (cw := width (crop_box page_rect m)) in *.
  set (ch := height (crop_box page_rect m)) in *.
  assert (Esx : sx == 1).
  { destruct (scale_along_cases W cw) as [[Hpos E]|[Hneg _]]; [|lra].
    rewrite E in Hx. injection Hx as <-. rewrite Ew. field. lra. }
  assert (Esy : sy == 1).
  { destruct (scale_along_cases H ch) as [[Hpos E]|[Hneg _]]; [|lra].
    rewrite E in Hy. injection Hy as <-. rewrite Eh. field. lra. }
  assert (Es : py_min sx sy == 1)
    by (destruct (py_min_cases sx sy) as [[-> _]|[-> _]]; assumption).
  eexists. split; [exact Ht|]. cbn [scale target_rect x0 y0 x1 y1].
  split; [exact Es|]. rewrite Es, Ew, Eh. repeat split; field.
Qed.

Lemma page_of_canvas_size_unscaled_witness :
  exists t,
    page_transform (rect letter_page) tenth_margins
                   (fst (first_pass uniform_doc tenth_margins 0 0))
                   (snd (first_pass uniform_doc tenth_margins 0 0)) = Some t
    /\ scale t == 1 /\ x0 (target_rect t) == 0
    /\ x1 (target_rect t) == fst (first_pass uniform_doc tenth_margins 0 0).
Proof.
  destruct (page_of_canvas_size_unscaled (rect letter_page) tenth_margins
              (fst (first_pass uniform_doc tenth_margins 0 0))
              (snd (first_pass uniform_doc tenth_margins 0 0)))
    as [t [Ht [Hs [A [_ [B _]]]]]]; try reflexivity.
  exists t. split; [exact Ht|]. split; [exact Hs|]. split; [exact A|exact B].
Defined.

(** ** The canvas and the largest page *)





(** ** More on the explicit-rectangle mode *)

Module ManualCropEdges.

Import PDFCropGUI.

Lemma clamp_range (v w : Q) : 0 <= w -> 0 <= py_max 0 (py_min v w) <= w.
Proof.
  intros Hw. unfold py_max, py_min.
  destruct (Qlt_le_dec w v); destruct (Qlt_le_dec 0 _); split; lra.
Qed.

Lemma clamp_monotone (v v' w : Q) :
  v <= v' -> py_max 0 (py_min v w) <= py_max 0 (py_min v' w).
Proof.
  intros H. unfold py_max, py_min.
  destruct (Qlt_le_dec w v), (Qlt_le_dec w v');
    repeat match goal with |- context [Qlt_le_dec ?a ?b] =>
                             destruct (Qlt_le_dec a b) end; lra.
Qed.

Lemma pydiv_inv (a b q : Q) : pydiv a b = Some q -> ~ b == 0 /\ q = a / b.
Proof.
  unfold pydiv. destruct (Qeq_bool b 0) eqn:E; [discriminate|].
  intros H. injection H as <-. split; [|reflexivity].
  intros Hb. apply Qeq_bool_iff in Hb. congruence.
Qed.

Lemma div_monotone (a b s : Q) : 0 < s -> a <= b -> a / s <= b / s.
Proof.
  intros Hs Hab. unfold Qdiv. apply Qmult_le_compat_r; [exact Hab|].
  apply Qlt_le_weak, Qinv_lt_0_compat, Hs.
Qed.

(** X14: the crop rectangle computed from the selection is clamped to the
    current page: its four coordinates lie between 0 and the page width
    (height); and with a positive render scale and a selection of
    non-negative width and height it is a valid rectangle, no larger than
    the page. *)
Theorem pdf_crop_rect_clamped (self : Gui) (view_rect : QRectF) (crop : Rect) :
  pdf_crop_rect self view_rect = Some crop ->
  (0 <= x0 crop <= width (page_rect self) /\ 0 <= x1 crop <= width (page_rect self)
   /\ 0 <= y0 crop <= height (page_rect self)
   /\ 0 <= y1 crop <= height (page_rect self))
  /\ (0 < render_scale_factor self ->
      0 <= qwidth view_rect -> 0 <= qheight view_rect ->
      x0 crop <= x1 crop /\ y0 crop <= y1 crop
      /\ width crop <= width (page_rect self)
      /\ height crop <= height (page_rect self)).
Proof.
  unfold pdf_crop_rect. intros H.
  destruct (pydiv (qx view_rect) _) as [a|] eqn:Ha; [|discriminate].
  destruct (pydiv (qy view_rect) _) as [b|] eqn:Hb; [|discriminate].
  destruct (pydiv (qx view_rect + qwidth view_rect) _) as [c|] eqn:Hc; [|discriminate].
  destruct (pydiv (qy view_rect + qheight view_rect) _) as [d|] eqn:Hd; [|discriminate].
  cbn [bind] in H. injection H as <-. cbn [x0 y0 x1 y1].
  pose proof (width_nonneg (page_rect self)) as Hw.
  pose proof (height_nonneg (page_rect self)) as Hh.
  pose proof (clamp_range a _ Hw). pose proof (clamp_range c _ Hw).
  pose proof (clamp_range b _ Hh). pose proof (clamp_range d _ Hh).
  split; [tauto|]. intros Hs Hqw Hqh.
  apply pydiv_inv in Ha, Hb, Hc, Hd.
  destruct Ha as [_ ->], Hb as [_ ->], Hc as [_ ->], Hd as [_ ->].
  assert (Hx : py_max 0 (py_min (qx view_rect / render_scale_factor self)
                                (width (page_rect self)))
               <= py_max 0 (py_min ((qx view_rect + qwidth view_rect)
                                    / render_scale_factor self)
                                   (width (page_rect self))))
    by (apply clamp_monotone, div_monotone; lra).
  assert (Hy : py_max 0 (py_min (qy view_rect / render_scale_factor self)
                                (height (page_rect self)))
               <= py_max 0 (py_min ((qy view_rect + qheight view_rect)
                                    / render_scale_factor self)
                                   (height (page_rect self))))
    by (apply clamp_monotone, div_monotone; lra).
  split; [exact Hx|]. split; [exact Hy|].
  set (X0 := py_max 0 (py_min (qx view_rect / _) _)) in *.
  set (X1 := py_max 0 (py_min ((qx view_rect + _) / _) _)) in *.
  set (Y0 := py_max 0 (py_min (qy view_rect / _) _)) in *.
  set (Y1 := py_max 0 (py_min ((qy view_rect + _) / _) _)) in *.
  split; [unfold width at 1|unfold height at 1]; cbn [x0 y0 x1 y1];
    apply py_max_upper; lra.
Qed.

Lemma pdf_crop_rect_clamped_witness :
  exists crop,
    pdf_crop_rect (sample_gui 1 5) (mkQRectF 100 100 2000 1400) = Some crop
    /\ 0 <= x0 crop /\ x1 crop <= width (page_rect (sample_gui 1 5))
    /\ x0 crop <= x1 crop.
Proof.
  destruct (pdf_crop_rect (sample_gui 1 5) (mkQRectF 100 100 2000 1400))
    as [crop|] eqn:Hc; [|vm_compute in Hc; discriminate].
  destruct (pdf_crop_rect_clamped _ _ _ Hc) as [[[A _] [[_ B] _]] Hvalid].
  exists crop. split; [reflexivity|]. split; [exact A|]. split; [exact B|].
  apply Hvalid; [reflexivity| |]; unfold Qle; simpl; lia.
Defined.

(** *** Rounding of page sizes *)

Lemma py_round_near (x : Q) (n : Z) :
  inject_Z n - (1 # 2) < x -> x < inject_Z n + (1 # 2) -> py_round x = n.
Proof.
  intros Hlo Hhi. unfold py_round.
  pose proof (Qfloor_le x) as Hfl. pose proof (Qlt_floor x) as Hfu.
  rewrite inject_Z_plus in Hfu. change (inject_Z 1) with 1 in Hfu.
  assert (Hf : (Qfloor x = n \/ Qfloor x = n - 1)%Z).
  { assert (H1 : inject_Z (Qfloor x) < inject_Z (n + 1))
      by (rewrite inject_Z_plus; change (inject_Z 1) with 1; lra).
    assert (H2 : inject_Z (n - 2) < inject_Z (Qfloor x)).
    { unfold Zminus. rewrite inject_Z_plus. change (inject_Z (- (2))) with (-2 # 1).
      lra. }
    rewrite <- Zlt_Qlt in H1, H2. lia. }
  destruct Hf as [E|E]; rewrite E in *.
  - assert (Hc : Qcompare (x - inject_Z n) (1 # 2) = Lt)
      by (apply (proj1 (Qlt_alt _ _)); lra).
    now rewrite Hc.
  - assert (Hn : inject_Z (n - 1) == inject_Z n - 1).
    { unfold Zminus. rewrite inject_Z_plus. change (inject_Z (- (1))) with (-1 # 1).
      ring. }
    assert (Hc : Qcompare (x - inject_Z (n - 1)) (1 # 2) = Gt)
      by (apply (proj1 (Qgt_alt _ _)); lra).
    rewrite Hc. lia.
Qed.

(** X15: a page whose width and height are each within less than half a
    point of the integers w and h has the rounded size (w, h): sizes that
    differ by such jitter fall into one bucket. *)
Theorem rounded_size_absorbs_jitter (page : Page) (w h : Z) :
  inject_Z w - (1 # 2) < width (rect page) < inject_Z w + (1 # 2) ->
  inject_Z h - (1 # 2) < height (rect page) < inject_Z h + (1 # 2) ->
  rounded_size page = (w, h).
Proof.
  intros [Hw1 Hw2] [Hh1 Hh2]. unfold rounded_size.
  now rewrite (py_round_near _ w Hw1 Hw2), (py_round_near _ h Hh1 Hh2).
Qed.

Lemma rounded_size_absorbs_jitter_witness :
  rounded_size jittered_page = (600, 800)%Z
  /\ rounded_size jittered_page = rounded_size letter_page.
Proof.
  assert (H : rounded_size jittered_page = (600, 800)%Z).
  { apply rounded_size_absorbs_jitter; split; reflexivity. }
  split; [exact H|]. rewrite H. reflexivity.
Defined.

(** *** How many pages are cropped *)

Lemma saved_inversion (self : Gui) (output_path : String.string)
      (out : list OutPage) (c u : nat) (mcs : Size) (mcc : nat) :
  crop_pdf self output_path = Saved out c u mcs mcc ->
  exists view_rect crop,
    view_crop_rect self = Some view_rect
    /\ pdf_crop_rect self view_rect = Some crop
    /\ nth_error (most_common_1 (Counter (map rounded_size (doc self)))) 0
       = Some (mcs, mcc)
    /\ crop_loop (doc self) 0 (min_page self) (max_page self) mcs crop [] 0 0
       = (out, c, u).
Proof.
  unfold crop_pdf. intros H.
  destruct (view_crop_rect self) as [view_rect|]; [|discriminate].
  destruct (negb (qrect_bool view_rect)); [discriminate|].
  destruct output_path as [|ch rest]; [discriminate|].
  destruct (crop_body self view_rect) as [[[[[o c'] u'] sz] n]|] eqn:Hbody;
    [|discriminate].
  injection H as -> -> -> -> ->.
  unfold crop_body in Hbody.
  destruct (pdf_crop_rect self view_rect) as [crop|] eqn:Hcrop; [|discriminate].
  cbn [bind] in Hbody.
  destruct (nth_error _ 0) as [[mcs' mcc']|] eqn:Htop; [|discriminate].
  cbn [bind] in Hbody.
  destruct (log_lines self crop mcc' (length (doc self))); [|discriminate].
  cbn [bind] in Hbody.
  destruct (crop_loop _ _ _ _ _ _ _ _ _) as [[o' c''] u''] eqn:Hloop.
  injection Hbody as <- <- <- <- <-.
  exists view_rect, crop. repeat split; auto.
Qed.

Lemma count_eligible_le_seen (lo hi : Z) (mcs : Size) (pages : list Page) :
  forall page_num,
    (count_eligible lo hi mcs pages page_num
     <= times_seen mcs (map rounded_size pages))%nat.
Proof.
  induction pages as [|p pages IH]; intros page_num; [reflexivity|].
  cbn [count_eligible map]. unfold times_seen in *. cbn [filter].
  specialize (IH (S page_num)).
  destruct (eligible lo hi mcs page_num p) eqn:E.
  - apply ManualCrop.eligible_iff in E. destruct E as [_ E].
    rewrite E, ManualCrop.size_eqb_refl. cbn [length]. lia.
  - destruct (size_eqb mcs (rounded_size p)); cbn [length]; lia.
Qed.

Lemma count_eligible_empty_range (lo hi : Z) (mcs : Size) (pages : list Page) :
  (hi < lo)%Z -> forall page_num, count_eligible lo hi mcs pages page_num = 0%nat.
Proof.
  intros H. induction pages as [|p pages IH]; intros page_num; [reflexivity|].
  cbn [count_eligible]. rewrite IH.
  destruct (eligible lo hi mcs page_num p) eqn:E; [|reflexivity].
  apply ManualCrop.eligible_iff in E. lia.
Qed.

Lemma count_eligible_range (lo hi : Z) (mcs : Size) (pages : list Page) :
  forall page_num,
    (Z.of_nat (count_eligible lo hi mcs pages page_num)
     <= Z.max 0 (hi - Z.max lo (Z.of_nat page_num + 1) + 1))%Z.
Proof.
  induction pages as [|p pages IH]; intros page_num; [simpl; lia|].
  cbn [count_eligible]. specialize (IH (S page_num)).
  destruct (eligible lo hi mcs page_num p) eqn:E.
  - apply ManualCrop.eligible_iff in E. lia.
  - lia.
Qed.

(** X16: when the crop saves, the number of cropped pages is at most the
    number of pages of the most common size and at most the length
    max_page - min_page + 1 of the page range; with an empty range
    (max_page < min_page) no page is cropped and all are carried over. *)
Theorem cropped_pages_bounded (self : Gui) (output_path : String.string)
        (out : list OutPage) (cropped_pages unchanged_pages : nat)
        (most_common_size : Size) (most_common_count : nat) :
  crop_pdf self output_path =
    Saved out cropped_pages unchanged_pages most_common_size most_common_count ->
  (cropped_pages <= most_common_count)%nat
  /\ (Z.of_nat cropped_pages <= Z.max 0 (max_page self - min_page self + 1))%Z
  /\ ((max_page self < min_page self)%Z ->
      cropped_pages = 0%nat /\ unchanged_pages = length (doc self)).
Proof.
  intros H.
  destruct (saved_inversion _ _ _ _ _ _ _ H)
    as [view_rect [crop [_ [_ [Htop Hloop]]]]].
  destruct (ManualCrop.crop_loop_spec (doc self) (min_page self) (max_page self)
              most_common_size crop 0%nat [] 0%nat 0%nat)
    as [added [Hrun [_ [Hcnt _]]]].
  rewrite Hrun in Hloop. injection Hloop as _ Hc Hu.
  destruct (ManualCrop.most_common_is_mode _ _ _ Htop) as [_ [Hmcc _]].
  pose proof (count_eligible_le_seen (min_page self) (max_page self)
                most_common_size (doc self) 0) as Hseen.
  pose proof (count_eligible_range (min_page self) (max_page self)
                most_common_size (doc self) 0) as Hrange.
  split; [lia|]. split; [lia|].
  intros Hempty.
  pose proof (count_eligible_empty_range _ _ most_common_size (doc self) Hempty 0%nat).
  lia.
Qed.

Lemma cropped_pages_bounded_witness :
  exists out c u,
    crop_pdf (sample_gui 1 7) sample_path = Saved out c u (600, 800)%Z 5
    /\ (c <= 5)%nat /\ (Z.of_nat c <= 7)%Z.
Proof.
  destruct (crop_pdf (sample_gui 1 7) sample_path) as [| | |out c u sz n] eqn:Hrun;
    try (vm_compute in Hrun; discriminate).
  pose proof Hrun as Hval. vm_compute in Hval.
  injection Hval as _ _ _ Hsz Hn. subst sz n.
  destruct (cropped_pages_bounded _ _ _ _ _ _ _ Hrun) as [A [B _]].
  exists out, c, u. split; [reflexivity|]. split; [exact A|exact B].
Defined.

(** *** When nothing is saved *)

Lemma pydiv_zero (a b : Q) : b == 0 -> pydiv a b = None.
Proof.
  intros H. unfold pydiv. apply Qeq_bool_iff in H. now rewrite H.
Qed.

(** X17: with a selection and a file name given, the crop still fails,
    saving nothing, when the document has no page, when the render scale is
    0, or when the current page has a zero width or height (the division of
    the log line raises). *)
Theorem crop_fails_without_saving (self : Gui) (output_path : String.string)
        (view_rect : QRectF) :
  view_crop_rect self = Some view_rect -> qrect_bool view_rect = true ->
  output_path <> String.EmptyString ->
  doc self = [] \/ render_scale_factor self == 0
  \/ width (page_rect self) == 0 \/ height (page_rect self) == 0 ->
  crop_pdf self output_path = Failed.
Proof.
  intros Hsel Hvalid Hpath Hbad. unfold crop_pdf. rewrite Hsel, Hvalid. cbn [negb].
  destruct output_path as [|ch rest]; [contradiction|].
  assert (Hbody : crop_body self view_rect = None); [|now rewrite Hbody].
  unfold crop_body.
  destruct (pdf_crop_rect self view_rect) as [crop|] eqn:Hcrop; [|reflexivity].
  cbn [bind].
  destruct (nth_error _ 0) as [[mcs mcc]|] eqn:Htop; [|reflexivity].
  cbn [bind].
  assert (Hlog : log_lines self crop mcc (length (doc self)) = None);
    [|now rewrite Hlog].
  destruct Hbad as [Hdoc|[Hscale|[Hw|Hh]]].
  - rewrite Hdoc in Htop. discriminate.
  - unfold pdf_crop_rect in Hcrop. rewrite (pydiv_zero _ _ Hscale) in Hcrop.
    discriminate.
  - unfold log_lines. destruct (pydiv _ _) as [f|]; [|reflexivity]. cbn [bind].
    now rewrite (pydiv_zero _ _ Hw).
  - unfold log_lines. destruct (pydiv _ _) as [f|]; [|reflexivity]. cbn [bind].
    destruct (pydiv (x0 crop) _) as [l|]; [|reflexivity]. cbn [bind].
    now rewrite (pydiv_zero _ _ Hh).
Qed.

Lemma crop_fails_without_saving_witness :
  crop_pdf empty_gui sample_path = Failed.
Proof.
  apply (crop_fails_without_saving empty_gui sample_path
           (mkQRectF 100 100 1000 1400)).
  - reflexivity.
  - reflexivity.
  - discriminate.
  - left. reflexivity.
Defined.

End ManualCropEdges.

(** ** Navigating the pages *)

Module NavigationFacts.

Import Navigation.

Lemma find_down_spec (lo hi : Z) (n : nat) (p : Z) :
  find_down lo hi n = Some p ->
  (0 <= p < Z.of_nat n)%Z /\ in_crop_range lo hi (p + 1) = true
  /\ forall q, (p < q < Z.of_nat n)%Z -> in_crop_range lo hi (q + 1) = false.
Proof.
  induction n as [|k IH]; cbn [find_down]; [discriminate|].
  destruct (in_crop_range lo hi (Z.of_nat k + 1)) eqn:E.
  - intros H. injection H as <-. split; [lia|]. split; [exact E|]. intros q Hq. lia.
  - intros H. destruct (IH H) as [Hp [Hin Hbetween]].
    split; [lia|]. split; [exact Hin|]. intros q Hq.
    destruct (Z.eq_dec q (Z.of_nat k)) as [->|Hne]; [exact E|]. apply Hbetween. lia.
Qed.

Lemma find_down_none (lo hi : Z) (n : nat) :
  find_down lo hi n = None ->
  forall q, (0 <= q < Z.of_nat n)%Z -> in_crop_range lo hi (q + 1) = false.
Proof.
  induction n as [|k IH]; cbn [find_down]; [intros _ q Hq; lia|].
  destruct (in_crop_range lo hi (Z.of_nat k + 1)) eqn:E; [discriminate|].
  intros H q Hq. destruct (Z.eq_dec q (Z.of_nat k)) as [->|Hne]; [exact E|].
  apply (IH H). lia.
Qed.

Lemma find_up_spec (lo hi : Z) (count : nat) :
  forall start p,
    find_up lo hi start count = Some p ->
    (start <= p < start + Z.of_nat count)%Z /\ in_crop_range lo hi (p + 1) = true
    /\ forall q, (start <= q < p)%Z -> in_crop_range lo hi (q + 1) = false.
Proof.
  induction count as [|k IH]; intros start p; cbn [find_up]; [discriminate|].
  destruct (in_crop_range lo hi (start + 1)) eqn:E.
  - intros H. injection H as <-. split; [lia|]. split; [exact E|]. intros q Hq. lia.
  - intros H. destruct (IH _ _ H) as [Hp [Hin Hbetween]].
    split; [lia|]. split; [exact Hin|]. intros q Hq.
    destruct (Z.eq_dec q start) as [->|Hne]; [exact E|]. apply Hbetween. lia.
Qed.

Lemma find_up_none (lo hi : Z) (count : nat) :
  forall start,
    find_up lo hi start count = None ->
    forall q, (start <= q < start + Z.of_nat count)%Z ->
              in_crop_range lo hi (q + 1) = false.
Proof.
  induction count as [|k IH]; intros start; cbn [find_up]; [intros _ q Hq; lia|].
  destruct (in_crop_range lo hi (start + 1)) eqn:E; [discriminate|].
  intros H q Hq. destruct (Z.eq_dec q start) as [->|Hne]; [exact E|].
  apply (IH _ H). lia.
Qed.

Lemma doc_getitem_on_page (pages : list Page) (i : Z) :
  (0 <= i < Z.of_nat (length pages))%Z ->
  exists page, doc_getitem pages i = Some page
               /\ nth_error pages (Z.to_nat i) = Some page.
Proof.
  intros H. unfold doc_getitem.
  destruct (Z.ltb_spec i (Z.of_nat (length pages))); [|lia].
  rewrite Z.mod_small by lia.
  destruct (nth_error pages (Z.to_nat i)) as [page|] eqn:E; [eauto|].
  apply nth_error_None in E. lia.
Qed.

(** What [load_page] leaves in the window when the current page exists. *)
Lemma load_page_on_page (self : Window) :
  on_a_page self ->
  exists s' page,
    load_page self = Some s'
    /\ nth_error (doc self) (Z.to_nat (current_page self)) = Some page
    /\ doc s' = doc self /\ current_page s' = current_page self
    /\ min_page s' = min_page self /\ max_page s' = max_page self
    /\ preview_crop_range_only s' = preview_crop_range_only self
    /\ persistent_crop_rect s' = persistent_crop_rect self
    /\ page_rect s' = rect page
    /\ will_be_cropped s' =
         in_crop_range (min_page self) (max_page self) (current_page self + 1)
    /\ view_crop_rect s' =
         (if selection_bool (persistent_crop_rect self)
          then persistent_crop_rect self else view_crop_rect self)
    /\ prev_enabled s' =
         (if preview_crop_range_only self
          then is_some (find_down (min_page self) (max_page self)
                                  (Z.to_nat (current_page self)))
          else (0 <? current_page self)%Z)
    /\ next_enabled s' =
         (if preview_crop_range_only self
          then is_some (find_up (min_page self) (max_page self)
                         (current_page self + 1)
                         (Z.to_nat (Z.of_nat (length (doc self))
                                    - (current_page self + 1))))
          else (current_page self <? Z.of_nat (length (doc self)) - 1)%Z).
Proof.
  intros H. destruct (doc_getitem_on_page _ _ H) as [page [Hget Hnth]].
  unfold load_page. rewrite Hget. cbn [bind].
  eexists. exists page. split; [reflexivity|]. cbn. repeat split; auto.
Qed.

Lemma update_persistent_crop_nav (self : Window) :
  doc (update_persistent_crop self) = doc self
  /\ current_page (update_persistent_crop self) = current_page self
  /\ min_page (update_persistent_crop self) = min_page self
  /\ max_page (update_persistent_crop self) = max_page self
  /\ preview_crop_range_only (update_persistent_crop self)
     = preview_crop_range_only self.
Proof.
  unfold update_persistent_crop.
  destruct (selection_bool (view_crop_rect self)); cbn; repeat split.
Qed.

Lemma next_target_on_page (self : Window) :
  on_a_page self ->
  (current_page self <= next_target self < Z.of_nat (length (doc self)))%Z.
Proof.
  unfold on_a_page, next_target. intros H.
  destruct (preview_crop_range_only self);
    destruct (Z.ltb_spec (current_page self) (Z.of_nat (length (doc self)) - 1));
    try lia.
  destruct (find_up _ _ _ _) as [p|] eqn:E; [|lia].
  apply find_up_spec in E. lia.
Qed.

Lemma prev_target_on_page (self : Window) :
  on_a_page self -> (0 <= prev_target self <= current_page self)%Z.
Proof.
  unfold on_a_page, prev_target. intros H.
  destruct (preview_crop_range_only self);
    destruct (Z.ltb_spec 0 (current_page self)); try lia.
  destruct (find_down _ _ _) as [p|] eqn:E; [|lia].
  apply find_down_spec in E. lia.
Qed.

Lemma next_page_loads (self : Window) :
  next_page self =
    load_page (with_current_page (update_persistent_crop self)
                                 (next_target (update_persistent_crop self))).
Proof.
  unfold next_page, next_target.
  set (s := update_persistent_crop self).
  destruct (preview_crop_range_only s);
    destruct (current_page s <? Z.of_nat (length (doc s)) - 1)%Z;
    try (destruct (find_up _ _ _ _)); try reflexivity;
    now destruct s.
Qed.

Lemma prev_page_loads (self : Window) :
  prev_page self =
    load_page (with_current_page (update_persistent_crop self)
                                 (prev_target (update_persistent_crop self))).
Proof.
  unfold prev_page, prev_target.
  set (s := update_persistent_crop self).
  destruct (preview_crop_range_only s);
    destruct (0 <? current_page s)%Z;
    try (destruct (find_down _ _ _)); try reflexivity;
    now destruct s.
Qed.

Lemma moved_window (self : Window) (p : Z) :
  doc (with_current_page self p) = doc self
  /\ current_page (with_current_page self p) = p
  /\ min_page (with_current_page self p) = min_page self
  /\ max_page (with_current_page self p) = max_page self
  /\ preview_crop_range_only (with_current_page self p)
     = preview_crop_range_only self
  /\ persistent_crop_rect (with_current_page self p) = persistent_crop_rect self
  /\ view_crop_rect (with_current_page self p) = view_crop_rect self.
Proof. cbn. repeat split. Qed.

(** The page shown after a step to [target], a page of the document. *)
Lemma step_loads (self : Window) (target : Z) :
  (0 <= target < Z.of_nat (length (doc self)))%Z ->
  exists s' page,
    load_page (with_current_page (update_persistent_crop self) target) = Some s'
    /\ doc s' = doc self /\ current_page s' = target
    /\ min_page s' = min_page self /\ max_page s' = max_page self
    /\ preview_crop_range_only s' = preview_crop_range_only self
    /\ nth_error (doc self) (Z.to_nat target) = Some page
    /\ page_rect s' = rect page
    /\ will_be_cropped s' = in_crop_range (min_page self) (max_page self) (target + 1).
Proof.
  intros Ht.
  destruct (update_persistent_crop_nav self) as [Ed [Ec [Emin [Emax Ep]]]].
  set (s := update_persistent_crop self) in *.
  destruct (load_page_on_page (with_current_page s target))
    as [s' [page [Hload [Hnth [A [B [C [D [E [_ [F [G _]]]]]]]]]]]].
  { unfold on_a_page. cbn. rewrite Ed. exact Ht. }
  cbn in Hnth, A, B, C, D, E, G.
  exists s', page. split; [exact Hload|].
  rewrite Ed in A, Hnth. rewrite Emin in C, G. rewrite Emax in D, G. rewrite Ep in E.
  repeat split; assumption.
Qed.

(** X18: from a page of the document, [next_page] shows a page of the
    document at or after it.  In all-pages mode it is the following page
    (the same page on the last one).  In crop-range mode it is the nearest
    following page whose number lies in [min_page, max_page], and the same
    page when no following page does. *)
Theorem next_page_goes_to_nearest (self : Window) :
  on_a_page self ->
  exists s' page,
    next_page self = Some s'
    /\ doc s' = doc self /\ on_a_page s'
    /\ nth_error (doc self) (Z.to_nat (current_page s')) = Some page
    /\ page_rect s' = rect page
    /\ (current_page self <= current_page s')%Z
    /\ (preview_crop_range_only self = false ->
        current_page s' =
          Z.min (current_page self + 1) (Z.of_nat (length (doc self)) - 1))
    /\ (preview_crop_range_only self = true ->
        (current_page s' <> current_page self ->
         in_crop_range (min_page self) (max_page self) (current_page s' + 1) = true
         /\ will_be_cropped s' = true
         /\ forall q, (current_page self < q < current_page s')%Z ->
              in_crop_range (min_page self) (max_page self) (q + 1) = false)
        /\ (current_page s' = current_page self ->
            forall q, (current_page self < q < Z.of_nat (length (doc self)))%Z ->
              in_crop_range (min_page self) (max_page self) (q + 1) = false)).
Proof.
  intros Hon. rewrite next_page_loads.
  destruct (update_persistent_crop_nav self) as [Ed [Ec [Emin [Emax Ep]]]].
  assert (Hon' : on_a_page (update_persistent_crop self))
    by (unfold on_a_page; rewrite Ed, Ec; exact Hon).
  pose proof (next_target_on_page _ Hon') as Ht. rewrite Ed, Ec in Ht.
  destruct (step_loads self (next_target (update_persistent_crop self)))
    as [s' [page [Hload [A [B [C [D [E [Hnth [F G]]]]]]]]]]; [unfold on_a_page in Hon; lia|].
  exists s', page. split; [exact Hload|]. split; [exact A|].
  split; [unfold on_a_page; rewrite A, B; unfold on_a_page in Hon; lia|].
  rewrite B. split; [exact Hnth|]. split; [exact F|]. split; [lia|].
  unfold next_target in *. rewrite Ed, Ec, Emin, Emax, Ep in *.
  unfold on_a_page in Hon. split; intros Hmode; rewrite Hmode in *.
  - destruct (Z.ltb_spec (current_page self) (Z.of_nat (length (doc self)) - 1)); lia.
  - destruct (Z.ltb_spec (current_page self) (Z.of_nat (length (doc self)) - 1)).
    + destruct (find_up _ _ _ _) as [p|] eqn:Hf.
      * destruct (find_up_spec _ _ _ _ _ Hf) as [Hp [Hin Hbetween]].
        split.
        -- intros _. split; [exact Hin|]. split; [now rewrite G|].
           intros q Hq. apply Hbetween. lia.
        -- intros Heq. lia.
      * split; [intros Hne; contradiction|]. intros _ q Hq.
        apply (find_up_none _ _ _ _ Hf). lia.
    + split; [intros Hne; contradiction|]. intros _ q Hq. lia.
Qed.

Lemma next_page_goes_to_nearest_witness :
  on_a_page sample_window
  /\ exists s', next_page sample_window = Some s'
                /\ current_page s' = 4%Z /\ will_be_cropped s' = true.
Proof.
  assert (Hon : on_a_page sample_window) by (unfold on_a_page; simpl; lia).
  split; [exact Hon|].
  destruct (next_page_goes_to_nearest sample_window Hon)
    as [s' [page [Hs [_ [_ [_ [_ [_ [_ Hmode]]]]]]]]].
  exists s'. split; [exact Hs|].
  assert (Hc : current_page s' = 4%Z)
    by (vm_compute in Hs; injection Hs as <-; reflexivity).
  split; [exact Hc|].
  destruct (Hmode eq_refl) as [Hmoved _].
  apply Hmoved. rewrite Hc. discriminate.
Defined.

(** X19: from a page of the document, [prev_page] shows a page of the
    document at or before it: the preceding page in all-pages mode (the same
    page on the first one), and in crop-range mode the nearest preceding
    page whose number lies in [min_page, max_page], or the same page when no
    preceding page does. *)
Theorem prev_page_goes_to_nearest (self : Window) :
  on_a_page self ->
  exists s' page,
    prev_page self = Some s'
    /\ doc s' = doc self /\ on_a_page s'
    /\ nth_error (doc self) (Z.to_nat (current_page s')) = Some page
    /\ page_rect s' = rect page
    /\ (current_page s' <= current_page self)%Z
    /\ (preview_crop_range_only self = false ->
        current_page s' = Z.max (current_page self - 1) 0)
    /\ (preview_crop_range_only self = true ->
        (current_page s' <> current_page self ->
         in_crop_range (min_page self) (max_page self) (current_page s' + 1) = true
         /\ will_be_cropped s' = true
         /\ forall q, (current_page s' < q < current_page self)%Z ->
              in_crop_range (min_page self) (max_page self) (q + 1) = false)
        /\ (current_page s' = current_page self ->
            forall q, (0 <= q < current_page self)%Z ->
              in_crop_range (min_page self) (max_page self) (q + 1) = false)).
Proof.
  intros Hon. rewrite prev_page_loads.
  destruct (update_persistent_crop_nav self) as [Ed [Ec [Emin [Emax Ep]]]].
  assert (Hon' : on_a_page (update_persistent_crop self))
    by (unfold on_a_page; rewrite Ed, Ec; exact Hon).
  pose proof (prev_target_on_page _ Hon') as Ht. rewrite Ec in Ht.
  unfold on_a_page in Hon.
  destruct (step_loads self (prev_target (update_persistent_crop self)))
    as [s' [page [Hload [A [B [C [D [E [Hnth [F G]]]]]]]]]]; [lia|].
  exists s', page. split; [exact Hload|]. split; [exact A|].
  split; [unfold on_a_page; rewrite A, B; lia|].
  rewrite B. split; [exact Hnth|]. split; [exact F|]. split; [lia|].
  unfold prev_target in *. rewrite Ec, Emin, Emax, Ep in *.
  split; intros Hmode; rewrite Hmode in *.
  - destruct (Z.ltb_spec 0 (current_page self)); lia.
  - destruct (Z.ltb_spec 0 (current_page self)).
    + destruct (find_down _ _ _) as [p|] eqn:Hf.
      * destruct (find_down_spec _ _ _ _ Hf) as [Hp [Hin Hbetween]].
        split.
        -- intros _. split; [exact Hin|]. split; [now rewrite G|].
           intros q Hq. apply Hbetween. lia.
        -- intros Heq. lia.
      * split; [intros Hne; contradiction|]. intros _ q Hq.
        apply (find_down_none _ _ _ Hf). lia.
    + split; [intros Hne; contradiction|]. intros _ q Hq. lia.
Qed.

Lemma prev_page_goes_to_nearest_witness :
  on_a_page sample_window
  /\ exists s', prev_page sample_window = Some s'
                /\ current_page s' = current_page sample_window.
Proof.
  assert (Hon : on_a_page sample_window) by (unfold on_a_page; simpl; lia).
  split; [exact Hon|].
  destruct (prev_page_goes_to_nearest sample_window Hon)
    as [s' [page [Hs [_ [_ [_ [_ [Hle _]]]]]]]].
  exists s'. split; [exact Hs|].
  vm_compute in Hs. injection Hs as <-. reflexivity.
Defined.

(** *** The buttons and the steps *)

Lemma is_some_true {A : Type} (o : option A) :
  is_some o = true <-> exists a, o = Some a.
Proof.
  destruct o; cbn; split; eauto; try discriminate. intros [a H]. discriminate.
Qed.

(** X20: once a page of the document is loaded, each navigation button is
    enabled exactly when pressing it shows another page. *)
Theorem buttons_enabled_iff_step_moves (self s1 : Window) :
  on_a_page self -> load_page self = Some s1 ->
  (exists s2, next_page s1 = Some s2
              /\ (next_enabled s1 = true <-> current_page s2 <> current_page s1))
  /\ (exists s3, prev_page s1 = Some s3
                 /\ (prev_enabled s1 = true <-> current_page s3 <> current_page s1)).
Proof.
  intros Hon Hload.
  destruct (load_page_on_page self Hon)
    as [s1' [page [Hload' [_ [A [B [C [D [E [_ [_ [_ [_ [Hprev Hnext]]]]]]]]]]]]]].
  rewrite Hload in Hload'. injection Hload' as <-.
  assert (Hon1 : on_a_page s1) by (unfold on_a_page; rewrite A, B; exact Hon).
  destruct (update_persistent_crop_nav s1) as [Ed [Ec [Emin [Emax Ep]]]].
  assert (Hon1' : on_a_page (update_persistent_crop s1))
    by (unfold on_a_page; rewrite Ed, Ec; exact Hon1).
  unfold on_a_page in Hon1.
  rewrite <- B, <- C, <- D, <- E in Hprev.
  rewrite <- A, <- B, <- C, <- D, <- E in Hnext.
  split.
  - rewrite next_page_loads.
    pose proof (next_target_on_page _ Hon1') as Ht. rewrite Ed, Ec in Ht.
    destruct (step_loads s1 (next_target (update_persistent_crop s1)))
      as [s2 [p2 [Hs2 [_ [Hc2 _]]]]]; [lia|].
    exists s2. split; [exact Hs2|]. rewrite Hc2, Hnext.
    unfold next_target. rewrite Ed, Ec, Emin, Emax, Ep.
    destruct (preview_crop_range_only s1).
    + destruct (Z.ltb_spec (current_page s1) (Z.of_nat (length (doc s1)) - 1)).
      * destruct (find_up _ _ _ _) as [p|] eqn:Hf; cbn [is_some].
        -- apply find_up_spec in Hf. split; [intros _; lia|reflexivity].
        -- split; [discriminate|intros Hne; contradiction].
      * replace (Z.to_nat (Z.of_nat (length (doc s1)) - (current_page s1 + 1)))
          with 0%nat by lia.
        cbn. split; [discriminate|intros Hne; contradiction].
    + destruct (Z.ltb_spec (current_page s1) (Z.of_nat (length (doc s1)) - 1));
        split; try lia; try discriminate; try reflexivity;
        intros Hne; contradiction.
  - rewrite prev_page_loads.
    pose proof (prev_target_on_page _ Hon1') as Ht. rewrite Ec in Ht.
    destruct (step_loads s1 (prev_target (update_persistent_crop s1)))
      as [s3 [p3 [Hs3 [_ [Hc3 _]]]]]; [lia|].
    exists s3. split; [exact Hs3|]. rewrite Hc3, Hprev.
    unfold prev_target. rewrite Ec, Emin, Emax, Ep.
    destruct (preview_crop_range_only s1).
    + destruct (Z.ltb_spec 0 (current_page s1)).
      * destruct (find_down _ _ _) as [p|] eqn:Hf; cbn [is_some].
        -- apply find_down_spec in Hf. split; [intros _; lia|reflexivity].
        -- split; [discriminate|intros Hne; contradiction].
      * replace (Z.to_nat (current_page s1)) with 0%nat by lia.
        cbn. split; [discriminate|intros Hne; contradiction].
    + destruct (Z.ltb_spec 0 (current_page s1));
        split; try lia; try discriminate; try reflexivity;
        intros Hne; contradiction.
Qed.

Lemma buttons_enabled_iff_step_moves_witness :
  exists s1 s2,
    load_page sample_window = Some s1 /\ next_page s1 = Some s2
    /\ next_enabled s1 = true /\ current_page s2 <> current_page s1.
Proof.
  assert (Hon : on_a_page sample_window) by (unfold on_a_page; simpl; lia).
  destruct (load_page sample_window) as [s1|] eqn:Hl;
    [|vm_compute in Hl; discriminate].
  destruct (buttons_enabled_iff_step_moves sample_window s1 Hon Hl)
    as [[s2 [Hs2 Hiff]] _].
  assert (He : next_enabled s1 = true)
    by (vm_compute in Hl; injection Hl as <-; reflexivity).
  exists s1, s2. split; [reflexivity|]. split; [exact Hs2|].
  split; [exact He|]. apply Hiff. exact He.
Defined.

(** *** Preview mode and the page range *)

(** X21: [toggle_preview_mode] flips the mode; leaving the crop-range mode
    keeps the page, and entering it (with 1 <= min_page <= number of pages)
    keeps the page when its number is in the crop range and otherwise shows
    page [min_page], which is in the range as soon as
    min_page <= max_page. *)
Theorem toggle_preview_mode_shows_range (self : Window) :
  on_a_page self ->
  (1 <= min_page self <= Z.of_nat (length (doc self)))%Z ->
  exists s',
    toggle_preview_mode self = Some s'
    /\ preview_crop_range_only s' = negb (preview_crop_range_only self)
    /\ on_a_page s' /\ doc s' = doc self
    /\ (preview_crop_range_only self = true -> current_page s' = current_page self)
    /\ (preview_crop_range_only self = false ->
        (in_crop_range (min_page self) (max_page self) (current_page self + 1) = true ->
         current_page s' = current_page self)
        /\ (in_crop_range (min_page self) (max_page self) (current_page self + 1)
            = false -> current_page s' = (min_page self - 1)%Z)
        /\ ((min_page self <= max_page self)%Z -> will_be_cropped s' = true)).
Proof.
  intros Hon Hmin. unfold toggle_preview_mode.
  set (target := if negb (preview_crop_range_only self) then _ else _).
  assert (Ht : (0 <= target < Z.of_nat (length (doc self)))%Z).
  { unfold target, on_a_page in *. destruct (preview_crop_range_only self); cbn [negb];
      [lia|]. destruct (in_crop_range _ _ _); cbn [negb]; lia. }
  match goal with
  | |- exists s', load_page ?w = _ /\ _ =>
      destruct (load_page_on_page w) as [s' [page [Hl [_ [A [B [C [D [E [_ [_ [G _]]]]]]]]]]]]
  end.
  { unfold on_a_page. cbn. exact Ht. }
  cbn in A, B, C, D, E, G.
  exists s'. split; [exact Hl|]. split; [exact E|].
  split; [unfold on_a_page; rewrite A, B; exact Ht|]. split; [exact A|].
  rewrite B, G. unfold target.
  split; intros Hmode; rewrite Hmode; cbn [negb]; [reflexivity|].
  destruct (in_crop_range (min_page self) (max_page self) (current_page self + 1))
    eqn:Hin; cbn [negb].
  - split; [reflexivity|]. split; [discriminate|]. intros _. exact Hin.
  - split; [discriminate|]. split; [reflexivity|]. intros Hle.
    unfold in_crop_range. apply andb_true_intro. split; apply Z.leb_le; lia.
Qed.

Lemma toggle_preview_mode_shows_range_witness :
  exists s s',
    toggle_preview_mode sample_window = Some s /\ toggle_preview_mode s = Some s'
    /\ preview_crop_range_only s = false
    /\ current_page s' = 4%Z /\ will_be_cropped s' = true.
Proof.
  assert (Hon : on_a_page sample_window) by (unfold on_a_page; simpl; lia).
  destruct (toggle_preview_mode_shows_range sample_window Hon)
    as [s [Hs [Hflag [Hon1 [Hd [_ _]]]]]]; [simpl; lia|].
  assert (Es : min_page s = 5%Z /\ max_page s = 7%Z /\ current_page s = 2%Z)
    by (vm_compute in Hs; injection Hs as <-; repeat split).
  destruct Es as [Emin [Emax Ecur]].
  destruct (toggle_preview_mode_shows_range s Hon1)
    as [s' [Hs' [_ [_ [_ [_ Henter]]]]]].
  { rewrite Emin, Hd. simpl. lia. }
  destruct (Henter Hflag) as [_ [Hjump Hlabel]].
  exists s, s'. split; [exact Hs|]. split; [exact Hs'|]. split; [exact Hflag|].
  split.
  - rewrite Hjump; [rewrite Emin; reflexivity|]. rewrite Emin, Emax, Ecur. reflexivity.
  - apply Hlabel. rewrite Emin, Emax. lia.
Defined.

(** X22: [update_page_range] leaves min_page <= max_page: the two spin-box
    values are taken as they are when ordered, and otherwise the spin box
    that was changed keeps its value and the other bound follows it; the
    page shown does not change. *)
Theorem update_page_range_orders (self : Window) (sender : Sender) :
  on_a_page self ->
  exists s',
    update_page_range self sender = Some s'
    /\ (min_page s' <= max_page s')%Z
    /\ current_page s' = current_page self
    /\ ((min_page_spinbox self <= max_page_spinbox self)%Z ->
        min_page s' = min_page_spinbox self /\ max_page s' = max_page_spinbox self)
    /\ ((max_page_spinbox self < min_page_spinbox self)%Z ->
        min_page s' = max_page s'
        /\ (sender = MinSpin -> min_page s' = min_page_spinbox self)
        /\ (sender = MaxSpin -> max_page s' = max_page_spinbox self))
    /\ ((1 <= min_page_spinbox self <= Z.of_nat (length (doc self)))%Z ->
        (1 <= max_page_spinbox self <= Z.of_nat (length (doc self)))%Z ->
        min_page_spinbox s' = min_page s' /\ max_page_spinbox s' = max_page s'
        /\ (1 <= min_page s')%Z /\ (max_page s' <= Z.of_nat (length (doc self)))%Z).
Proof.
  intros Hon. unfold update_page_range.
  destruct (Z.ltb_spec (max_page_spinbox self) (min_page_spinbox self)) as [Hlt|Hle];
    [destruct sender|];
    match goal with
    | |- exists s', load_page ?w = _ /\ _ =>
        destruct (load_page_on_page w)
          as [s' [page [Hl [_ [A [B [C [D _]]]]]]]]; [exact Hon|];
        assert (Hspin : min_page_spinbox s' = min_page_spinbox w
                        /\ max_page_spinbox s' = max_page_spinbox w)
          by (unfold load_page in Hl;
              destruct (doc_getitem _ _); [|discriminate];
              cbn [bind] in Hl; injection Hl as <-; split; reflexivity)
    end;
    cbn in A, B, C, D, Hspin; destruct Hspin as [S1 S2];
    exists s'; (split; [exact Hl|]); rewrite B, C, D, S1, S2;
    unfold set_value; repeat split; try lia; try discriminate.
Qed.

Lemma update_page_range_orders_witness :
  exists s',
    update_page_range
      (mkWindow PDFCropGUI.ten_pages 2 1 10 false None None 8 3
                (mkRect 0 0 600 800) true false true) MinSpin = Some s'
    /\ min_page s' = 8%Z /\ max_page s' = 8%Z.
Proof.
  set (w := mkWindow PDFCropGUI.ten_pages 2 1 10 false None None 8 3
                     (mkRect 0 0 600 800) true false true).
  assert (Hon : on_a_page w) by (unfold on_a_page; simpl; lia).
  destruct (update_page_range_orders w MinSpin Hon)
    as [s' [Hs [_ [_ [_ [Hswap _]]]]]].
  exists s'. split; [exact Hs|].
  destruct Hswap as [Heq [Hmin _]]; [simpl; lia|].
  specialize (Hmin eq_refl). split; [exact Hmin|]. rewrite <- Heq. exact Hmin.
Defined.

(** *** The selection across pages *)

(** X23: a valid selection on the page survives a step to another page:
    after [next_page] or [prev_page] it is still the selection of the view,
    and it is the stored persistent selection. *)
Theorem selection_survives_navigation (self : Window) (r : PDFCropGUI.QRectF) :
  on_a_page self ->
  view_crop_rect self = Some r -> PDFCropGUI.qrect_bool r = true ->
  (exists s', next_page self = Some s'
              /\ view_crop_rect s' = Some r /\ persistent_crop_rect s' = Some r)
  /\ (exists s', prev_page self = Some s'
                 /\ view_crop_rect s' = Some r /\ persistent_crop_rect s' = Some r).
Proof.
  intros Hon Hsel Hvalid.
  assert (Hup : persistent_crop_rect (update_persistent_crop self) = Some r
                /\ view_crop_rect (update_persistent_crop self) = Some r).
  { unfold update_persistent_crop. rewrite Hsel. cbn [selection_bool].
    rewrite Hvalid. cbn. auto. }
  destruct Hup as [Hp Hv].
  destruct (update_persistent_crop_nav self) as [Ed [Ec _]].
  assert (Hon' : on_a_page (update_persistent_crop self))
    by (unfold on_a_page; rewrite Ed, Ec; exact Hon).
  assert (Hstep : forall target,
            (0 <= target < Z.of_nat (length (doc self)))%Z ->
            exists s', load_page (with_current_page (update_persistent_crop self) target)
                       = Some s'
                       /\ view_crop_rect s' = Some r
                       /\ persistent_crop_rect s' = Some r).
  { intros target Ht.
    destruct (load_page_on_page (with_current_page (update_persistent_crop self) target))
      as [s' [page [Hl [_ [_ [_ [_ [_ [_ [P [_ [_ [V _]]]]]]]]]]]]].
    { unfold on_a_page. cbn. rewrite Ed. exact Ht. }
    cbn in P, V. rewrite Hp in P, V. cbn [selection_bool] in V. rewrite Hvalid in V.
    exists s'. auto. }
  unfold on_a_page in Hon. split.
  - rewrite next_page_loads. apply Hstep.
    pose proof (next_target_on_page _ Hon') as Ht. rewrite Ed, Ec in Ht. lia.
  - rewrite prev_page_loads. apply Hstep.
    pose proof (prev_target_on_page _ Hon') as Ht. rewrite Ec in Ht. lia.
Qed.

Lemma selection_survives_navigation_witness :
  exists s', next_page sample_window = Some s'
             /\ view_crop_rect s' = Some (PDFCropGUI.mkQRectF 100 100 1000 1400)
             /\ persistent_crop_rect s' = Some (PDFCropGUI.mkQRectF 100 100 1000 1400).
Proof.
  assert (Hon : on_a_page sample_window) by (unfold on_a_page; simpl; lia).
  destruct (selection_survives_navigation sample_window
              (PDFCropGUI.mkQRectF 100 100 1000 1400) Hon eq_refl eq_refl)
    as [Hnext _].
  exact Hnext.
Defined.

End NavigationFacts.

(** ** The command line *)

Module CliFacts.

Import Cli.




Lemma Qltb_true (a b : Q) : Qltb a b = true -> a < b.
Proof. unfold Qltb. destruct (Qlt_le_dec a b); [auto|discriminate]. Qed.




End CliFacts.
